(** * NexusWallet signing backend: keystore cipher, key manager, operation builder

    A shallow embedding of

    - [backend/keymanager/crypto_utils.py]  (derive_key, aes_encrypt, aes_decrypt),
    - [backend/keymanager/keyManager.py]    (class KeyManager),
    - [backend/account.py]                  (Account.build_user_operation),

    together with executable models of the library routines those files call:
    [base64.b64encode] / [base64.b64decode], [hashlib.sha256], [hmac],
    PBKDF2-HMAC, AES in CFB mode and [int.to_bytes].

    Python [bytes] are [list byte]; Python [str] passwords are [string]
    (the UTF-8 text, so that [password.encode()] is [list_byte_of_string]);
    Python [int] is [Z].  Exceptions are values of [exn]; a call that may
    raise returns a [result]. *)

From Stdlib Require Import ZArith NArith List Lia Bool.
From Stdlib.Strings Require Import String Ascii Byte.
From stdpp Require Import base option list gmap strings pretty.
Import ListNotations.

Local Open Scope string_scope.
Local Open Scope list_scope.
Local Open Scope nat_scope.

(* ------------------------------------------------------------------------- *)
(** ** Exceptions and results *)

(** The exception classes that occur in the three source files.  The first
    three are declared in [crypto_utils.py]; the others are Python builtins or
    belong to the libraries that are called. *)
Inductive exn_class :=
| CryptoError              (* class CryptoError(Exception) *)
| HMACVerificationFailed   (* class HMACVerificationFailed(CryptoError) *)
| WrongPassword            (* class WrongPassword(CryptoError) *)
| FileNotFoundError
| PermissionError
| OSError
| ValueError
| OverflowError
| binascii_Error
| ConnectionError.

Record exn := mkExn { exn_cls : exn_class; exn_msg : string }.

Definition exn_class_eqb (a b : exn_class) : bool :=
  match a, b with
  | CryptoError, CryptoError | HMACVerificationFailed, HMACVerificationFailed
  | WrongPassword, WrongPassword | FileNotFoundError, FileNotFoundError
  | PermissionError, PermissionError | OSError, OSError
  | ValueError, ValueError | OverflowError, OverflowError
  | binascii_Error, binascii_Error | ConnectionError, ConnectionError => true
  | _, _ => false
  end.

(** [issubclass c d]: the class hierarchy as far as the [except] clauses of the
    sources can observe it. *)
Definition issubclass (c d : exn_class) : bool :=
  exn_class_eqb c d ||
  match c, d with
  | HMACVerificationFailed, CryptoError | WrongPassword, CryptoError => true
  | FileNotFoundError, OSError | PermissionError, OSError
  | ConnectionError, OSError => true
  | binascii_Error, ValueError => true
  | _, _ => false
  end.

Inductive result (A : Type) : Type :=
| Ok (a : A)
| Raise (e : exn).
Arguments Ok {A} a.
Arguments Raise {A} e.

#[global] Instance result_ret : MRet result := fun A a => Ok a.
#[global] Instance result_bind : MBind result := fun A B k m =>
  match m with
  | Ok a => k a
  | Raise e => Raise e
  end.

Definition raise {A} (c : exn_class) (msg : string) : result A := Raise (mkExn c msg).

(** [try: m  except Exception as e: h e] *)
Definition try_except {A} (m : result A) (h : exn -> result A) : result A :=
  match m with
  | Ok a => Ok a
  | Raise e => h e
  end.

Definition is_ok {A} (r : result A) : bool :=
  match r with Ok _ => true | Raise _ => false end.

(** [raises r c]: [r] is an exception whose class is exactly [c]. *)
Definition raises {A} (r : result A) (c : exn_class) : Prop :=
  match r with Ok _ => False | Raise e => exn_cls e = c end.

(* ------------------------------------------------------------------------- *)
(** ** Bytes *)

Definition byte_of_N (n : N) : byte :=
  match Byte.of_N (n mod 256) with
  | Some b => b
  | None => x00
  end.

Definition byte_of_Z (z : Z) : byte := byte_of_N (Z.to_N (z mod 256)).
Definition Z_of_byte (b : byte) : Z := Z.of_N (Byte.to_N b).

Definition byte_eqb (a b : byte) : bool := N.eqb (Byte.to_N a) (Byte.to_N b).

Definition byte_xor (a b : byte) : byte :=
  byte_of_N (N.lxor (Byte.to_N a) (Byte.to_N b)).

(** Bytewise xor, as long as the shorter operand. *)
Fixpoint xor_bytes (a b : list byte) : list byte :=
  match a, b with
  | x :: a', y :: b' => byte_xor x y :: xor_bytes a' b'
  | _, _ => []
  end.

Fixpoint bytes_eqb (a b : list byte) : bool :=
  match a, b with
  | [], [] => true
  | x :: a', y :: b' => byte_eqb x y && bytes_eqb a' b'
  | _, _ => false
  end.

Definition all_bytes : list byte := map (fun n => byte_of_N (N.of_nat n)) (seq 0 256).

(** Python slicing [l[start:stop]] with optional, possibly negative bounds. *)
Definition slice_index (len : Z) (i : Z) : nat :=
  let j := if (i <? 0)%Z then (i + len)%Z else i in
  Z.to_nat (Z.min len (Z.max 0 j)).

Definition py_slice {A} (l : list A) (start stop : option Z) : list A :=
  let len := Z.of_nat (length l) in
  let lo := match start with Some i => slice_index len i | None => 0 end in
  let hi := match stop with Some i => slice_index len i | None => length l end in
  firstn (hi - lo) (skipn lo l).

(* ------------------------------------------------------------------------- *)
(** ** base64 (Python's [base64] over [binascii]) *)

Module Base64.

Definition table_b2a_base64 : list byte :=
  list_byte_of_string
    "ABCDEFGHIJKLMNOPQRSTUVWXYZabcdefghijklmnopqrstuvwxyz0123456789+/".

Definition BASE64_PAD : byte := "="%byte.

Definition b2a (v : N) : byte := nth (N.to_nat v) table_b2a_base64 x00.

Fixpoint index_of (c : byte) (tbl : list byte) (i : N) : option N :=
  match tbl with
  | [] => None
  | x :: tbl' => if byte_eqb c x then Some i else index_of c tbl' (N.succ i)
  end.

(** [table_a2b_base64[ch]]; [None] stands for the entries >= 64. *)
Definition table_a2b_base64 (c : byte) : option N := index_of c table_b2a_base64 0%N.

(** [binascii.b2a_base64(s, newline=False)]: three bytes give four
    characters, the rest is padded with [=]. *)
Fixpoint b64encode (s : list byte) : list byte :=
  match s with
  | a :: b :: c :: rest =>
      let a := Byte.to_N a in let b := Byte.to_N b in let c := Byte.to_N c in
      b2a (N.shiftr a 2)
      :: b2a (N.lor (N.shiftl (N.land a 3) 4) (N.shiftr b 4))
      :: b2a (N.lor (N.shiftl (N.land b 15) 2) (N.shiftr c 6))
      :: b2a (N.land c 63)
      :: b64encode rest
  | [a; b] =>
      let a := Byte.to_N a in let b := Byte.to_N b in
      [ b2a (N.shiftr a 2);
        b2a (N.lor (N.shiftl (N.land a 3) 4) (N.shiftr b 4));
        b2a (N.shiftl (N.land b 15) 2);
        BASE64_PAD ]
  | [a] =>
      let a := Byte.to_N a in
      [ b2a (N.shiftr a 2); b2a (N.shiftl (N.land a 3) 4); BASE64_PAD; BASE64_PAD ]
  | [] => []
  end.

Definition emit (b : byte) (r : result (list byte)) : result (list byte) :=
  match r with
  | Ok l => Ok (b :: l)
  | Raise e => Raise e
  end.

(** The loop of [binascii.a2b_base64] with [strict_mode] off, which is what
    [base64.b64decode(s)] runs: a character outside the alphabet is skipped,
    a pad sequence that completes a quad ends the input, and leftover
    characters of an incomplete quad are an error. *)
Fixpoint a2b_loop (s : list byte) (quad_pos : nat) (leftchar : N) (pads : nat)
  : result (list byte) :=
  match s with
  | [] =>
      match quad_pos with
      | 0 => Ok []
      | 1 => raise binascii_Error "Invalid base64-encoded string"
      | _ => raise binascii_Error "Incorrect padding"
      end
  | ch :: s' =>
      if byte_eqb ch BASE64_PAD then
        if (2 <=? quad_pos) && (4 <=? quad_pos + S pads) then Ok []
        else a2b_loop s' quad_pos leftchar (if 2 <=? quad_pos then S pads else pads)
      else
        match table_a2b_base64 ch with
        | None => a2b_loop s' quad_pos leftchar pads
        | Some v =>
            match quad_pos with
            | 0 => a2b_loop s' 1 v 0
            | 1 => emit (byte_of_N (N.lor (N.shiftl leftchar 2) (N.shiftr v 4)))
                        (a2b_loop s' 2 (N.land v 15) 0)
            | 2 => emit (byte_of_N (N.lor (N.shiftl leftchar 4) (N.shiftr v 2)))
                        (a2b_loop s' 3 (N.land v 3) 0)
            | _ => emit (byte_of_N (N.lor (N.shiftl leftchar 6) v))
                        (a2b_loop s' 0 0%N 0)
            end
        end
  end.

Definition b64decode (s : list byte) : result (list byte) := a2b_loop s 0 0%N 0.

Definition in_alphabet (c : byte) : bool :=
  negb (byte_eqb c BASE64_PAD) && bool_decide (is_Some (table_a2b_base64 c)).

End Base64.

(** Cutting a list into consecutive pieces of [n] elements; the last piece may
    be shorter. *)
Fixpoint chunks_aux {A} (fuel n : nat) (l : list A) : list (list A) :=
  match fuel, l with
  | _, [] => []
  | 0, _ => [l]
  | S fuel', _ => firstn n l :: chunks_aux fuel' n (skipn n l)
  end.

Definition chunks {A} (n : nat) (l : list A) : list (list A) :=
  chunks_aux (length l) n l.

(** [n.to_bytes(4, 'big')] and [n.to_bytes(8, 'big')] of a value in range. *)
Definition be32 (x : Z) : list byte :=
  [ byte_of_Z (Z.shiftr x 24); byte_of_Z (Z.shiftr x 16);
    byte_of_Z (Z.shiftr x 8); byte_of_Z x ].

Definition be64 (x : Z) : list byte := be32 (Z.shiftr x 32) ++ be32 x.

(** [int.from_bytes(l, 'big')] *)
Definition from_be (l : list byte) : Z :=
  fold_left (fun acc b => (acc * 256 + Z_of_byte b)%Z) l 0%Z.

(* ------------------------------------------------------------------------- *)
(** ** SHA-256 (FIPS 180-4), the hash behind [hashlib.sha256] and
       [hashes.SHA256()] *)

Module SHA256.
Local Open Scope Z_scope.

Definition add32 (x y : Z) : Z := (x + y) mod 2 ^ 32.
Definition rotr (n x : Z) : Z :=
  (Z.lor (Z.shiftr x n) (Z.shiftl x (32 - n))) mod 2 ^ 32.
Definition Ch (x y z : Z) : Z :=
  Z.lxor (Z.land x y) (Z.land (Z.lxor x (2 ^ 32 - 1)) z).
Definition Maj (x y z : Z) : Z :=
  Z.lxor (Z.lxor (Z.land x y) (Z.land x z)) (Z.land y z).
Definition Sigma0 x := Z.lxor (Z.lxor (rotr 2 x) (rotr 13 x)) (rotr 22 x).
Definition Sigma1 x := Z.lxor (Z.lxor (rotr 6 x) (rotr 11 x)) (rotr 25 x).
Definition sigma0 x := Z.lxor (Z.lxor (rotr 7 x) (rotr 18 x)) (Z.shiftr x 3).
Definition sigma1 x := Z.lxor (Z.lxor (rotr 17 x) (rotr 19 x)) (Z.shiftr x 10).

(** The first sixty-four primes. *)
Definition primes : list Z :=
  [ 2; 3; 5; 7; 11; 13; 17; 19; 23; 29; 31; 37; 41; 43; 47; 53;
    59; 61; 67; 71; 73; 79; 83; 89; 97; 101; 103; 107; 109; 113; 127; 131;
    137; 139; 149; 151; 157; 163; 167; 173; 179; 181; 191; 193; 197; 199; 211; 223;
    227; 229; 233; 239; 241; 251; 257; 263; 269; 271; 277; 281; 283; 293; 307; 311 ].

(** Integer cube root, one bit at a time from bit [bits - 1] down. *)
Fixpoint icbrt_bits (bits : nat) (x r : Z) : Z :=
  match bits with
  | O => r
  | S b =>
      let r' := r + 2 ^ Z.of_nat b in
      icbrt_bits b x (if r' * r' * r' <=? x then r' else r)
  end.

(** Round constants: the first 32 bits of the fractional parts of the cube
    roots of the primes; initial hash value: the same of the square roots
    of the first eight. *)
Definition K256 : list Z :=
  Eval vm_compute in map (fun p => icbrt_bits 40 (p * 2 ^ 96) 0 mod 2 ^ 32) primes.

Definition state : Type := Z * Z * Z * Z * Z * Z * Z * Z.

Definition H0 : state :=
  Eval vm_compute in
    let f i := Z.sqrt (nth i primes 0 * 2 ^ 64) mod 2 ^ 32 in
    (f 0%nat, f 1%nat, f 2%nat, f 3%nat, f 4%nat, f 5%nat, f 6%nat, f 7%nat).

(** Padding: a one bit, zeros, and the bit length as a 64-bit integer. *)
Definition pad (msg : list byte) : list byte :=
  let len := Z.of_nat (length msg) in
  msg ++ "128"%byte :: repeat x00 (Z.to_nat ((- (len + 9)) mod 64)) ++ be64 (8 * len).

Definition words (block : list byte) : list Z := map from_be (chunks 4 block).

(** One round: the sixteen-word window [win] holds W(t) .. W(t+15). *)
Definition round (acc : state * list Z) (k : Z) : state * list Z :=
  let '((a, b, c, d, e, f, g, h), win) := acc in
  let wt := nth 0 win 0 in
  let t1 := add32 (add32 (add32 (add32 h (Sigma1 e)) (Ch e f g)) k) wt in
  let t2 := add32 (Sigma0 a) (Maj a b c) in
  let next := add32 (add32 (add32 (sigma1 (nth 14 win 0)) (nth 9 win 0))
                           (sigma0 (nth 1 win 0))) wt in
  ((add32 t1 t2, a, b, c, add32 d t1, e, f, g), tl win ++ [next]).

Definition compress (hs : state) (block : list byte) : state :=
  let '(a, b, c, d, e, f, g, h) := hs in
  let '((a', b', c', d', e', f', g', h'), _) :=
    fold_left round K256 (hs, words block) in
  (add32 a a', add32 b b', add32 c c', add32 d d',
   add32 e e', add32 f f', add32 g g', add32 h h').

Definition digest_bytes (hs : state) : list byte :=
  let '(a, b, c, d, e, f, g, h) := hs in
  be32 a ++ be32 b ++ be32 c ++ be32 d ++ be32 e ++ be32 f ++ be32 g ++ be32 h.

Definition sha256 (msg : list byte) : list byte :=
  digest_bytes (fold_left compress (chunks 64 (pad msg)) H0).

End SHA256.

(* ------------------------------------------------------------------------- *)
(** ** HMAC-SHA256 (RFC 2104): [hmac.new(key, msg, hashlib.sha256).digest()] *)

Module HMAC.

Definition block_size : nat := 64.

(** The key as one block: hashed when longer than a block, then filled up
    with zero bytes. *)
Definition key_block (key : list byte) : list byte :=
  let k := if block_size <? length key then SHA256.sha256 key else key in
  k ++ repeat x00 (block_size - length k).

Definition hmac_block (k0 msg : list byte) : list byte :=
  SHA256.sha256 (map (byte_xor "\"%byte) k0
                 ++ SHA256.sha256 (map (byte_xor "6"%byte) k0 ++ msg)).

Definition hmac_sha256 (key msg : list byte) : list byte :=
  hmac_block (key_block key) msg.

(** [hmac.compare_digest(a, b)] on bytes. *)
Definition compare_digest (a b : list byte) : bool := bytes_eqb a b.

End HMAC.

(* ------------------------------------------------------------------------- *)
(** ** PBKDF2 with HMAC-SHA256 (RFC 8018): [PBKDF2HMAC(...).derive(...)] *)

Module PBKDF2.

Definition hLen : nat := 32.

(** One more iteration: U(j+1) = PRF(P, U(j)), and the running xor. *)
Definition F_step (P : list byte) (ut : list byte * list byte)
  : list byte * list byte :=
  let u' := HMAC.hmac_sha256 P (fst ut) in (u', xor_bytes (snd ut) u').

Definition F (P S : list byte) (c : N) (i : Z) : list byte :=
  let u1 := HMAC.hmac_sha256 P (S ++ be32 i) in
  snd (N.iter (c - 1) (F_step P) (u1, u1)).

Definition block_indices (dkLen : nat) : list Z :=
  map (fun i => Z.of_nat (S i)) (seq 0 ((dkLen + hLen - 1) / hLen)).

(** [PBKDF2HMAC(algorithm=hashes.SHA256(), length, salt, iterations)
    .derive(key_material)] *)
Definition PBKDF2HMAC_derive (length : nat) (salt : list byte) (iterations : N)
           (key_material : list byte) : result (list byte) :=
  if (Z.of_nat hLen * (2 ^ 32 - 1) <? Z.of_nat length)%Z
  then raise ValueError "derived key too long"
  else Ok (firstn length
             (concat (map (F key_material salt iterations) (block_indices length)))).

End PBKDF2.

(* ------------------------------------------------------------------------- *)
(** ** AES (FIPS 197) and the CFB mode with full-block feedback
       (NIST SP 800-38A): [Cipher(algorithms.AES(key), modes.CFB(iv))] *)

Module AES.
Local Open Scope Z_scope.

(** Arithmetic of GF(2^8) modulo x^8 + x^4 + x^3 + x + 1. *)
Definition xtime (a : Z) : Z :=
  let b := Z.shiftl a 1 in
  if Z.testbit a 7 then Z.lxor (b mod 256) 27 else b.

Fixpoint gmul_bits (bits : nat) (a b : Z) : Z :=
  match bits with
  | O => 0
  | S n => Z.lxor (if Z.odd b then a else 0) (gmul_bits n (xtime a) (Z.shiftr b 1))
  end.
Definition gmul (a b : Z) : Z := gmul_bits 8 a b.

Definition gsquare (a : Z) : Z := gmul a a.

(** The multiplicative inverse (and 0 for 0) is the 254th power. *)
Definition ginv (a : Z) : Z :=
  let a2 := gsquare a in let a4 := gsquare a2 in let a8 := gsquare a4 in
  let a16 := gsquare a8 in let a32 := gsquare a16 in let a64 := gsquare a32 in
  let a128 := gsquare a64 in
  gmul a128 (gmul a64 (gmul a32 (gmul a16 (gmul a8 (gmul a4 a2))))).

Definition rotl8 (x n : Z) : Z :=
  (Z.lor (Z.shiftl x n) (Z.shiftr x (8 - n))) mod 256.

Definition sbox_of (a : Z) : Z :=
  let b := ginv a in
  Z.lxor (Z.lxor (Z.lxor (Z.lxor (Z.lxor b (rotl8 b 1)) (rotl8 b 2)) (rotl8 b 3))
                 (rotl8 b 4)) 99.

Definition sbox_table : list Z :=
  Eval vm_compute in map (fun i => sbox_of (Z.of_nat i)) (seq 0 256).

Definition sbox (a : Z) : Z := nth (Z.to_nat a) sbox_table 0.

(** Words of the key schedule are 32-bit integers, most significant byte
    first. *)
Definition SubWord (w : Z) : Z :=
  Z.lor (Z.lor (Z.lor (Z.shiftl (sbox (Z.shiftr w 24 mod 256)) 24)
                      (Z.shiftl (sbox (Z.shiftr w 16 mod 256)) 16))
               (Z.shiftl (sbox (Z.shiftr w 8 mod 256)) 8))
        (sbox (w mod 256)).

Definition RotWord (w : Z) : Z :=
  (Z.lor (Z.shiftl w 8) (Z.shiftr w 24)) mod 2 ^ 32.

Fixpoint Rcon (i : nat) : Z :=
  match i with
  | O => 0
  | 1%nat => 1
  | S j => xtime (Rcon j)
  end.

Definition expand_step (Nk : nat) (ws : list Z) (i : nat) : list Z :=
  let temp := nth (i - 1) ws 0 in
  let temp :=
    if (i mod Nk =? 0)%nat
    then Z.lxor (SubWord (RotWord temp)) (Z.shiftl (Rcon (i / Nk)) 24)
    else if (6 <? Nk)%nat && (i mod Nk =? 4)%nat then SubWord temp
    else temp in
  ws ++ [Z.lxor (nth (i - Nk) ws 0) temp].

(** [KeyExpansion]: 4 * (Nr + 1) words, Nr = Nk + 6. *)
Definition KeyExpansion (key : list byte) : list Z :=
  let Nk := (length key / 4)%nat in
  fold_left (expand_step Nk) (seq Nk (4 * (Nk + 7) - Nk)) (map from_be (chunks 4 key)).

(** The sixteen bytes of round key [r]. *)
Definition round_key (ws : list Z) (r : nat) : list Z :=
  flat_map (fun c => let w := nth (4 * r + c) ws 0 in
                     [Z.shiftr w 24 mod 256; Z.shiftr w 16 mod 256;
                      Z.shiftr w 8 mod 256; w mod 256])
           (seq 0 4).

(** The state is the list of its sixteen bytes, column after column. *)
Definition AddRoundKey (rk st : list Z) : list Z :=
  map (fun i => Z.lxor (nth i st 0) (nth i rk 0)) (seq 0 16).

Definition SubBytes (st : list Z) : list Z := map sbox st.

Definition ShiftRows (st : list Z) : list Z :=
  map (fun i => let r := (i mod 4)%nat in let c := (i / 4)%nat in
                nth (r + 4 * ((c + r) mod 4))%nat st 0)
      (seq 0 16).

Definition MixColumns (st : list Z) : list Z :=
  flat_map (fun c =>
    let s0 := nth (4 * c) st 0 in let s1 := nth (4 * c + 1) st 0 in
    let s2 := nth (4 * c + 2) st 0 in let s3 := nth (4 * c + 3) st 0 in
    [ Z.lxor (Z.lxor (Z.lxor (gmul 2 s0) (gmul 3 s1)) s2) s3;
      Z.lxor (Z.lxor (Z.lxor s0 (gmul 2 s1)) (gmul 3 s2)) s3;
      Z.lxor (Z.lxor (Z.lxor s0 s1) (gmul 2 s2)) (gmul 3 s3);
      Z.lxor (Z.lxor (Z.lxor (gmul 3 s0) s1) s2) (gmul 2 s3) ])
    (seq 0 4).

Definition middle_round (ws : list Z) (st : list Z) (r : nat) : list Z :=
  AddRoundKey (round_key ws r) (MixColumns (ShiftRows (SubBytes st))).

(** [Cipher]: the forward transformation of one block under [key]. *)
Definition encrypt_block (key block : list byte) : list byte :=
  let ws := KeyExpansion key in
  let Nr := (length key / 4 + 6)%nat in
  let st := AddRoundKey (round_key ws 0) (map Z_of_byte block) in
  let st := fold_left (middle_round ws) (seq 1 (Nr - 1)) st in
  map byte_of_Z (AddRoundKey (round_key ws Nr) (ShiftRows (SubBytes st))).

End AES.

Module CFB.

Fixpoint encrypt_blocks (key prev : list byte) (blocks : list (list byte))
  : list byte :=
  match blocks with
  | [] => []
  | p :: rest =>
      let c := xor_bytes p (AES.encrypt_block key prev) in
      c ++ encrypt_blocks key c rest
  end.

Fixpoint decrypt_blocks (key prev : list byte) (blocks : list (list byte))
  : list byte :=
  match blocks with
  | [] => []
  | c :: rest =>
      xor_bytes c (AES.encrypt_block key prev) ++ decrypt_blocks key c rest
  end.

(** [Cipher(algorithms.AES(key), modes.CFB(iv))]: the constructors check
    the key and the initialisation vector sizes. *)
Definition Cipher (key iv : list byte) : result (list byte * list byte) :=
  if negb ((length key =? 16) || (length key =? 24) || (length key =? 32))
  then raise ValueError "Invalid key size for AES."
  else if negb (length iv =? 16)
  then raise ValueError "Invalid IV size for CFB."
  else Ok (key, iv).

(** [encryptor.update(data) + encryptor.finalize()] *)
Definition encryptor_run (cipher : list byte * list byte) (data : list byte)
  : list byte :=
  encrypt_blocks (fst cipher) (snd cipher) (chunks 16 data).

(** [decryptor.update(data) + decryptor.finalize()] *)
Definition decryptor_run (cipher : list byte * list byte) (data : list byte)
  : list byte :=
  decrypt_blocks (fst cipher) (snd cipher) (chunks 16 data).

End CFB.

(* ------------------------------------------------------------------------- *)
(** ** State and exceptions *)

(** A computation over a state [S] that may raise.  As in Python, the state
    reached when the exception is raised is kept: nothing is rolled back. *)
Definition M (S A : Type) : Type := S -> result A * S.

#[global] Instance M_ret {S} : MRet (M S) := fun A a s => (Ok a, s).
#[global] Instance M_bind {S} : MBind (M S) := fun A B k m s =>
  match m s with
  | (Ok a, s') => k a s'
  | (Raise e, s') => (Raise e, s')
  end.

Definition lift {S A} (r : result A) : M S A := fun s => (r, s).
Definition throw {S A} (c : exn_class) (msg : string) : M S A := lift (raise c msg).
Definition get_state {S} : M S S := fun s => (Ok s, s).
Definition modify {S} (f : S -> S) : M S unit := fun s => (Ok tt, f s).

Definition try_exceptM {S A} (m : M S A) (h : exn -> M S A) : M S A := fun s =>
  match m s with
  | (Ok a, s') => (Ok a, s')
  | (Raise e, s') => h e s'
  end.

(** [os.urandom]: the operating system's entropy, as the infinite sequence of
    the bytes it is going to deliver. *)
Definition entropy : Type := nat -> byte.

Definition os_urandom (n : nat) : M entropy (list byte) := fun e =>
  (Ok (map e (seq 0 n)), fun i => e (n + i)).

(* ------------------------------------------------------------------------- *)
(** ** backend/keymanager/crypto_utils.py *)

Module crypto_utils.

(** [password.encode()] *)
Definition encode (s : string) : list byte := list_byte_of_string s.

Definition derive_key (password : string) (salt : list byte) (length : nat)
  : result (list byte) :=
  try_except
    (PBKDF2.PBKDF2HMAC_derive length salt 390000 (encode password))
    (fun e => raise CryptoError ("KDF key derivation failed: " +:+ exn_msg e)).

(** The local variables of [aes_encrypt] at its [return]. *)
Record encrypt_locals := {
  l_salt : list byte;
  l_key : list byte;
  l_hmac_key : list byte;
  l_iv : list byte;
  l_ciphertext : list byte;
  l_mac : list byte
}.

(** The body of the [try] of [aes_encrypt], up to the [return]. *)
Definition aes_encrypt_body (data : list byte) (password : string)
  : M entropy encrypt_locals :=
  salt ← os_urandom 16;
  key ← lift (derive_key password salt 32);
  hmac_key ← lift (derive_key password salt 32);
  iv ← os_urandom 16;
  cipher ← lift (CFB.Cipher key iv);
  let ciphertext := CFB.encryptor_run cipher data in
  let mac := HMAC.hmac_sha256 hmac_key (salt ++ iv ++ ciphertext) in
  mret {| l_salt := salt; l_key := key; l_hmac_key := hmac_key; l_iv := iv;
          l_ciphertext := ciphertext; l_mac := mac |}.

Definition blob_of (l : encrypt_locals) : list byte :=
  l_salt l ++ l_iv l ++ l_ciphertext l ++ l_mac l.

Definition aes_encrypt (data : list byte) (password : string)
  : M entropy (list byte) :=
  try_exceptM
    (l ← aes_encrypt_body data password;
     mret (Base64.b64encode (blob_of l)))
    (fun e => throw CryptoError ("AES encrypt failed: " +:+ exn_msg e)).

Definition aes_decrypt (enc_data : list byte) (password : string)
  : result (list byte) :=
  raw ← try_except (Base64.b64decode enc_data)
        (fun _ => raise CryptoError "Base64 decode failed (corrupted keystore).");
  if length raw <? 16 + 16 + 32
  then raise CryptoError "Encrypted data too short or invalid."
  else
    try_except
      (let salt := py_slice raw None (Some 16%Z) in
       let iv := py_slice raw (Some 16%Z) (Some 32%Z) in
       let ciphertext := py_slice raw (Some 32%Z) (Some (-32)%Z) in
       let mac := py_slice raw (Some (-32)%Z) None in
       key ← derive_key password salt 32;
       hmac_key ← derive_key password salt 32;
       let real_mac := HMAC.hmac_sha256 hmac_key (salt ++ iv ++ ciphertext) in
       if negb (HMAC.compare_digest mac real_mac)
       then raise HMACVerificationFailed
              "HMAC check failed — data integrity violation."
       else
         cipher ← CFB.Cipher key iv;
         mret (CFB.decryptor_run cipher ciphertext))
      (fun e =>
         if issubclass (exn_cls e) HMACVerificationFailed then Raise e
         else raise WrongPassword "Wrong password or corrupted keystore.").

End crypto_utils.

(* ------------------------------------------------------------------------- *)
(** ** backend/account.py: building a user operation *)

Module account.
Local Open Scope Z_scope.

(** Big-endian digits, least significant byte last. *)
Fixpoint to_be (len : nat) (n : Z) : list byte :=
  match len with
  | O => []
  | S l => to_be l (n / 256) ++ [byte_of_Z n]
  end.

(** [n.to_bytes(length, 'big')], unsigned. *)
Definition to_bytes (n : Z) (length : nat) : result (list byte) :=
  if n <? 0 then raise OverflowError "can't convert negative int to unsigned"
  else if 2 ^ (8 * Z.of_nat length) <=? n
  then raise OverflowError "int too big to convert"
  else Ok (to_be length n).

(** What the node answers when the builder asks it: [self.get_nonce()] and
    [self._get_gas_prices()], the latter as the pair ([maxFeePerGas],
    [maxPriorityFeePerGas]). *)
Record rpc := {
  rpc_get_nonce : result Z;
  rpc_get_gas_prices : result (Z * Z)
}.

Record Account := {
  network_name : string;
  contract_address : string
}.

(** The dict that [build_user_operation] returns. *)
Record UserOperation := {
  sender : string;
  nonce : Z;
  initCode : list byte;
  callData : list byte;
  accountGasLimits : list byte;
  preVerificationGas : Z;
  gasFees : list byte;
  paymasterAndData : list byte;
  signature : list byte
}.

(** [x or d] for an optional integer: [None] and [0] are both falsy. *)
Definition py_or (x : option Z) (d : Z) : Z :=
  match x with
  | Some v => if v =? 0 then d else v
  | None => d
  end.

Definition default_call_gas_limit : Z := 100000.
Definition default_verification_gas_limit : Z := 150000.
Definition default_pre_verification_gas : Z := 21000.

Definition build_user_operation (self : Account) (node : rpc)
    (call_data : list byte)
    (nonce max_fee_per_gas max_priority_fee_per_gas : option Z)
    (call_gas_limit verification_gas_limit pre_verification_gas : Z)
    (paymaster_and_data signature : list byte) : result UserOperation :=
  nonce ← match nonce with
          | None => rpc_get_nonce node
          | Some n => Ok n
          end;
  fees ← match max_fee_per_gas, max_priority_fee_per_gas with
         | Some f, Some p => Ok (f, p)
         | _, _ =>
             gas_price_data ← rpc_get_gas_prices node;
             mret (py_or max_fee_per_gas (fst gas_price_data),
                   py_or max_priority_fee_per_gas (snd gas_price_data))
         end;
  let max_fee_per_gas := fst fees in
  let max_priority_fee_per_gas := snd fees in
  let account_gas_limits := Z.lor (Z.shiftl verification_gas_limit 128) call_gas_limit in
  let gas_fees := Z.lor (Z.shiftl max_priority_fee_per_gas 128) max_fee_per_gas in
  agl ← to_bytes account_gas_limits 32;
  gf ← to_bytes gas_fees 32;
  mret {| sender := contract_address self;
          nonce := nonce;
          initCode := [];
          callData := call_data;
          accountGasLimits := agl;
          preVerificationGas := pre_verification_gas;
          gasFees := gf;
          paymasterAndData := paymaster_and_data;
          signature := signature |}.

(** Reading a packed field back: the upper and the lower sixteen bytes. *)
Definition unpack (field : list byte) : Z * Z :=
  (from_be (firstn 16 field), from_be (skipn 16 field)).

End account.

(* ------------------------------------------------------------------------- *)
(** ** backend/keymanager/keyManager.py *)

(** [bytes.fromhex]: pairs of hexadecimal digits, ASCII white space allowed
    between the pairs. *)
Module Hex.

Definition digit_value (c : byte) : option N :=
  let n := Byte.to_N c in
  if (48 <=? n)%N && (n <=? 57)%N then Some (n - 48)%N
  else if (97 <=? n)%N && (n <=? 102)%N then Some (n - 87)%N
  else if (65 <=? n)%N && (n <=? 70)%N then Some (n - 55)%N
  else None.

Definition is_space (c : byte) : bool :=
  let n := Byte.to_N c in ((9 <=? n)%N && (n <=? 13)%N) || (n =? 32)%N.

Fixpoint fromhex_bytes (s : list byte) : result (list byte) :=
  match s with
  | [] => Ok []
  | c :: s1 =>
      if is_space c then fromhex_bytes s1
      else
        match digit_value c, s1 with
        | Some top, d :: s2 =>
            match digit_value d with
            | Some bot => Base64.emit (byte_of_N (16 * top + bot)) (fromhex_bytes s2)
            | None => raise ValueError "non-hexadecimal number found in fromhex() arg"
            end
        | _, _ => raise ValueError "non-hexadecimal number found in fromhex() arg"
        end
  end.

Definition fromhex (s : string) : result (list byte) :=
  fromhex_bytes (list_byte_of_string s).

(** [s.replace("0x", "")] *)
Fixpoint remove_0x (s : string) : string :=
  match s with
  | EmptyString => EmptyString
  | String a s1 =>
      match s1 with
      | String b s2 =>
          if Ascii.eqb a "0" && Ascii.eqb b "x" then remove_0x s2
          else String a (remove_0x s1)
      | EmptyString => s
      end
  end.

End Hex.

Module keyManager.

(** [eth_account.signers.local.LocalAccount] *)
Record LocalAccount := { acct_key : list byte; acct_address : string }.

(** [eth_account.datastructures.SignedMessage] *)
Record SignedMessage := {
  message_hash : list byte;
  sig_r : Z;
  sig_s : Z;
  sig_v : Z;
  sig_signature : list byte
}.

Record KeyManager := {
  storage_path : string;
  _private_key : option (list byte);
  address : option string;
  unlocked : bool
}.

(** The key manager object together with what its methods act upon: the
    files (by path), which paths can be written, and the entropy source. *)
Record world := {
  self : KeyManager;
  files : gmap string (list byte);
  writable : string -> bool;
  rng : entropy
}.

Definition set_self (f : KeyManager -> KeyManager) (w : world) : world :=
  {| self := f (self w); files := files w; writable := writable w; rng := rng w |}.

Definition set_files (f : gmap string (list byte) -> gmap string (list byte))
           (w : world) : world :=
  {| self := self w; files := f (files w); writable := writable w; rng := rng w |}.

Definition set_private_key (k : option (list byte)) (km : KeyManager) : KeyManager :=
  {| storage_path := storage_path km; _private_key := k;
     address := address km; unlocked := unlocked km |}.

Definition set_address (a : option string) (km : KeyManager) : KeyManager :=
  {| storage_path := storage_path km; _private_key := _private_key km;
     address := a; unlocked := unlocked km |}.

Definition set_unlocked (u : bool) (km : KeyManager) : KeyManager :=
  {| storage_path := storage_path km; _private_key := _private_key km;
     address := address km; unlocked := u |}.

(** Running a computation on the entropy source inside the world. *)
Definition with_rng {A} (m : M entropy A) : M world A := fun w =>
  let '(r, e) := m (rng w) in
  (r, {| self := self w; files := files w; writable := writable w; rng := e |}).

(** [os.path.exists(path)] *)
Definition os_path_exists (path : string) : M world bool := fun w =>
  (Ok (bool_decide (is_Some (files w !! path))), w).

(** [open(path, "rb").read()] *)
Definition read_file (path : string) : M world (list byte) := fun w =>
  match files w !! path with
  | Some data => (Ok data, w)
  | None => (raise FileNotFoundError "No such file or directory", w)
  end.

(** [with open(path, "wb") as f: f.write(data)] *)
Definition write_file (path : string) (data : list byte) : M world unit := fun w =>
  if writable w path then (Ok tt, set_files (insert path data) w)
  else (raise OSError "cannot open file for writing", w).

(** [KeyManager(storage_path)] *)
Definition init (path : string) : KeyManager :=
  {| storage_path := path; _private_key := None; address := None; unlocked := false |}.

(** The three [except] clauses shared by [unlock] and [import_keystore]. *)
Definition reraise {A} (wrong tampered other : string) (e : exn) : M world A :=
  if issubclass (exn_cls e) WrongPassword then throw WrongPassword wrong
  else if issubclass (exn_cls e) HMACVerificationFailed
  then throw HMACVerificationFailed tampered
  else throw CryptoError (other +:+ exn_msg e).

(** The signing library ([eth_account], [eth_keys], [eth_utils]) enters
    through its primitives: the Keccak-256 hash, which 32-byte scalars the
    curve accepts as private keys, the address of a key, the recoverable
    ECDSA signature (parity of the recovery id, r, s) and the transaction
    signer over its dictionaries. *)
Class EthAccount := {
  keccak : list byte -> list byte;
  scalar_ok : list byte -> bool;
  address_of : list byte -> string;
  ecdsa_sign : list byte -> list byte -> bool * Z * Z;
  tx_dict : Type;
  signed_tx : Type;
  sign_transaction_dict : list byte -> tx_dict -> result signed_tx
}.

(** What the library guarantees of them: digests of 32 bytes, and signature
    components below 2^256. *)
Class EthAccountLaws (lib : EthAccount) : Prop := {
  keccak_length : forall msg, length (keccak msg) = 32;
  ecdsa_sign_range : forall key hash,
    let '(_, r, s) := ecdsa_sign key hash in
    (0 <= r < 2 ^ 256)%Z /\ (0 <= s < 2 ^ 256)%Z
}.

Section Methods.

Context {lib : EthAccount}.

(** [Account.from_key(key)]: the key must be 32 bytes and a scalar the
    curve accepts; [ValueError] otherwise. *)
Definition from_key (key : list byte) : result LocalAccount :=
  if negb (length key =? 32)
  then raise ValueError
         ("The private key must be exactly 32 bytes long, instead of "
          +:+ pretty (length key) +:+ " bytes.")
  else if negb (scalar_ok key)
  then raise ValueError "The private key is not a valid secp256k1 scalar"
  else Ok {| acct_key := key; acct_address := address_of key |}.

(** [Account.create()]: the hash of fresh entropy as the key. *)
Definition Account_create : M world LocalAccount :=
  r ← with_rng (os_urandom 32);
  lift (from_key (keccak r)).

(** [int_to_big_endian]: the shortest big-endian form, at least a byte. *)
Definition int_to_big_endian (v : Z) : list byte :=
  account.to_be (Z.to_nat (Z.max 1 ((Z.log2 v + 8) / 8))) v.

(** [to_bytes32]: padded with zero bytes on the left to 32 bytes. *)
Definition to_bytes32 (v : Z) : list byte :=
  let b := int_to_big_endian v in repeat x00 (32 - length b) ++ b.

(** [Account._sign_hash(message_hash, private_key)] *)
Definition sign_hash (acct : LocalAccount) (hash : list byte) : result SignedMessage :=
  if negb (length hash =? 32)
  then raise ValueError "The message hash must be exactly 32-bytes"
  else
    let '(parity, r, s) := ecdsa_sign (acct_key acct) hash in
    let v := (27 + (if parity then 1 else 0))%Z in
    Ok {| message_hash := hash; sig_r := r; sig_s := s; sig_v := v;
          sig_signature := to_bytes32 r ++ to_bytes32 s ++ int_to_big_endian v |}.

(** [encode_defunct(message)] and its hash: the personal-message prefix,
    the decimal length, the message. *)
Definition defunct_hash (message : list byte) : list byte :=
  keccak ("025"%byte :: list_byte_of_string "Ethereum Signed Message:"
          ++ "010"%byte :: list_byte_of_string (pretty (length message))
          ++ message).

Definition acct_sign_message (acct : LocalAccount) (message : list byte)
  : result SignedMessage :=
  sign_hash acct (defunct_hash message).

Definition create_new_key (password : string) : M world string :=
  try_exceptM
    (acct ← Account_create;
     encrypted ← with_rng (crypto_utils.aes_encrypt (acct_key acct) password);
     w ← get_state;
     _ ← write_file (storage_path (self w)) encrypted;
     _ ← modify (set_self (set_address (Some (acct_address acct))));
     mret (acct_address acct))
    (fun e => throw CryptoError ("Create key failed: " +:+ exn_msg e)).

Definition import_private_key (private_key_hex password : string) : M world string :=
  try_exceptM
    (private_key_bytes ← lift (Hex.fromhex (Hex.remove_0x private_key_hex));
     encrypted ← with_rng (crypto_utils.aes_encrypt private_key_bytes password);
     w ← get_state;
     _ ← write_file (storage_path (self w)) encrypted;
     acct ← lift (from_key private_key_bytes);
     _ ← modify (set_self (set_address (Some (acct_address acct))));
     mret (acct_address acct))
    (fun e => throw CryptoError ("Import private key failed: " +:+ exn_msg e)).

Definition unlock (password : string) : M world string :=
  w ← get_state;
  found ← os_path_exists (storage_path (self w));
  if negb found then throw FileNotFoundError "Keystore not found."
  else
    private_key_bytes ←
      try_exceptM
        (data ← read_file (storage_path (self w));
         lift (crypto_utils.aes_decrypt data password))
        (reraise "Incorrect password."
                 "Keystore integrity check failed — file tampered."
                 "Unlock failed: ");
    _ ← modify (set_self (set_private_key (Some private_key_bytes)));
    acct ← lift (from_key private_key_bytes);
    _ ← modify (set_self (set_address (Some (acct_address acct))));
    _ ← modify (set_self (set_unlocked true));
    mret (acct_address acct).

Definition lock : M world unit :=
  _ ← modify (set_self (set_private_key None));
  modify (set_self (set_unlocked false)).

Definition export_keystore (dest_path : string) : M world unit :=
  w ← get_state;
  found ← os_path_exists (storage_path (self w));
  if negb found then throw FileNotFoundError "Keystore not found."
  else
    try_exceptM
      (data ← read_file (storage_path (self w));
       write_file dest_path data)
      (fun e => throw CryptoError ("Export keystore failed: " +:+ exn_msg e)).

Definition import_keystore (src_path password : string) : M world string :=
  try_exceptM
    (data ← read_file src_path;
     private_key ← lift (crypto_utils.aes_decrypt data password);
     acct ← lift (from_key private_key);
     w ← get_state;
     _ ← write_file (storage_path (self w)) data;
     _ ← modify (set_self (set_address (Some (acct_address acct))));
     mret (acct_address acct))
    (reraise "Incorrect password." "Keystore has been tampered."
             "Import keystore failed: ").

(** The key held by the object, as [Account.from_key] receives it;
    [None] is not a key. *)
Definition from_resident_key (km : KeyManager) : result LocalAccount :=
  match _private_key km with
  | Some k => from_key k
  | None => raise ValueError "Unsupported private key type"
  end.

Definition sign_message (message : list byte) : M world SignedMessage :=
  w ← get_state;
  if negb (unlocked (self w)) then throw PermissionError "Wallet is locked."
  else
    try_exceptM
      (acct ← lift (from_resident_key (self w));
       lift (acct_sign_message acct message))
      (fun e => throw CryptoError ("Sign message failed: " +:+ exn_msg e)).

Definition sign_transaction (tx : tx_dict) : M world signed_tx :=
  w ← get_state;
  if negb (unlocked (self w)) then throw PermissionError "Wallet is locked."
  else
    try_exceptM
      (acct ← lift (from_resident_key (self w));
       lift (sign_transaction_dict (acct_key acct) tx))
      (fun e => throw CryptoError ("Sign transaction failed: " +:+ exn_msg e)).

Definition sign_userop (userop_hash : list byte) : M world (list byte) :=
  w ← get_state;
  if negb (unlocked (self w)) then throw PermissionError "Wallet is locked."
  else
    try_exceptM
      (acct ← lift (from_resident_key (self w));
       signed ← lift (sign_hash acct userop_hash);
       mret (sig_signature signed))
      (fun e => throw CryptoError ("Sign UserOperation failed: " +:+ exn_msg e)).

Definition get_address : M world (option string) :=
  w ← get_state; mret (address (self w)).

(** A call of one of the methods. *)
Inductive call :=
| CreateNewKey (password : string)
| ImportPrivateKey (private_key_hex password : string)
| Unlock (password : string)
| Lock
| ExportKeystore (dest_path : string)
| ImportKeystore (src_path password : string)
| SignMessage (message : list byte)
| SignTransaction (tx : tx_dict)
| SignUserop (userop_hash : list byte)
| GetAddress.

(** The world after the call, whether it returned or raised. *)
Definition after (c : call) (w : world) : world :=
  match c with
  | CreateNewKey p => snd (create_new_key p w)
  | ImportPrivateKey h p => snd (import_private_key h p w)
  | Unlock p => snd (unlock p w)
  | Lock => snd (lock w)
  | ExportKeystore d => snd (export_keystore d w)
  | ImportKeystore s p => snd (import_keystore s p w)
  | SignMessage m => snd (sign_message m w)
  | SignTransaction t => snd (sign_transaction t w)
  | SignUserop h => snd (sign_userop h w)
  | GetAddress => snd (get_address w)
  end.



End Methods.

End keyManager.

(* ------------------------------------------------------------------------- *)
(** ** [bytes.hex()] *)

(** The lower-case hexadecimal text of a byte string, two digits a byte, as
    the callers of [import_private_key] make it from a key. *)
Module HexText.

Definition hexdigit (n : N) : ascii :=
  nth (N.to_nat n) (list_ascii_of_string "0123456789abcdef") "0"%char.

Fixpoint hex (b : list byte) : string :=
  match b with
  | [] => EmptyString
  | x :: rest =>
      String (hexdigit (Byte.to_N x / 16))
        (String (hexdigit (Byte.to_N x mod 16)) (hex rest))
  end.

End HexText.

(* ------------------------------------------------------------------------- *)
(** ** backend/account.py: the other methods of [Account] *)

Module account_methods.
Local Open Scope Z_scope.

(** The attributes of an [Account] object.  [_w3] is the connection that the
    property [w3] makes at its first use. *)
Record Account (Web3 : Type) := {
  network_name : string;
  contract_address : string;
  owners : list string;
  threshold : Z;
  guardians : list string;
  guardian_threshold : Z;
  bundler_url : option string;
  paymaster_url : option string;
  _custom_rpc_url : option string;
  _w3 : option Web3
}.
Arguments network_name {Web3} _.
Arguments contract_address {Web3} _.
Arguments owners {Web3} _.
Arguments threshold {Web3} _.
Arguments guardians {Web3} _.
Arguments guardian_threshold {Web3} _.
Arguments bundler_url {Web3} _.
Arguments paymaster_url {Web3} _.
Arguments _custom_rpc_url {Web3} _.
Arguments _w3 {Web3} _.

(** The dict of [to_dict]: the keyword arguments that [from_dict] hands to
    the constructor.  There is no key for the custom RPC URL. *)
Record AccountDict := {
  d_network_name : string;
  d_contract_address : string;
  d_owners : list string;
  d_threshold : Z;
  d_guardians : list string;
  d_guardian_threshold : Z;
  d_bundler_url : option string;
  d_paymaster_url : option string
}.

(** What the methods call outside the file: [eth_utils.to_checksum_address],
    the [Config] singleton, the JSON-RPC node behind a [Web3] object, and
    [Web3.keccak].  A call on the node is given by its outcome. *)
Class Node := {
  to_checksum_address : string -> result string;
  Config : Type;
  Config_new : result Config;                          (* Config() *)
  get_rpc_url : Config -> string -> result string;
  get_entry_point : Config -> string -> result (option string);
  Web3 : Type;
  HTTPProvider : string -> Web3;                       (* Web3(Web3.HTTPProvider(url)) *)
  is_connected : Web3 -> bool;
  get_block_latest : Web3 -> result (option Z);        (* get_block('latest'), its baseFeePerGas *)
  max_priority_fee : Web3 -> result Z;
  gas_price : Web3 -> result Z;
  keccak : list byte -> list byte
}.

(** [to_wei(1.5, 'gwei')] and [to_wei(2, 'gwei')] *)
Definition to_wei_1_5_gwei : Z := 1500000000.
Definition to_wei_2_gwei : Z := 2000000000.

(** Truth value of an optional string: [None] and the empty string are
    false. *)
Definition truthy (s : option string) : bool :=
  match s with
  | Some (String _ _) => true
  | _ => false
  end.

(** [[f(x) for x in l]], stopping at the first exception. *)
Fixpoint map_result {A B} (f : A -> result B) (l : list A) : result (list B) :=
  match l with
  | [] => Ok []
  | x :: rest => y ← f x; ys ← map_result f rest; Ok (y :: ys)
  end.

Section Methods.

Context {node : Node}.

Definition _validate_config (self : Account Web3) : result unit :=
  if (threshold self <=? 0) || (Z.of_nat (length (owners self)) <? threshold self)
  then raise ValueError
         ("Invalid threshold: " +:+ pretty (threshold self) +:+ " for "
          +:+ pretty (length (owners self)) +:+ " owners")
  else if negb (bool_decide (guardians self = [])) &&
          ((guardian_threshold self <=? 0) ||
           (Z.of_nat (length (guardians self)) <? guardian_threshold self))
  then raise ValueError
         ("Invalid guardian threshold: " +:+ pretty (guardian_threshold self))
  else if bool_decide (guardians self = []) && (0 <? guardian_threshold self)
  then raise ValueError "Guardian threshold must be 0 when no guardians"
  else Ok tt.

(** [Account(network_name, contract_address, owners, threshold, guardians,
    guardian_threshold, bundler_url, paymaster_url, rpc_url)] *)
Definition __init__ (network_name contract_address : string) (owners : list string)
    (threshold : Z) (guardians : option (list string)) (guardian_threshold : Z)
    (bundler_url paymaster_url rpc_url : option string) : result (Account Web3) :=
  contract_address ← to_checksum_address contract_address;
  owners ← map_result to_checksum_address owners;
  guardians ← match guardians with
              | Some (g :: gs) => map_result to_checksum_address (g :: gs)
              | _ => Ok []
              end;
  let self := {| network_name := network_name;
                 contract_address := contract_address;
                 owners := owners;
                 threshold := threshold;
                 guardians := guardians;
                 guardian_threshold := guardian_threshold;
                 bundler_url := bundler_url;
                 paymaster_url := paymaster_url;
                 _custom_rpc_url := rpc_url;
                 _w3 := None |} in
  _ ← _validate_config self;
  Ok self.

Definition to_dict (self : Account Web3) : AccountDict :=
  {| d_network_name := network_name self;
     d_contract_address := contract_address self;
     d_owners := owners self;
     d_threshold := threshold self;
     d_guardians := guardians self;
     d_guardian_threshold := guardian_threshold self;
     d_bundler_url := bundler_url self;
     d_paymaster_url := paymaster_url self |}.

(** [from_dict]: the class called with the entries of [data] as keyword
    arguments. *)
Definition from_dict (data : AccountDict) : result (Account Web3) :=
  __init__ (d_network_name data) (d_contract_address data) (d_owners data)
    (d_threshold data) (Some (d_guardians data)) (d_guardian_threshold data)
    (d_bundler_url data) (d_paymaster_url data) None.

Definition set_w3 (w : option Web3) (self : Account Web3) : Account Web3 :=
  {| network_name := network_name self;
     contract_address := contract_address self;
     owners := owners self;
     threshold := threshold self;
     guardians := guardians self;
     guardian_threshold := guardian_threshold self;
     bundler_url := bundler_url self;
     paymaster_url := paymaster_url self;
     _custom_rpc_url := _custom_rpc_url self;
     _w3 := w |}.

(** The property [w3]: the connection is made, and kept, before it is
    tested. *)
Definition w3 : M (Account Web3) Web3 :=
  self ← get_state;
  match _w3 self with
  | Some w => mret w
  | None =>
      config ← lift Config_new;
      rpc_url ← (if truthy (_custom_rpc_url self)
                 then mret (default "" (_custom_rpc_url self))
                 else lift (get_rpc_url config (network_name self)));
      _ ← modify (set_w3 (Some (HTTPProvider rpc_url)));
      if negb (is_connected (HTTPProvider rpc_url))
      then throw ConnectionError ("Cannot connect to RPC: " +:+ rpc_url)
      else mret (HTTPProvider rpc_url)
  end.

(** [_get_gas_prices], as the pair ([maxFeePerGas], [maxPriorityFeePerGas]). *)
Definition _get_gas_prices : M (Account Web3) (Z * Z) :=
  try_exceptM
    (w ← w3;
     latest_block ← lift (get_block_latest w);
     let base_fee := default 0 latest_block in
     if 0 <? base_fee
     then
       max_priority_fee ←
         try_exceptM
           (w ← w3; lift (max_priority_fee w))
           (fun _ => _ ← w3; mret to_wei_1_5_gwei);
       let max_fee := base_fee * 2 + max_priority_fee in
       mret (max_fee, max_priority_fee)
     else
       w ← w3;
       gas_price ← lift (gas_price w);
       mret (gas_price, gas_price))
    (fun _ =>
       _ ← w3;
       let default_gas := to_wei_2_gwei in
       mret (default_gas, default_gas)).

(** [s[2:]] on a string *)
Definition drop2 (s : string) : string :=
  match s with
  | String _ (String _ rest) => rest
  | _ => EmptyString
  end.

(** The bytes that [get_user_op_hash] hashes. *)
Definition packed_data (self : Account Web3) (user_op : account.UserOperation)
  : result (list byte) :=
  a ← Hex.fromhex (drop2 (contract_address self));
  n ← account.to_bytes (account.nonce user_op) 32;
  g ← account.to_bytes (account.preVerificationGas user_op) 32;
  Ok (a ++ n ++ account.callData user_op ++ account.accountGasLimits user_op
        ++ g ++ account.gasFees user_op ++ account.paymasterAndData user_op).

Definition get_user_op_hash (self : Account Web3) (user_op : account.UserOperation)
  : result (list byte) :=
  config ← Config_new;
  entry_point_address ← get_entry_point config (network_name self);
  packed ← packed_data self user_op;
  Ok (keccak packed).

End Methods.

End account_methods.

(* ------------------------------------------------------------------------- *)
(** ** Python values of config.py and wallet.py *)

Module pyvalues.

(** The exceptions of [config.py] and [wallet.py]: those above and four more
    builtins. *)
Inductive error_class :=
| Builtin (c : exn_class)
| KeyError
| IndexError
| TypeError
| AttributeError.

Record error := mkError { err_cls : error_class; err_msg : string }.

Inductive outcome (A : Type) : Type :=
| Returned (a : A)
| Raised (e : error).
Arguments Returned {A} a.
Arguments Raised {A} e.

#[global] Instance outcome_ret : MRet outcome := fun A a => Returned a.
#[global] Instance outcome_bind : MBind outcome := fun A B k m =>
  match m with
  | Returned a => k a
  | Raised e => Raised e
  end.

Definition error_of (e : exn) : error := mkError (Builtin (exn_cls e)) (exn_msg e).

(** A call into the files above. *)
Definition of_result {A} (r : result A) : outcome A :=
  match r with
  | Ok a => Returned a
  | Raise e => Raised (error_of e)
  end.

Definition returned {A} (r : outcome A) : bool :=
  match r with Returned _ => true | Raised _ => false end.

(** [throws r c]: [r] is an exception of the class [c]. *)
Definition throws {A} (r : outcome A) (c : error_class) : Prop :=
  match r with Returned _ => False | Raised e => err_cls e = c end.

(** A method: a computation on a state that may raise; the state reached
    when it raises is kept. *)
Definition Py (S A : Type) : Type := S -> outcome A * S.

#[global] Instance Py_ret {S} : MRet (Py S) := fun A a s => (Returned a, s).
#[global] Instance Py_bind {S} : MBind (Py S) := fun A B k m s =>
  match m s with
  | (Returned a, s') => k a s'
  | (Raised e, s') => (Raised e, s')
  end.

Definition py_raise {S A} (c : error_class) (msg : string) : Py S A :=
  fun s => (Raised (mkError c msg), s).
Definition py_lift {S A} (r : outcome A) : Py S A := fun s => (r, s).
Definition py_get {S} : Py S S := fun s => (Returned s, s).
Definition py_modify {S} (f : S -> S) : Py S unit := fun s => (Returned tt, f s).

(** [for x in l: body x], stopping at the first exception. *)
Fixpoint py_for {S A} (l : list A) (body : A -> Py S unit) : Py S unit :=
  match l with
  | [] => mret tt
  | x :: rest => _ ← body x; py_for rest body
  end.

(** What [json.load] returns and [json.dump] takes: numbers are integers,
    the pairs of an object are in the order of the file. *)
#[warnings="-register-all"] Inductive json :=
| JNull
| JBool (b : bool)
| JInt (z : Z)
| JStr (s : string)
| JList (l : list json)
| JObj (items : list (string * json)).

(** Truth value *)
Definition truth (v : json) : bool :=
  match v with
  | JNull => false
  | JBool b => b
  | JInt z => negb (z =? 0)%Z
  | JStr s => negb (String.eqb s "")
  | JList l => match l with [] => false | _ => true end
  | JObj items => match items with [] => false | _ => true end
  end.

(** [x or d] on optional strings *)
Definition str_or (x : option string) (d : string) : string :=
  match x with
  | Some (String a s) => String a s
  | _ => d
  end.

(** A [dict] with string keys: the items in insertion order. *)
Definition dict (V : Type) : Type := list (string * V).

Fixpoint dict_get {V} (k : string) (d : dict V) : option V :=
  match d with
  | [] => None
  | (k', v) :: rest => if String.eqb k k' then Some v else dict_get k rest
  end.

Definition dict_has {V} (k : string) (d : dict V) : bool :=
  match dict_get k d with Some _ => true | None => false end.

(** [d[k] = v]: in place when the key is there, at the end otherwise. *)
Fixpoint dict_set {V} (k : string) (v : V) (d : dict V) : dict V :=
  match d with
  | [] => [(k, v)]
  | (k', v') :: rest =>
      if String.eqb k k' then (k, v) :: rest else (k', v') :: dict_set k v rest
  end.

(** [del d[k]] *)
Fixpoint dict_del {V} (k : string) (d : dict V) : dict V :=
  match d with
  | [] => []
  | (k', v') :: rest =>
      if String.eqb k k' then rest else (k', v') :: dict_del k rest
  end.

Definition dict_keys {V} (d : dict V) : list string := map fst d.

(** A file of the configuration or of a wallet: the value that [json.load]
    returns for it, if it is JSON at all. *)
Inductive content :=
| Json (v : json)
| NotJson.

End pyvalues.

(* ------------------------------------------------------------------------- *)
(** ** backend/config.py *)

Module config.
Import pyvalues.

(** The dataclass [NetworkConfig].  Python does not check the annotations:
    a field holds what it was given. *)
Record NetworkConfig := {
  chain_id : json;
  rpc_url : json;
  entrypoint_address : json;
  factory_address : json;
  name : json
}.

(** [NetworkConfig(chain_id, rpc_url, entrypoint_address, factory_address,
    name)], with [__post_init__] *)
Definition NetworkConfig_new (chain_id rpc_url entrypoint_address factory_address
                              name : json) : outcome NetworkConfig :=
  if negb (truth rpc_url)
  then Raised (mkError (Builtin ValueError) "RPC URL cannot be empty")
  else Returned {| chain_id := chain_id; rpc_url := rpc_url;
                   entrypoint_address := entrypoint_address;
                   factory_address := factory_address; name := name |}.

(** [asdict(self)] *)
Definition to_dict (self : NetworkConfig) : json :=
  JObj [ ("chain_id", chain_id self); ("rpc_url", rpc_url self);
         ("entrypoint_address", entrypoint_address self);
         ("factory_address", factory_address self); ("name", name self) ].

Definition field_names : list string :=
  ["chain_id"; "rpc_url"; "entrypoint_address"; "factory_address"; "name"].

(** [NetworkConfig.from_dict(data)]: the class called with the items of
    [data] as keyword arguments. *)
Definition from_dict (data : json) : outcome NetworkConfig :=
  match data with
  | JObj items =>
      if negb (forallb (fun k => existsb (String.eqb k) field_names) (dict_keys items))
      then Raised (mkError TypeError "got an unexpected keyword argument")
      else
        match dict_get "chain_id" items, dict_get "rpc_url" items with
        | Some c, Some r =>
            NetworkConfig_new c r
              (default JNull (dict_get "entrypoint_address" items))
              (default JNull (dict_get "factory_address" items))
              (default JNull (dict_get "name" items))
        | _, _ => Raised (mkError TypeError "missing required positional argument")
        end
  | _ => Raised (mkError TypeError "argument after ** must be a mapping")
  end.

(** The attributes of the [Config] object.  The networks are references to
    [NetworkConfig] objects, which the callers may hold as well. *)
Record Config := {
  _networks : dict nat;
  config_path : string
}.

Definition DEFAULT_CONFIG_PATH : string := "config.json".

(** The class attribute [Config._instance], the [NetworkConfig] objects by
    their references, and the files. *)
Record world := {
  _instance : option Config;
  heap : list NetworkConfig;
  files : gmap string content;
  writable : string -> bool
}.

Definition set_instance (f : option Config -> option Config) (w : world) : world :=
  {| _instance := f (_instance w); heap := heap w; files := files w;
     writable := writable w |}.

Definition set_heap (f : list NetworkConfig -> list NetworkConfig) (w : world) : world :=
  {| _instance := _instance w; heap := f (heap w); files := files w;
     writable := writable w |}.

Definition set_files (f : gmap string content -> gmap string content) (w : world)
  : world :=
  {| _instance := _instance w; heap := heap w; files := f (files w);
     writable := writable w |}.

Definition set_networks (f : dict nat -> dict nat) (c : Config) : Config :=
  {| _networks := f (_networks c); config_path := config_path c |}.

(** [self], for a method called on [Config._instance]. *)
Definition this : Py world Config := fun w =>
  match _instance w with
  | Some c => (Returned c, w)
  | None => (Raised (mkError AttributeError "'NoneType' object has no attribute"), w)
  end.

Definition update_self (f : Config -> Config) : Py world unit :=
  py_modify (set_instance (option_map f)).

(** The object behind a reference. *)
Definition deref (l : nat) : Py world NetworkConfig := fun w =>
  match heap w !! l with
  | Some nc => (Returned nc, w)
  | None => (Raised (mkError AttributeError "no such object"), w)
  end.

(** A new object: its reference. *)
Definition alloc (nc : NetworkConfig) : Py world nat := fun w =>
  (Returned (length (heap w)), set_heap (fun h => h ++ [nc]) w).

(** [NetworkConfig(...)] as the callers of [add_network] write it. *)
Definition new_network (chain_id rpc_url entrypoint_address factory_address
                        name : json) : Py world nat :=
  nc ← py_lift (NetworkConfig_new chain_id rpc_url entrypoint_address
                  factory_address name);
  alloc nc.

(** [with open(path, 'w') as f: json.dump(data, f, indent=2)] *)
Definition dump_file (path : string) (data : json) : Py world unit := fun w =>
  if writable w path then (Returned tt, set_files (insert path (Json data)) w)
  else (Raised (mkError (Builtin OSError) "cannot open file for writing"), w).

(** [{name: network.to_dict() for name, network in self._networks.items()}] *)
Fixpoint networks_dict (h : list NetworkConfig) (d : dict nat)
  : outcome (list (string * json)) :=
  match d with
  | [] => Returned []
  | (n, l) :: rest =>
      match h !! l with
      | Some nc => r ← networks_dict h rest; Returned ((n, to_dict nc) :: r)
      | None => Raised (mkError AttributeError "no such object")
      end
  end.

Definition save_to_json (path : option string) : Py world unit :=
  self ← this;
  let save_path := str_or path (config_path self) in
  w ← py_get;
  networks ← py_lift (networks_dict (heap w) (_networks self));
  let config_data := JObj [("networks", JObj networks)] in
  dump_file save_path config_data.

Definition add_network (network_name : string) (network_config : nat) (save : bool)
  : Py world unit :=
  _ ← this;
  _ ← update_self (set_networks (dict_set network_name network_config));
  if save then save_to_json None else mret tt.

Definition get_network (network_name : string) : Py world nat :=
  self ← this;
  match dict_get network_name (_networks self) with
  | None => py_raise KeyError ("Network '" +:+ network_name +:+ "' not configured")
  | Some l => mret l
  end.

Definition get_rpc_url (network_name : string) : Py world json :=
  l ← get_network network_name; nc ← deref l; mret (rpc_url nc).

Definition get_chain_id (network_name : string) : Py world json :=
  l ← get_network network_name; nc ← deref l; mret (chain_id nc).

Definition get_entry_point (network_name : string) : Py world json :=
  l ← get_network network_name; nc ← deref l; mret (entrypoint_address nc).

Definition get_factory (network_name : string) : Py world json :=
  l ← get_network network_name; nc ← deref l; mret (factory_address nc).

Definition with_entrypoint (a : json) (nc : NetworkConfig) : NetworkConfig :=
  {| chain_id := chain_id nc; rpc_url := rpc_url nc; entrypoint_address := a;
     factory_address := factory_address nc; name := name nc |}.

Definition with_factory (a : json) (nc : NetworkConfig) : NetworkConfig :=
  {| chain_id := chain_id nc; rpc_url := rpc_url nc;
     entrypoint_address := entrypoint_address nc;
     factory_address := a; name := name nc |}.

(** [network.attribute = value] on the object behind [l] *)
Definition assign (l : nat) (f : NetworkConfig -> NetworkConfig) : Py world unit :=
  nc ← deref l;
  py_modify (set_heap (fun h => <[l := f nc]> h)).

Definition set_entry_point (network_name : string) (entrypoint_address : json)
           (save : bool) : Py world unit :=
  network ← get_network network_name;
  _ ← assign network (with_entrypoint entrypoint_address);
  if save then save_to_json None else mret tt.

Definition set_factory (network_name : string) (factory_address : json)
           (save : bool) : Py world unit :=
  network ← get_network network_name;
  _ ← assign network (with_factory factory_address);
  if save then save_to_json None else mret tt.

Definition has_network (network_name : string) : Py world bool :=
  self ← this; mret (dict_has network_name (_networks self)).

Definition list_networks : Py world (list string) :=
  self ← this; mret (dict_keys (_networks self)).

Definition remove_network (network_name : string) (save : bool) : Py world unit :=
  self ← this;
  if dict_has network_name (_networks self)
  then
    _ ← update_self (set_networks (dict_del network_name));
    if save then save_to_json None else mret tt
  else mret tt.

Definition load_from_json (path : option string) : Py world unit :=
  self ← this;
  let load_path := str_or path (config_path self) in
  w ← py_get;
  match files w !! load_path with
  | None => py_raise (Builtin FileNotFoundError) ("Config file not found: " +:+ load_path)
  | Some NotJson =>                        (* json.JSONDecodeError, a ValueError *)
      py_raise (Builtin ValueError) "Expecting value"
  | Some (Json config_data) =>
      _ ← update_self (set_networks (fun _ => []));
      networks ← match config_data with
                 | JObj items => mret (default (JObj []) (dict_get "networks" items))
                 | _ => py_raise AttributeError "object has no attribute 'get'"
                 end;
      match networks with
      | JObj items =>
          py_for items (fun '(network_name, network_data) =>
            network_config ← py_lift (from_dict network_data);
            l ← alloc network_config;
            update_self (set_networks (dict_set network_name l)))
      | _ => py_raise AttributeError "object has no attribute 'items'"
      end
  end.

Definition load_default_networks (save : bool) : Py world unit :=
  sepolia ← new_network (JInt 11155111) (JStr "https://rpc.sepolia.org")
              JNull JNull (JStr "Sepolia Testnet");
  _ ← add_network "sepolia" sepolia false;
  mainnet ← new_network (JInt 1) (JStr "https://eth.llamarpc.com")
              JNull JNull (JStr "Ethereum Mainnet");
  _ ← add_network "mainnet" mainnet false;
  mumbai ← new_network (JInt 80001) (JStr "https://rpc-mumbai.maticvigil.com")
             JNull JNull (JStr "Polygon Mumbai");
  _ ← add_network "mumbai" mumbai false;
  if save then save_to_json None else mret tt.

(** [Config(config_path)]: [__new__] makes the instance once, and [__init__]
    returns at once on an instance that has been initialised. *)
Definition Config_call (config_path : option string) : Py world unit :=
  w ← py_get;
  match _instance w with
  | Some _ => mret tt
  | None =>
      let path := str_or config_path DEFAULT_CONFIG_PATH in
      _ ← py_modify (set_instance (fun _ => Some {| _networks := [];
                                                     config_path := path |}));
      if bool_decide (is_Some (files w !! path))
      then load_from_json None
      else mret tt
  end.

End config.

(* ------------------------------------------------------------------------- *)
(** ** backend/wallet.py: the accounts of a [Wallet] *)

Module wallet.
Import pyvalues.

(** [str.lower] *)
Class Str := { lower : string -> string }.

Section Methods.

Context {node : account_methods.Node} {str : Str}.

#[warnings="-notation-for-abbreviation"] Local Notation Account := (account_methods.Account account_methods.Web3).

(** The attributes of a [Wallet] object.  [_config] is the [Config]
    singleton, which is in the state below. *)
Record Wallet := {
  key_manager : keyManager.KeyManager;
  wallet_name : string;
  storage_path : string;
  _accounts : dict (list Account)
}.

(** The wallet with the configuration and the files. *)
Record state := {
  self : Wallet;
  env : config.world
}.

Definition set_accounts (f : dict (list Account) -> dict (list Account)) (s : state)
  : state :=
  {| self := {| key_manager := key_manager (self s);
                wallet_name := wallet_name (self s);
                storage_path := storage_path (self s);
                _accounts := f (_accounts (self s)) |};
     env := env s |}.

(** A method of [Config], or a file operation, called from the wallet. *)
Definition in_env {A} (m : Py config.world A) : Py state A := fun s =>
  let '(r, e) := m (env s) in (r, {| self := self s; env := e |}).

(** [a.lower() == b.lower()] *)
Definition same_address (a b : string) : bool := String.eqb (lower a) (lower b).

(** [x in l] on strings *)
Definition str_in (x : string) (l : list string) : bool := existsb (String.eqb x) l.

Definition opt_str (s : option string) : json :=
  match s with
  | Some s => JStr s
  | None => JNull
  end.

(** The dict of [Account.to_dict] as [json.dump] takes it. *)
Definition account_json (d : account_methods.AccountDict) : json :=
  JObj [ ("network_name", JStr (account_methods.d_network_name d));
         ("contract_address", JStr (account_methods.d_contract_address d));
         ("owners", JList (map JStr (account_methods.d_owners d)));
         ("threshold", JInt (account_methods.d_threshold d));
         ("guardians", JList (map JStr (account_methods.d_guardians d)));
         ("guardian_threshold", JInt (account_methods.d_guardian_threshold d));
         ("bundler_url", opt_str (account_methods.d_bundler_url d));
         ("paymaster_url", opt_str (account_methods.d_paymaster_url d)) ].

Definition accounts_json (d : dict (list Account)) : list (string * json) :=
  map (fun item : string * list Account =>
         (fst item,
          JList (map (fun account => account_json (account_methods.to_dict account))
                     (snd item)))) d.

Definition save (path : option string) : Py state unit :=
  s ← py_get;
  let save_path := str_or path (storage_path (self s)) in
  let wallet_data :=
    JObj [ ("wallet_name", JStr (wallet_name (self s)));
           ("key_manager_address", opt_str (keyManager.address (key_manager (self s))));
           ("accounts", JObj (accounts_json (_accounts (self s)))) ] in
  in_env (config.dump_file save_path wallet_data).

Definition add_account (network_name contract_address : string) (owners : list string)
    (threshold : Z) (guardians : option (list string)) (guardian_threshold : Z)
    (bundler_url paymaster_url rpc_url : option string) (save_flag : bool)
  : Py state Account :=
  configured ← (if account_methods.truthy rpc_url then mret true
                else in_env (config.has_network network_name));
  if negb configured
  then py_raise (Builtin ValueError)
         ("Network '" +:+ network_name +:+ "' not configured. "
          +:+ "Add it to Config or provide custom rpc_url")
  else
    _ ← py_modify (fun s => if dict_has network_name (_accounts (self s)) then s
                            else set_accounts (dict_set network_name []) s);
    s ← py_get;
    if existsb (fun existing_account =>
                  same_address (account_methods.contract_address existing_account)
                               contract_address)
               (default [] (dict_get network_name (_accounts (self s))))
    then py_raise (Builtin ValueError)
           ("Account " +:+ contract_address +:+ " already exists on " +:+ network_name
            +:+ ". Cannot add duplicate account.")
    else
      account ← py_lift (of_result
                  (account_methods.__init__ network_name contract_address owners
                     threshold guardians guardian_threshold bundler_url paymaster_url
                     rpc_url));
      let address := keyManager.address (key_manager (self s)) in
      if account_methods.truthy address && negb (str_in (default "" address) owners)
      then py_raise (Builtin ValueError)
             ("KeyManager address " +:+ default "" address
              +:+ " is not in account owners. "
              +:+ "This wallet cannot sign for this account.")
      else
        _ ← py_modify (set_accounts (fun d =>
               dict_set network_name (default [] (dict_get network_name d) ++ [account]) d));
        _ ← (if save_flag then save None else mret tt);
        mret account.

(** [l[index]]: a negative index counts from the end. *)
Definition list_index {A} (l : list A) (index : Z) : outcome A :=
  let i := (if index <? 0 then Z.of_nat (length l) + index else index)%Z in
  match (if i <? 0 then None else l !! Z.to_nat i)%Z with
  | Some a => Returned a
  | None => Raised (mkError IndexError "list index out of range")
  end.

(** The first message of [get_account] ends with the list of the networks. *)
Definition get_account (network_name : string) (contract_address : option string)
    (index : Z) : Py state Account :=
  s ← py_get;
  match dict_get network_name (_accounts (self s)) with
  | None | Some [] =>
      py_raise KeyError ("No accounts for network '" +:+ network_name +:+ "'. ")
  | Some accounts =>
      if account_methods.truthy contract_address
      then
        match find (fun account =>
                      same_address (account_methods.contract_address account)
                                   (default "" contract_address)) accounts with
        | Some account => mret account
        | None => py_raise KeyError
                    ("Account " +:+ default "" contract_address +:+ " not found on "
                     +:+ network_name)
        end
      else if (Z.of_nat (length accounts) <=? index)%Z
      then py_raise IndexError
             ("Account index " +:+ pretty index +:+ " out of range. " +:+ network_name
              +:+ " has " +:+ pretty (length accounts) +:+ " account(s)")
      else py_lift (list_index accounts index)
  end.

Definition get_accounts (network_name : string) : Py state (list Account) :=
  s ← py_get; mret (default [] (dict_get network_name (_accounts (self s)))).

Definition has_account (network_name : string) : Py state bool :=
  s ← py_get;
  mret (match dict_get network_name (_accounts (self s)) with
        | Some (_ :: _) => true
        | _ => false
        end).

Definition list_networks : Py state (list string) :=
  s ← py_get;
  mret (map fst (List.filter (fun item : string * list Account =>
                                match snd item with [] => false | _ => true end)
                             (_accounts (self s)))).

Definition remove_account (network_name : string) (contract_address : option string)
    (save_flag : bool) : Py state unit :=
  s ← py_get;
  match dict_get network_name (_accounts (self s)) with
  | None => mret tt
  | Some accounts =>
      _ ← (if account_methods.truthy contract_address
           then
             let kept :=
               List.filter (fun acc =>
                              negb (same_address (account_methods.contract_address acc)
                                                 (default "" contract_address)))
                           accounts in
             _ ← py_modify (set_accounts (dict_set network_name kept));
             match kept with
             | [] => py_modify (set_accounts (dict_del network_name))
             | _ => mret tt
             end
           else py_modify (set_accounts (dict_del network_name)));
      if save_flag then save None else mret tt
  end.

End Methods.

End wallet.

(* ========================================================================= *)
(** * Properties *)

(* ------------------------------------------------------------------------- *)
(** ** Bytes and lists *)

Lemma byte_of_to_N (b : byte) : byte_of_N (Byte.to_N b) = b.
Proof.
  unfold byte_of_N.
  rewrite N.mod_small by (pose proof (Byte.to_N_bounded b); lia).
  now rewrite Byte.of_to_N.
Qed.

Lemma to_N_inj (a b : byte) : Byte.to_N a = Byte.to_N b -> a = b.
Proof.
  intros H. rewrite <- (byte_of_to_N a), <- (byte_of_to_N b). now rewrite H.
Qed.

Lemma in_all_bytes (b : byte) : In b all_bytes.
Proof.
  unfold all_bytes. apply in_map_iff. exists (N.to_nat (Byte.to_N b)). split.
  - rewrite N2Nat.id. apply byte_of_to_N.
  - apply in_seq. pose proof (Byte.to_N_bounded b). lia.
Qed.

(** A decidable property of bytes holds of all of them once it has been
    checked on the 256 values. *)
Lemma forall_bytes (P : byte -> bool) :
  forallb P all_bytes = true -> forall b, P b = true.
Proof.
  intros H b. rewrite forallb_forall in H. apply H, in_all_bytes.
Qed.

Lemma forall_bytes2 (P : byte -> byte -> bool) :
  forallb (fun a => forallb (P a) all_bytes) all_bytes = true ->
  forall a b, P a b = true.
Proof.
  intros H a b. apply forall_bytes with (b := a) in H.
  now apply forall_bytes with (b := b) in H.
Qed.

Lemma byte_eqb_eq (a b : byte) : byte_eqb a b = true <-> a = b.
Proof.
  unfold byte_eqb. rewrite N.eqb_eq. split; [apply to_N_inj | now intros ->].
Qed.

Lemma byte_eqb_refl (a : byte) : byte_eqb a a = true.
Proof. now apply byte_eqb_eq. Qed.

Lemma bytes_eqb_eq (a b : list byte) : bytes_eqb a b = true <-> a = b.
Proof.
  revert b. induction a as [|x a IH]; intros [|y b]; simpl; try easy.
  rewrite andb_true_iff, byte_eqb_eq, IH. split.
  - now intros [-> ->].
  - intros [= -> ->]. easy.
Qed.

Lemma byte_xor_cancel (a b : byte) : byte_xor (byte_xor a b) b = a.
Proof.
  apply byte_eqb_eq.
  revert a b. apply (forall_bytes2 (fun a b => byte_eqb (byte_xor (byte_xor a b) b) a)).
  vm_compute. reflexivity.
Qed.

Lemma length_xor_bytes (a b : list byte) :
  length (xor_bytes a b) = Nat.min (length a) (length b).
Proof.
  revert b. induction a as [|x a IH]; intros [|y b]; simpl; auto.
Qed.

Lemma xor_bytes_cancel (p ks : list byte) :
  length p <= length ks -> xor_bytes (xor_bytes p ks) ks = p.
Proof.
  revert ks. induction p as [|x p IH]; intros [|y ks]; simpl; intros H; try easy; try lia.
  rewrite byte_xor_cancel, IH by lia. reflexivity.
Qed.

(** *** Chunks *)

Lemma chunks_aux_fuel {A} (n f1 f2 : nat) (l : list A) :
  0 < n -> length l <= f1 -> length l <= f2 ->
  chunks_aux f1 n l = chunks_aux f2 n l.
Proof.
  intros Hn. revert f2 l.
  induction f1 as [|f1 IH]; intros f2 l H1 H2.
  - destruct l; [now destruct f2 | simpl in H1; lia].
  - destruct l as [|x l]; [now destruct f2|].
    destruct f2 as [|f2]; [simpl in H2; lia|].
    cbn [chunks_aux]. f_equal.
    assert (Hs : length (skipn n (x :: l)) <= length l).
    { rewrite length_skipn. simpl. lia. }
    simpl in H1, H2. apply IH; lia.
Qed.

Lemma chunks_aux_enough {A} (n : nat) (fuel : nat) (l : list A) :
  0 < n -> length l <= fuel -> chunks_aux fuel n l = chunks_aux (length l) n l.
Proof. intros Hn Hl. now apply chunks_aux_fuel. Qed.

Lemma chunks_nil {A} (n : nat) : chunks n (@nil A) = [].
Proof. reflexivity. Qed.

Lemma chunks_step {A} (n : nat) (l : list A) :
  0 < n -> l <> [] -> chunks n l = firstn n l :: chunks n (skipn n l).
Proof.
  intros Hn Hl. unfold chunks. destruct l as [|x l]; [easy|].
  cbn [chunks_aux length]. f_equal.
  apply chunks_aux_enough; [exact Hn|].
  rewrite length_skipn. simpl. lia.
Qed.

(** *** Slices of a keystore blob *)

Lemma slice_index_nonneg (len i : Z) :
  (0 <= i <= len)%Z -> slice_index len i = Z.to_nat i.
Proof.
  intros H. unfold slice_index.
  destruct (Z.ltb_spec i 0); [lia|]. f_equal. lia.
Qed.

Lemma slice_index_neg (len i : Z) :
  (- len <= i < 0)%Z -> slice_index len i = Z.to_nat (i + len).
Proof.
  intros H. unfold slice_index.
  destruct (Z.ltb_spec i 0); [|lia]. f_equal. lia.
Qed.

Lemma py_slice_middle {A} (pre mid post : list A) (lo hi : option Z) :
  match lo with
  | Some i => slice_index (Z.of_nat (length (pre ++ mid ++ post))) i
  | None => 0
  end = length pre ->
  match hi with
  | Some i => slice_index (Z.of_nat (length (pre ++ mid ++ post))) i
  | None => length (pre ++ mid ++ post)
  end = length pre + length mid ->
  py_slice (pre ++ mid ++ post) lo hi = mid.
Proof.
  intros Hlo Hhi. unfold py_slice. rewrite Hlo, Hhi.
  rewrite skipn_app, skipn_all, Nat.sub_diag. simpl. rewrite skipn_O.
  replace (length pre + length mid - length pre) with (length mid) by lia.
  now rewrite firstn_app, firstn_all, Nat.sub_diag, firstn_O, app_nil_r.
Qed.

Section Slices.
Context {A : Type}.
Variables salt iv ct mac : list A.
Hypothesis Hsalt : length salt = 16.
Hypothesis Hiv : length iv = 16.
Hypothesis Hmac : length mac = 32.

Lemma raw_length : length (salt ++ iv ++ ct ++ mac) = 64 + length ct.
Proof. rewrite !length_app. lia. Qed.

Local Ltac index_tac :=
  first [ rewrite slice_index_nonneg by (rewrite ?length_app; simpl length; lia)
        | rewrite slice_index_neg by (rewrite ?length_app; simpl length; lia)
        | idtac ];
  rewrite ?length_app; simpl length; lia.

Lemma slice_salt : py_slice (salt ++ iv ++ ct ++ mac) None (Some 16%Z) = salt.
Proof.
  apply (py_slice_middle [] salt (iv ++ ct ++ mac)); [reflexivity | index_tac].
Qed.

Lemma slice_iv : py_slice (salt ++ iv ++ ct ++ mac) (Some 16%Z) (Some 32%Z) = iv.
Proof. apply (py_slice_middle salt iv (ct ++ mac)); index_tac. Qed.

Lemma slice_ciphertext :
  py_slice (salt ++ iv ++ ct ++ mac) (Some 32%Z) (Some (-32)%Z) = ct.
Proof.
  rewrite app_assoc. apply (py_slice_middle (salt ++ iv) ct mac); index_tac.
Qed.

Lemma slice_mac : py_slice (salt ++ iv ++ ct ++ mac) (Some (-32)%Z) None = mac.
Proof.
  rewrite !app_assoc. rewrite <- (app_nil_r mac) at 1.
  apply (py_slice_middle ((salt ++ iv) ++ ct) mac []); index_tac.
Qed.
End Slices.

(* ------------------------------------------------------------------------- *)
(** ** base64 *)

Module Base64Facts.
Import Base64.
Local Open Scope N_scope.

Lemma forall_below (P : N -> bool) (n : nat) :
  forallb P (map N.of_nat (seq 0 n)) = true ->
  forall v, v < N.of_nat n -> P v = true.
Proof.
  intros H v Hv. rewrite forallb_forall in H. apply H.
  apply in_map_iff. exists (N.to_nat v). split; [apply N2Nat.id|].
  apply in_seq. lia.
Qed.

Lemma table_inverse (v : N) :
  v < 64 ->
  table_a2b_base64 (b2a v) = Some v /\ byte_eqb (b2a v) BASE64_PAD = false.
Proof.
  intros Hv.
  pose (P := fun v => match table_a2b_base64 (b2a v) with
                      | Some u => N.eqb u v
                      | None => false
                      end && negb (byte_eqb (b2a v) BASE64_PAD)).
  assert (H : P v = true).
  { apply (forall_below P 64); [vm_compute; reflexivity | exact Hv]. }
  unfold P in H. apply andb_true_iff in H as [H1 H2].
  destruct (table_a2b_base64 (b2a v)) as [u|]; [|discriminate].
  apply N.eqb_eq in H1. subst u. split; [reflexivity|].
  now apply negb_true_iff.
Qed.

(** What the loop does with a character of the alphabet. *)
Lemma a2b_loop_data (v : N) (s : list byte) (q : nat) (lc : N) (p : nat) :
  v < 64 ->
  a2b_loop (b2a v :: s) q lc p =
  match q with
  | 0%nat => a2b_loop s 1 v 0
  | 1%nat => emit (byte_of_N (N.lor (N.shiftl lc 2) (N.shiftr v 4)))
                  (a2b_loop s 2 (N.land v 15) 0)
  | 2%nat => emit (byte_of_N (N.lor (N.shiftl lc 4) (N.shiftr v 2)))
                  (a2b_loop s 3 (N.land v 3) 0)
  | _ => emit (byte_of_N (N.lor (N.shiftl lc 6) v)) (a2b_loop s 0 0 0)
  end.
Proof.
  intros Hv. destruct (table_inverse v Hv) as [H1 H2].
  cbn [a2b_loop]. rewrite H2, H1. reflexivity.
Qed.

(** The four sextets of a group of three bytes. *)
Definition s0 (a : byte) : N := N.shiftr (Byte.to_N a) 2.
Definition s1 (a b : byte) : N :=
  N.lor (N.shiftl (N.land (Byte.to_N a) 3) 4) (N.shiftr (Byte.to_N b) 4).
Definition s2 (b c : byte) : N :=
  N.lor (N.shiftl (N.land (Byte.to_N b) 15) 2) (N.shiftr (Byte.to_N c) 6).
Definition s3 (c : byte) : N := N.land (Byte.to_N c) 63.

Lemma sextets_first (a b : byte) :
  s0 a < 64 /\ s1 a b < 64 /\
  byte_of_N (N.lor (N.shiftl (s0 a) 2) (N.shiftr (s1 a b) 4)) = a /\
  N.land (s1 a b) 15 = N.shiftr (Byte.to_N b) 4.
Proof.
  pose (P := fun a b =>
    (s0 a <? 64) && (s1 a b <? 64) &&
    byte_eqb (byte_of_N (N.lor (N.shiftl (s0 a) 2) (N.shiftr (s1 a b) 4))) a &&
    (N.land (s1 a b) 15 =? N.shiftr (Byte.to_N b) 4)).
  assert (H : P a b = true).
  { apply forall_bytes2. vm_compute. reflexivity. }
  unfold P in H. rewrite !andb_true_iff in H.
  destruct H as [[[H1 H2] H3] H4].
  apply N.ltb_lt in H1, H2. apply byte_eqb_eq in H3. apply N.eqb_eq in H4.
  auto.
Qed.

Lemma sextets_second (b c : byte) :
  s2 b c < 64 /\
  byte_of_N (N.lor (N.shiftl (N.shiftr (Byte.to_N b) 4) 4) (N.shiftr (s2 b c) 2)) = b /\
  N.land (s2 b c) 3 = N.shiftr (Byte.to_N c) 6.
Proof.
  pose (P := fun b c =>
    (s2 b c <? 64) &&
    byte_eqb (byte_of_N (N.lor (N.shiftl (N.shiftr (Byte.to_N b) 4) 4)
                               (N.shiftr (s2 b c) 2))) b &&
    (N.land (s2 b c) 3 =? N.shiftr (Byte.to_N c) 6)).
  assert (H : P b c = true).
  { apply forall_bytes2. vm_compute. reflexivity. }
  unfold P in H. rewrite !andb_true_iff in H.
  destruct H as [[H1 H2] H3].
  apply N.ltb_lt in H1. apply byte_eqb_eq in H2. apply N.eqb_eq in H3.
  auto.
Qed.

Lemma sextets_third (c : byte) :
  s3 c < 64 /\
  byte_of_N (N.lor (N.shiftl (N.shiftr (Byte.to_N c) 6) 6) (s3 c)) = c.
Proof.
  pose (P := fun c =>
    (s3 c <? 64) &&
    byte_eqb (byte_of_N (N.lor (N.shiftl (N.shiftr (Byte.to_N c) 6) 6) (s3 c))) c).
  assert (H : P c = true).
  { apply forall_bytes. vm_compute. reflexivity. }
  unfold P in H. rewrite !andb_true_iff in H. destruct H as [H1 H2].
  apply N.ltb_lt in H1. apply byte_eqb_eq in H2. auto.
Qed.

Lemma s1_last (a : byte) : N.shiftl (N.land (Byte.to_N a) 3) 4 = s1 a x00.
Proof. unfold s1. change (N.shiftr (Byte.to_N x00) 4) with 0. now rewrite N.lor_0_r. Qed.

Lemma s2_last (b : byte) : N.shiftl (N.land (Byte.to_N b) 15) 2 = s2 b x00.
Proof. unfold s2. change (N.shiftr (Byte.to_N x00) 6) with 0. now rewrite N.lor_0_r. Qed.

Lemma b64encode_group (a b c : byte) (rest : list byte) :
  b64encode (a :: b :: c :: rest) =
  b2a (s0 a) :: b2a (s1 a b) :: b2a (s2 b c) :: b2a (s3 c) :: b64encode rest.
Proof. reflexivity. Qed.

Lemma b64encode_two (a b : byte) :
  b64encode [a; b] = [b2a (s0 a); b2a (s1 a b); b2a (s2 b x00); BASE64_PAD].
Proof. cbn [b64encode]. now rewrite s2_last. Qed.

Lemma b64encode_one (a : byte) :
  b64encode [a] = [b2a (s0 a); b2a (s1 a x00); BASE64_PAD; BASE64_PAD].
Proof. cbn [b64encode]. now rewrite s1_last. Qed.

Lemma list_ind3 {A} (P : list A -> Prop) :
  P [] -> (forall a, P [a]) -> (forall a b, P [a; b]) ->
  (forall a b c l, P l -> P (a :: b :: c :: l)) ->
  forall l, P l.
Proof.
  intros H0 H1 H2 H3.
  fix IH 1. intros [|a [|b [|c l]]];
    [exact H0 | apply H1 | apply H2 | apply H3, IH].
Qed.

(** Decoding a group of four characters that encodes three bytes. *)
Lemma a2b_loop_group (a b c : byte) (s : list byte) :
  a2b_loop (b2a (s0 a) :: b2a (s1 a b) :: b2a (s2 b c) :: b2a (s3 c) :: s) 0 0 0
  = emit a (emit b (emit c (a2b_loop s 0 0 0))).
Proof.
  destruct (sextets_first a b) as (B0 & B1 & E1 & L1).
  destruct (sextets_second b c) as (B2 & E2 & L2).
  destruct (sextets_third c) as (B3 & E3).
  rewrite !a2b_loop_data by assumption.
  now rewrite E1, L1, E2, L2, E3.
Qed.

Lemma pad_is_pad : byte_eqb BASE64_PAD BASE64_PAD = true.
Proof. reflexivity. Qed.

Theorem b64decode_b64encode (s : list byte) : b64decode (b64encode s) = Ok s.
Proof.
  unfold b64decode. induction s as [|a|a b|a b c s IH] using list_ind3.
  - reflexivity.
  - rewrite b64encode_one.
    destruct (sextets_first a x00) as (B0 & B1 & E1 & _).
    rewrite !a2b_loop_data by assumption.
    cbn [a2b_loop]. rewrite pad_is_pad. cbn. now rewrite E1.
  - rewrite b64encode_two.
    destruct (sextets_first a b) as (B0 & B1 & E1 & L1).
    destruct (sextets_second b x00) as (B2 & E2 & _).
    rewrite !a2b_loop_data by assumption.
    cbn [a2b_loop]. rewrite pad_is_pad. cbn. now rewrite E1, L1, E2.
  - rewrite b64encode_group, a2b_loop_group, IH. reflexivity.
Qed.




End Base64Facts.

(* ------------------------------------------------------------------------- *)
(** ** The primitives against their published test vectors *)

Module Vectors.

Definition hex (digits : nat) (z : Z) : list byte := account.to_be digits z.
Definition ascii (s : string) : list byte := list_byte_of_string s.

(** FIPS 180-4: the first and the last round constant, the initial hash
    value, and the digest of "abc". *)
Example sha256_constants :
  (nth 0 SHA256.K256 0, nth 63 SHA256.K256 0, SHA256.H0)%Z =
  (0x428a2f98, 0xc67178f2,
   (0x6a09e667, 0xbb67ae85, 0x3c6ef372, 0xa54ff53a,
    0x510e527f, 0x9b05688c, 0x1f83d9ab, 0x5be0cd19))%Z.
Proof. vm_compute. reflexivity. Qed.

Example sha256_abc :
  SHA256.sha256 (ascii "abc") =
  hex 32 0xba7816bf8f01cfea414140de5dae2223b00361a396177a9cb410ff61f20015ad.
Proof. vm_compute. reflexivity. Qed.

(** RFC 4231, test case 2. *)
Example hmac_rfc4231_2 :
  HMAC.hmac_sha256 (ascii "Jefe") (ascii "what do ya want for nothing?") =
  hex 32 0x5bdcc146bf60754e6a042426089575c75a003f089d2739839dec58b964ec3843.
Proof. vm_compute. reflexivity. Qed.

(** PBKDF2-HMAC-SHA256, password "password", salt "salt", two iterations. *)
Example pbkdf2_two_iterations :
  PBKDF2.PBKDF2HMAC_derive 32 (ascii "salt") 2 (ascii "password") =
  Ok (hex 32 0xae4d0c95af6b46d32d0adff928f06dd02a303f8ef3c251dfd6e2d85a95474c43).
Proof. vm_compute. reflexivity. Qed.

(** FIPS 197, appendix C.1 and C.3. *)
Example aes128_fips197 :
  AES.encrypt_block (hex 16 0x000102030405060708090a0b0c0d0e0f)
                    (hex 16 0x00112233445566778899aabbccddeeff) =
  hex 16 0x69c4e0d86a7b0430d8cdb78070b4c55a.
Proof. vm_compute. reflexivity. Qed.

Example aes256_fips197 :
  AES.encrypt_block
    (hex 32 0x000102030405060708090a0b0c0d0e0f101112131415161718191a1b1c1d1e1f)
    (hex 16 0x00112233445566778899aabbccddeeff) =
  hex 16 0x8ea2b7ca516745bfeafc49904b496089.
Proof. vm_compute. reflexivity. Qed.

(** NIST SP 800-38A, F.3.17 (CFB128-AES256.Encrypt), first two blocks. *)
Example cfb128_aes256_sp800_38a :
  CFB.encryptor_run
    (hex 32 0x603deb1015ca71be2b73aef0857d77811f352c073b6108d72d9810a30914dff4,
     hex 16 0x000102030405060708090a0b0c0d0e0f)
    (hex 32 0x6bc1bee22e409f96e93d7e117393172aae2d8a571e03ac9c9eb76fac45af8e51) =
  hex 32 0xdc7e84bfda79164b7ecd8486985d386039ffed143b28b1c832113c6331e5407b.
Proof. vm_compute. reflexivity. Qed.

(** Python's decoder on text that is not canonical base64. *)
Example b64decode_lenient :
  Base64.b64decode (ascii "QR==") = Ok (ascii "A") /\
  Base64.b64decode (ascii "!QQ==") = Ok (ascii "A") /\
  raises (Base64.b64decode (ascii "!QQQ")) binascii_Error.
Proof. vm_compute. auto. Qed.

End Vectors.

(* ------------------------------------------------------------------------- *)
(** ** SHA-256, HMAC, PBKDF2 *)

Lemma length_be32 (x : Z) : length (be32 x) = 4.
Proof. reflexivity. Qed.

Lemma sha256_length (msg : list byte) : length (SHA256.sha256 msg) = 32.
Proof.
  unfold SHA256.sha256, SHA256.digest_bytes.
  destruct (fold_left _ _ _) as [[[[[[[a b] c] d] e] f] g] h].
  rewrite !length_app, !length_be32. reflexivity.
Qed.

Lemma hmac_length (key msg : list byte) : length (HMAC.hmac_sha256 key msg) = 32.
Proof. apply sha256_length. Qed.





Lemma F_length (P S : list byte) (c : N) (i : Z) : length (PBKDF2.F P S c i) = 32.
Proof.
  unfold PBKDF2.F.
  set (u1 := HMAC.hmac_sha256 P (S ++ be32 i)).
  assert (H : forall n, length (fst (N.iter n (PBKDF2.F_step P) (u1, u1))) = 32 /\
                        length (snd (N.iter n (PBKDF2.F_step P) (u1, u1))) = 32).
  { intros n. induction n as [|n [IH1 IH2]] using N.peano_ind.
    - split; apply hmac_length.
    - rewrite N.iter_succ. unfold PBKDF2.F_step at 1 3. cbn [fst snd].
      rewrite length_xor_bytes, hmac_length, IH2. split; reflexivity. }
  apply H.
Qed.

Lemma PBKDF2HMAC_derive_32 (salt key : list byte) (c : N) :
  PBKDF2.PBKDF2HMAC_derive 32 salt c key = Ok (PBKDF2.F key salt c 1).
Proof.
  unfold PBKDF2.PBKDF2HMAC_derive.
  change (Z.of_nat PBKDF2.hLen * (2 ^ 32 - 1) <? Z.of_nat 32)%Z with false.
  change (PBKDF2.block_indices 32) with [1%Z].
  cbn [map concat]. rewrite app_nil_r.
  rewrite firstn_all2 by (rewrite F_length; lia). reflexivity.
Qed.

(* ------------------------------------------------------------------------- *)
(** ** AES and CFB *)

Lemma encrypt_block_length (key block : list byte) :
  length (AES.encrypt_block key block) = 16.
Proof.
  unfold AES.encrypt_block, AES.AddRoundKey.
  now rewrite !length_map, length_seq.
Qed.

Lemma encrypt_blocks_length (key : list byte) (n : nat) :
  forall data prev, length data <= n ->
    length (CFB.encrypt_blocks key prev (chunks 16 data)) = length data.
Proof.
  induction n as [|n IH]; intros data prev Hn.
  - destruct data; [reflexivity | simpl in Hn; lia].
  - destruct data as [|x data]; [reflexivity|].
    rewrite chunks_step by (lia || easy).
    cbn [CFB.encrypt_blocks]. rewrite length_app, length_xor_bytes.
    rewrite IH by (rewrite length_skipn; simpl in *; lia).
    rewrite encrypt_block_length, length_firstn, length_skipn. lia.
Qed.

Lemma cfb_roundtrip_aux (key : list byte) (n : nat) :
  forall data prev, length data <= n ->
    CFB.decrypt_blocks key prev
      (chunks 16 (CFB.encrypt_blocks key prev (chunks 16 data))) = data.
Proof.
  induction n as [|n IH]; intros data prev Hn.
  - destruct data; [reflexivity | simpl in Hn; lia].
  - destruct data as [|x data]; [reflexivity|].
    set (d := x :: data) in *.
    assert (Hd : d <> []) by discriminate.
    rewrite (chunks_step 16 d) by (lia || assumption).
    cbn [CFB.encrypt_blocks].
    set (c := xor_bytes (firstn 16 d) (AES.encrypt_block key prev)).
    set (rest := CFB.encrypt_blocks key c (chunks 16 (skipn 16 d))).
    assert (Hc : length c = Nat.min 16 (length d)).
    { unfold c. rewrite length_xor_bytes, length_firstn, encrypt_block_length. lia. }
    assert (Hrest : length rest = length d - 16).
    { unfold rest. rewrite (encrypt_blocks_length key n), length_skipn; [reflexivity|].
      rewrite length_skipn. subst d. simpl in *. lia. }
    assert (Hne : c ++ rest <> []).
    { intros E. apply (f_equal (@length byte)) in E.
      rewrite length_app, Hc in E. subst d. simpl in E. lia. }
    rewrite chunks_step by (lia || assumption).
    assert (Hfirst : firstn 16 (c ++ rest) = c /\ skipn 16 (c ++ rest) = rest).
    { destruct (Nat.le_gt_cases 16 (length d)) as [Hge|Hlt].
      - replace 16 with (length c) by lia.
        rewrite firstn_app, firstn_all, Nat.sub_diag, firstn_O, app_nil_r.
        rewrite skipn_app, skipn_all, Nat.sub_diag. auto.
      - assert (rest = []) as -> by (apply length_zero_iff_nil; lia).
        rewrite app_nil_r. split.
        + apply firstn_all2. lia.
        + apply skipn_all2. lia. }
    destruct Hfirst as [-> ->].
    cbn [CFB.decrypt_blocks]. unfold rest.
    rewrite IH by (rewrite length_skipn; subst d; simpl in *; lia).
    unfold c. rewrite xor_bytes_cancel
      by (rewrite length_firstn, encrypt_block_length; lia).
    apply firstn_skipn.
Qed.

(** Decrypting under the same key and initialisation vector gives the data
    back. *)
Lemma cfb_roundtrip (cipher : list byte * list byte) (data : list byte) :
  CFB.decryptor_run cipher (CFB.encryptor_run cipher data) = data.
Proof.
  unfold CFB.decryptor_run, CFB.encryptor_run.
  now apply (cfb_roundtrip_aux _ (length data)).
Qed.


Lemma Cipher_ok (key iv : list byte) :
  length key = 32 -> length iv = 16 -> CFB.Cipher key iv = Ok (key, iv).
Proof. unfold CFB.Cipher. now intros -> ->. Qed.

(* ------------------------------------------------------------------------- *)
(** ** crypto_utils.py: the cipher *)

Module CipherFacts.
Import crypto_utils.

(** The 390000 iterations are never run in a proof. *)
#[local] Opaque PBKDF2.F SHA256.sha256 AES.encrypt_block.

Definition integrity_error : exn :=
  mkExn HMACVerificationFailed "HMAC check failed — data integrity violation.".

Lemma Ok_inj {A} (a b : A) : Ok a = Ok b -> a = b.
Proof. intros H. now injection H. Qed.

Lemma pair_Ok_inj {A S} (a b : A) (s t : S) : (Ok a, s) = (Ok b, t) -> a = b /\ s = t.
Proof. intros H. now injection H. Qed.

Lemma derive_key_32 (password : string) (salt : list byte) :
  derive_key password salt 32 = Ok (PBKDF2.F (encode password) salt 390000 1).
Proof. unfold derive_key. now rewrite PBKDF2HMAC_derive_32. Qed.

Lemma derive_key_32_length (password : string) (salt key : list byte) :
  derive_key password salt 32 = Ok key -> length key = 32.
Proof. rewrite derive_key_32. intros H. apply Ok_inj in H. subst key. apply F_length. Qed.

Lemma os_urandom_length (n : nat) (e : entropy) :
  exists bytes e', os_urandom n e = (Ok bytes, e') /\ length bytes = n.
Proof.
  eexists _, _. split; [reflexivity|]. now rewrite length_map, length_seq.
Qed.

(** [aes_encrypt] always returns, and this is what it has computed. *)
Lemma aes_encrypt_body_ok (data : list byte) (password : string) (e : entropy) :
  exists l e',
    aes_encrypt_body data password e = (Ok l, e') /\
    length (l_salt l) = 16 /\ length (l_iv l) = 16 /\ length (l_mac l) = 32 /\
    derive_key password (l_salt l) 32 = Ok (l_key l) /\
    l_hmac_key l = l_key l /\
    l_ciphertext l = CFB.encryptor_run (l_key l, l_iv l) data /\
    l_mac l = HMAC.hmac_sha256 (l_hmac_key l) (l_salt l ++ l_iv l ++ l_ciphertext l) /\
    l_salt l = map e (seq 0 16) /\
    l_iv l = map (fun i => e (16 + i)) (seq 0 16).
Proof.
  assert (Lsalt : length (map e (seq 0 16)) = 16) by now rewrite length_map, length_seq.
  assert (Liv : length (map (fun i => e (16 + i)) (seq 0 16)) = 16)
    by now rewrite length_map, length_seq.
  unfold aes_encrypt_body, mbind, M_bind, lift, mret, M_ret, os_urandom.
  rewrite derive_key_32, Cipher_ok by (apply F_length || assumption).
  eexists _, _. split; [reflexivity|].
  cbn [l_salt l_iv l_mac l_key l_hmac_key l_ciphertext].
  rewrite derive_key_32, hmac_length.
  split; [exact Lsalt|]. split; [exact Liv|]. repeat (split; [reflexivity|]). reflexivity.
Qed.

Lemma aes_encrypt_ok (data : list byte) (password : string) (e : entropy)
      (l : encrypt_locals) (e' : entropy) :
  aes_encrypt_body data password e = (Ok l, e') ->
  aes_encrypt data password e = (Ok (Base64.b64encode (blob_of l)), e').
Proof.
  intros H. unfold aes_encrypt, try_exceptM, mbind, M_bind. now rewrite H.
Qed.

(** What [aes_decrypt] answers when the text decodes to a blob of the four
    fields. *)
Lemma aes_decrypt_decoded (text : list byte) (password : string)
      (salt iv ct mac : list byte) :
  length salt = 16 -> length iv = 16 -> length mac = 32 ->
  Base64.b64decode text = Ok (salt ++ iv ++ ct ++ mac) ->
  aes_decrypt text password =
  let key := PBKDF2.F (encode password) salt 390000 1 in
  if HMAC.compare_digest mac (HMAC.hmac_sha256 key (salt ++ iv ++ ct))
  then Ok (CFB.decryptor_run (key, iv) ct)
  else Raise integrity_error.
Proof.
  intros Ls Li Lm Hdec. unfold aes_decrypt. rewrite Hdec.
  cbn [try_except mbind result_bind].
  rewrite (raw_length salt iv ct mac Ls Li Lm).
  destruct (Nat.ltb_spec (64 + length ct) (16 + 16 + 32)) as [Hlt|_]; [lia|].
  rewrite slice_salt, slice_iv, slice_ciphertext, slice_mac by assumption.
  rewrite !derive_key_32. cbn [mbind result_bind]. cbv zeta.
  destruct (HMAC.compare_digest mac _); cbn [negb].
  - rewrite Cipher_ok by (apply F_length || assumption). reflexivity.
  - reflexivity.
Qed.

(** Every blob of at least 64 bytes splits into the four fields. *)
Lemma blob_fields (raw : list byte) :
  64 <= length raw ->
  exists salt iv ct mac,
    raw = salt ++ iv ++ ct ++ mac /\
    length salt = 16 /\ length iv = 16 /\ length mac = 32.
Proof.
  intros H.
  exists (firstn 16 raw), (firstn 16 (skipn 16 raw)),
         (firstn (length raw - 64) (skipn 32 raw)),
         (skipn (length raw - 64) (skipn 32 raw)).
  repeat split.
  - rewrite (firstn_skipn (length raw - 64) (skipn 32 raw)).
    replace (skipn 32 raw) with (skipn 16 (skipn 16 raw)) by now rewrite skipn_skipn.
    now rewrite !firstn_skipn.
  - rewrite length_firstn. lia.
  - rewrite length_firstn, length_skipn. lia.
  - rewrite !length_skipn. lia.
Qed.

Lemma compare_digest_eq (a b : list byte) :
  HMAC.compare_digest a b = true <-> a = b.
Proof. apply bytes_eqb_eq. Qed.

Lemma compare_digest_refl (a : list byte) : HMAC.compare_digest a a = true.
Proof. now apply compare_digest_eq. Qed.

(** Decrypting what [aes_encrypt] has produced, under any password. *)
Lemma aes_decrypt_encrypted (data : list byte) (p1 p2 : string) (e e' : entropy)
      (l : encrypt_locals) :
  aes_encrypt_body data p1 e = (Ok l, e') ->
  aes_decrypt (Base64.b64encode (blob_of l)) p2 =
  let key2 := PBKDF2.F (encode p2) (l_salt l) 390000 1 in
  if HMAC.compare_digest (l_mac l)
       (HMAC.hmac_sha256 key2 (l_salt l ++ l_iv l ++ l_ciphertext l))
  then Ok (CFB.decryptor_run (key2, l_iv l) (l_ciphertext l))
  else Raise integrity_error.
Proof.
  intros H.
  destruct (aes_encrypt_body_ok data p1 e) as (l0 & e0 & H0 & Ls & Li & Lm & _).
  rewrite H in H0. apply pair_Ok_inj in H0 as [<- <-].
  apply aes_decrypt_decoded; try assumption.
  apply Base64Facts.b64decode_b64encode.
Qed.

(** What [aes_encrypt] returns decrypts, under the same password, to what was
    encrypted. *)
Lemma encrypt_then_decrypt (m : list byte) (p : string) (e : entropy) :
  exists blob e',
    aes_encrypt m p e = (Ok blob, e') /\ aes_decrypt blob p = Ok m.
Proof.
  destruct (aes_encrypt_body_ok m p e)
    as (l & e' & Hbody & Ls & Li & Lm & Hkey & Hhk & Hct & Hmac & _).
  exists (Base64.b64encode (blob_of l)), e'. split.
  - now apply aes_encrypt_ok.
  - rewrite (aes_decrypt_encrypted m p p e e' l Hbody). cbv zeta.
    rewrite derive_key_32 in Hkey. apply Ok_inj in Hkey.
    rewrite Hkey, Hmac, Hhk, compare_digest_refl, Hct.
    now rewrite cfb_roundtrip.
Qed.


(** C8.  Key reuse: [derive_key] depends on its three arguments only, and
    in every run of [aes_encrypt] both derivations are made from the same
    password, salt and length, so the encryption key and the MAC key are
    the same bytes. *)
Theorem encrypt_keys_identical (data : list byte) (p : string) (e : entropy) :
  (forall p' salt salt' n n',
      p = p' -> salt = salt' -> n = n' ->
      derive_key p salt n = derive_key p' salt' n') /\
  exists l e',
    aes_encrypt_body data p e = (Ok l, e') /\
    aes_encrypt data p e = (Ok (Base64.b64encode (blob_of l)), e') /\
    derive_key p (l_salt l) 32 = Ok (l_key l) /\
    derive_key p (l_salt l) 32 = Ok (l_hmac_key l) /\
    l_key l = l_hmac_key l.
Proof.
  split.
  - now intros p' salt salt' n n' <- <- <-.
  - destruct (aes_encrypt_body_ok data p e)
      as (l & e' & Hbody & _ & _ & _ & Hkey & Hhk & _).
    exists l, e'. rewrite Hhk.
    split; [exact Hbody|]. split; [now apply aes_encrypt_ok|].
    split; [exact Hkey|]. split; [exact Hkey | reflexivity].
Qed.




Definition zero_entropy : entropy := fun _ => x00.



(** *** Tampering *)






End CipherFacts.

(* ------------------------------------------------------------------------- *)
(** ** account.py: packing the gas fields *)

Module AccountFacts.
Import account.
Local Open Scope Z_scope.

Lemma to_N_byte_of_N (n : N) : Byte.to_N (byte_of_N n) = (n mod 256)%N.
Proof.
  unfold byte_of_N. destruct (Byte.of_N (n mod 256)) as [b|] eqn:E.
  - now apply Byte.to_of_N.
  - apply Byte.of_N_None_iff in E.
    pose proof (N.mod_upper_bound n 256). lia.
Qed.

Lemma Z_of_byte_of_Z (z : Z) : Z_of_byte (byte_of_Z z) = z mod 256.
Proof.
  unfold Z_of_byte, byte_of_Z. rewrite to_N_byte_of_N.
  pose proof (Z.mod_pos_bound z 256 eq_refl).
  rewrite N.mod_small by lia. lia.
Qed.

Lemma length_to_be (n : nat) (x : Z) : length (to_be n x) = n.
Proof.
  revert x. induction n as [|n IH]; intros x; [reflexivity|].
  cbn [to_be]. rewrite length_app, IH. cbn [length]. lia.
Qed.

Lemma from_be_snoc (l : list byte) (b : byte) :
  from_be (l ++ [b]) = from_be l * 256 + Z_of_byte b.
Proof. unfold from_be. now rewrite fold_left_app. Qed.

Lemma from_be_to_be (n : nat) (x : Z) :
  from_be (to_be n x) = x mod 256 ^ Z.of_nat n.
Proof.
  revert x. induction n as [|n IH]; intros x.
  - cbn. now rewrite Z.mod_1_r.
  - cbn [to_be]. rewrite from_be_snoc, IH, Z_of_byte_of_Z.
    rewrite Nat2Z.inj_succ, Z.pow_succ_r by lia.
    rewrite (Z.rem_mul_r x 256 (256 ^ Z.of_nat n)) by lia. lia.
Qed.

Lemma to_be_app (n m : nat) (x : Z) :
  to_be (n + m) x = to_be n (x / 256 ^ Z.of_nat m) ++ to_be m x.
Proof.
  revert x. induction m as [|m IH]; intros x.
  - rewrite Nat.add_0_r. cbn [to_be]. now rewrite Z.pow_0_r, Z.div_1_r, app_nil_r.
  - rewrite Nat.add_succ_r. cbn [to_be]. rewrite IH, <- app_assoc.
    rewrite Z.div_div by lia.
    rewrite Nat2Z.inj_succ, Z.pow_succ_r by lia. reflexivity.
Qed.

Lemma high_bits_zero (lo n : Z) :
  0 <= lo < 2 ^ 128 -> 128 <= n -> Z.testbit lo n = false.
Proof.
  intros Hlo Hn. destruct (Z.eq_dec lo 0) as [->|Hz]; [apply Z.bits_0|].
  apply Z.bits_above_log2; [lia|].
  assert (Z.log2 lo < 128) by (apply Z.log2_lt_pow2; lia). lia.
Qed.

Lemma halves_disjoint (hi lo : Z) :
  0 <= lo < 2 ^ 128 -> Z.land (Z.shiftl hi 128) lo = 0.
Proof.
  intros Hlo. apply Z.bits_inj'. intros n Hn.
  rewrite Z.land_spec, Z.bits_0.
  destruct (Z.lt_ge_cases n 128) as [Hlt|Hge].
  - now rewrite Z.shiftl_spec_low.
  - rewrite (high_bits_zero lo n) by assumption. apply andb_false_r.
Qed.

(** The two halves of a packed field are disjoint, so the bitwise or is a
    sum. *)
Lemma pack_as_sum (hi lo : Z) :
  0 <= lo < 2 ^ 128 -> Z.lor (Z.shiftl hi 128) lo = hi * 2 ^ 128 + lo.
Proof.
  intros Hlo. rewrite <- Z.shiftl_mul_pow2 by lia.
  rewrite <- Z.lxor_lor by now apply halves_disjoint.
  symmetry. apply Z.add_nocarry_lxor. now apply halves_disjoint.
Qed.

Lemma unpack_to_be (x : Z) :
  unpack (to_be 32 x) = ((x / 2 ^ 128) mod 2 ^ 128, x mod 2 ^ 128).
Proof.
  unfold unpack. change (to_be 32 x) with (to_be (16 + 16) x).
  rewrite (to_be_app 16 16 x).
  rewrite firstn_app, skipn_app, length_to_be.
  rewrite firstn_all2, skipn_all2 by (rewrite length_to_be; lia).
  change (16 - 16)%nat with 0%nat.
  rewrite firstn_O, skipn_O, app_nil_r. cbn [app].
  rewrite !from_be_to_be. reflexivity.
Qed.

Lemma to_bytes_ok (x : Z) (n : nat) :
  0 <= x < 2 ^ (8 * Z.of_nat n) -> to_bytes x n = Ok (to_be n x).
Proof.
  intros H. unfold to_bytes.
  destruct (Z.ltb_spec x 0); [lia|].
  destruct (Z.leb_spec (2 ^ (8 * Z.of_nat n)) x); [lia | reflexivity].
Qed.

Lemma to_bytes_overflow (x : Z) (n : nat) :
  ~ (0 <= x < 2 ^ (8 * Z.of_nat n)) -> raises (to_bytes x n) OverflowError.
Proof.
  intros H. unfold to_bytes.
  destruct (Z.ltb_spec x 0); [reflexivity|].
  destruct (Z.leb_spec (2 ^ (8 * Z.of_nat n)) x); [reflexivity | lia].
Qed.

(** A packed field of two 128-bit values: its 32 bytes, read back. *)
Lemma packed_field (hi lo : Z) :
  0 <= hi < 2 ^ 128 -> 0 <= lo < 2 ^ 128 ->
  let packed := Z.lor (Z.shiftl hi 128) lo in
  to_bytes packed 32 = Ok (to_be 32 packed) /\
  length (to_be 32 packed) = 32%nat /\
  from_be (to_be 32 packed) = packed /\
  unpack (to_be 32 packed) = (hi, lo).
Proof.
  intros Hhi Hlo packed.
  assert (E : packed = hi * 2 ^ 128 + lo) by now apply pack_as_sum.
  assert (R : 0 <= packed < 2 ^ 256).
  { rewrite E. change (2 ^ 256) with (2 ^ 128 * 2 ^ 128). nia. }
  split; [now apply to_bytes_ok|]. split; [apply length_to_be|]. split.
  - rewrite from_be_to_be. apply Z.mod_small. exact R.
  - rewrite unpack_to_be, E.
    rewrite Z.div_add_l, (Z.div_small lo), Z.add_0_r by lia.
    rewrite (Z.add_comm (hi * 2 ^ 128)), Z.mod_add by lia.
    now rewrite !Z.mod_small by lia.
Qed.

(** The nonce that the builder uses: the argument, or what the node says. *)
Definition nonce_used (node : rpc) (nonce : option Z) : result Z :=
  match nonce with
  | None => rpc_get_nonce node
  | Some n => Ok n
  end.

Lemma build_with_fees (self : Account) (node : rpc) (call_data : list byte)
      (nonce : option Z) (n f p c v pre : Z) (pm sg : list byte) :
  nonce_used node nonce = Ok n ->
  build_user_operation self node call_data nonce (Some f) (Some p) c v pre pm sg =
  agl ← to_bytes (Z.lor (Z.shiftl v 128) c) 32;
  gf ← to_bytes (Z.lor (Z.shiftl p 128) f) 32;
  Ok {| sender := contract_address self; nonce := n; initCode := [];
        callData := call_data; accountGasLimits := agl;
        preVerificationGas := pre; gasFees := gf;
        paymasterAndData := pm; signature := sg |}.
Proof.
  intros Hn. unfold build_user_operation. fold (nonce_used node nonce).
  rewrite Hn. reflexivity.
Qed.

(** C5.  Packing: with all four values in [0, 2^128 - 1] (and a nonce that
    was given or fetched), the record is built, [accountGasLimits] is the 32
    big-endian bytes of [(verificationGasLimit << 128) | callGasLimit] and
    reads back as the pair, and [gasFees] likewise for
    [(maxPriorityFeePerGas << 128) | maxFeePerGas]. *)
Theorem packing_correct (self : Account) (node : rpc) (call_data : list byte)
        (nonce : option Z) (n : Z)
        (max_fee_per_gas max_priority_fee_per_gas : Z)
        (call_gas_limit verification_gas_limit pre_verification_gas : Z)
        (paymaster_and_data sg : list byte) :
  nonce_used node nonce = Ok n ->
  0 <= verification_gas_limit < 2 ^ 128 ->
  0 <= call_gas_limit < 2 ^ 128 ->
  0 <= max_priority_fee_per_gas < 2 ^ 128 ->
  0 <= max_fee_per_gas < 2 ^ 128 ->
  exists op,
    build_user_operation self node call_data nonce
      (Some max_fee_per_gas) (Some max_priority_fee_per_gas)
      call_gas_limit verification_gas_limit pre_verification_gas
      paymaster_and_data sg = Ok op /\
    length (accountGasLimits op) = 32%nat /\
    from_be (accountGasLimits op) =
      Z.lor (Z.shiftl verification_gas_limit 128) call_gas_limit /\
    unpack (accountGasLimits op) = (verification_gas_limit, call_gas_limit) /\
    length (gasFees op) = 32%nat /\
    from_be (gasFees op) =
      Z.lor (Z.shiftl max_priority_fee_per_gas 128) max_fee_per_gas /\
    unpack (gasFees op) = (max_priority_fee_per_gas, max_fee_per_gas).
Proof.
  intros Hn Hv Hc Hp Hf.
  destruct (packed_field verification_gas_limit call_gas_limit Hv Hc)
    as (A1 & A2 & A3 & A4).
  destruct (packed_field max_priority_fee_per_gas max_fee_per_gas Hp Hf)
    as (G1 & G2 & G3 & G4).
  rewrite (build_with_fees _ _ _ _ n) by exact Hn.
  rewrite A1, G1. cbn [mbind result_bind].
  eexists. split; [reflexivity|]. cbn [accountGasLimits gasFees]. auto 7.
Qed.

(** The boundary values: all of 0 and 2^128 - 1 at once. *)
Lemma packing_correct_boundary :
  exists op,
    build_user_operation {| network_name := "sepolia"; contract_address := "0x00" |}
      {| rpc_get_nonce := raise ConnectionError "no node";
         rpc_get_gas_prices := raise ConnectionError "no node" |}
      [] (Some 0) (Some (2 ^ 128 - 1)) (Some 0) 0 (2 ^ 128 - 1) 21000 [] [] = Ok op /\
    length (accountGasLimits op) = 32%nat /\
    from_be (accountGasLimits op) = Z.lor (Z.shiftl (2 ^ 128 - 1) 128) 0 /\
    unpack (accountGasLimits op) = (2 ^ 128 - 1, 0) /\
    length (gasFees op) = 32%nat /\
    from_be (gasFees op) = Z.lor (Z.shiftl 0 128) (2 ^ 128 - 1) /\
    unpack (gasFees op) = (0, 2 ^ 128 - 1).
Proof.
  apply (packing_correct _ _ _ (Some 0) 0); [reflexivity | lia | lia | lia | lia].
Defined.

(** C6, refuted as stated.  A call gas limit of 2^128 does not fit in 128
    bits, yet the record is built: the excess bit is or-ed into the
    verification gas limit, 150000 becoming 150001. *)
Lemma oversized_call_gas_limit_accepted :
  exists op,
    build_user_operation {| network_name := "sepolia"; contract_address := "0x00" |}
      {| rpc_get_nonce := Ok 0; rpc_get_gas_prices := Ok (1, 1) |}
      [] (Some 0) (Some 1) (Some 1)
      (2 ^ 128) default_verification_gas_limit default_pre_verification_gas [] []
    = Ok op /\
    (2 ^ 128 >= 2 ^ 128) /\
    unpack (accountGasLimits op) = (150001, 0).
Proof. eexists. split; [vm_compute; reflexivity|]. split; [lia | vm_compute; reflexivity]. Qed.

Lemma lor_shiftl_overflow (hi lo : Z) :
  2 ^ 128 <= hi -> ~ (0 <= Z.lor (Z.shiftl hi 128) lo < 2 ^ (8 * Z.of_nat 32)).
Proof.
  intros Hhi [H0 H1]. change (2 ^ (8 * Z.of_nat 32)) with (2 ^ 256) in H1.
  apply Z.lor_nonneg in H0 as [Hs0 Hlo].
  assert (Hs : 2 ^ 256 <= Z.shiftl hi 128).
  { rewrite Z.shiftl_mul_pow2 by lia. change (2 ^ 256) with (2 ^ 128 * 2 ^ 128). nia. }
  assert (Hlog : 256 <= Z.log2 (Z.shiftl hi 128)) by (apply Z.log2_le_pow2; lia).
  pose proof (Z.log2_lor (Z.shiftl hi 128) lo Hs0 Hlo) as Hmax.
  assert (Hpos : 0 < Z.lor (Z.shiftl hi 128) lo).
  { destruct (Z.eq_dec (Z.lor (Z.shiftl hi 128) lo) 0) as [E|]; [|
      pose proof (proj2 (Z.lor_nonneg (Z.shiftl hi 128) lo) (conj Hs0 Hlo)); lia].
    apply Z.lor_eq_0_iff in E. lia. }
  apply Z.log2_lt_pow2 in H1; [lia | exact Hpos].
Qed.

(** C6, as the code has it.  The builder has no check of its own; only the
    32-byte encoding can fail.  With the nonce given or fetched and both fees
    supplied, the record is built exactly when both packed values are in
    [0, 2^256), and [OverflowError] is raised otherwise; this is the case
    whenever the verification gas limit or the priority fee is 2^128 or
    more. *)
Theorem build_overflow (self : Account) (node : rpc) (call_data : list byte)
        (nonce : option Z) (n : Z)
        (max_fee_per_gas max_priority_fee_per_gas : Z)
        (call_gas_limit verification_gas_limit pre_verification_gas : Z)
        (paymaster_and_data sg : list byte) :
  nonce_used node nonce = Ok n ->
  let built :=
    build_user_operation self node call_data nonce
      (Some max_fee_per_gas) (Some max_priority_fee_per_gas)
      call_gas_limit verification_gas_limit pre_verification_gas
      paymaster_and_data sg in
  let limits := Z.lor (Z.shiftl verification_gas_limit 128) call_gas_limit in
  let fees := Z.lor (Z.shiftl max_priority_fee_per_gas 128) max_fee_per_gas in
  (0 <= limits < 2 ^ 256 /\ 0 <= fees < 2 ^ 256 -> is_ok built = true) /\
  (~ (0 <= limits < 2 ^ 256 /\ 0 <= fees < 2 ^ 256) -> raises built OverflowError) /\
  (2 ^ 128 <= verification_gas_limit \/ 2 ^ 128 <= max_priority_fee_per_gas ->
   raises built OverflowError).
Proof.
  intros Hn built limits fees.
  unfold built. rewrite (build_with_fees _ _ _ _ n) by exact Hn.
  fold limits fees.
  assert (Hbad : ~ (0 <= limits < 2 ^ 256 /\ 0 <= fees < 2 ^ 256) ->
                 raises (agl ← to_bytes limits 32;
                         gf ← to_bytes fees 32;
                         Ok {| sender := contract_address self; nonce := n;
                               initCode := []; callData := call_data;
                               accountGasLimits := agl;
                               preVerificationGas := pre_verification_gas;
                               gasFees := gf;
                               paymasterAndData := paymaster_and_data;
                               signature := sg |}) OverflowError).
  { intros Hno.
    destruct (Z_lt_dec limits 0) as [Hl0|Hl0];
      [| destruct (Z_lt_dec limits (2 ^ 256)) as [Hl1|Hl1]].
    - pose proof (to_bytes_overflow limits 32 ltac:(lia)) as R.
      destruct (to_bytes limits 32); [contradiction | exact R].
    - rewrite (to_bytes_ok limits 32) by (change (2 ^ (8 * Z.of_nat 32)) with (2 ^ 256); lia).
      cbn [mbind result_bind].
      pose proof (to_bytes_overflow fees 32
                    ltac:(change (2 ^ (8 * Z.of_nat 32)) with (2 ^ 256); lia)) as R.
      destruct (to_bytes fees 32); [contradiction | exact R].
    - pose proof (to_bytes_overflow limits 32
                    ltac:(change (2 ^ (8 * Z.of_nat 32)) with (2 ^ 256); lia)) as R.
      destruct (to_bytes limits 32); [contradiction | exact R]. }
  split; [|split].
  - intros [Hl Hf].
    rewrite (to_bytes_ok limits 32), (to_bytes_ok fees 32) by exact Hf || exact Hl.
    reflexivity.
  - exact Hbad.
  - intros [Hv|Hp]; apply Hbad; intros [Hl Hf].
    + now apply (lor_shiftl_overflow verification_gas_limit call_gas_limit).
    + now apply (lor_shiftl_overflow max_priority_fee_per_gas max_fee_per_gas).
Qed.

(** The nonce fetched from the node, both fees given: a verification gas
    limit of 2^128 is refused by the encoding, and the default limits are
    accepted. *)
Lemma build_overflow_witness :
  let self := {| network_name := "sepolia"; contract_address := "0x00" |} in
  let node := {| rpc_get_nonce := Ok 5; rpc_get_gas_prices := raise ConnectionError "no node" |} in
  raises (build_user_operation self node [] None (Some 1) (Some 1)
            default_call_gas_limit (2 ^ 128) default_pre_verification_gas [] [])
         OverflowError /\
  is_ok (build_user_operation self node [] None (Some 1) (Some 1)
           default_call_gas_limit default_verification_gas_limit
           default_pre_verification_gas [] []) = true.
Proof.
  intros self node. split.
  - apply (build_overflow self node [] None 5 1 1 default_call_gas_limit (2 ^ 128)
             default_pre_verification_gas [] [] eq_refl).
    left. lia.
  - apply (build_overflow self node [] None 5 1 1 default_call_gas_limit
             default_verification_gas_limit default_pre_verification_gas [] [] eq_refl).
    vm_compute. split; split; congruence.
Defined.

End AccountFacts.


(* ------------------------------------------------------------------------- *)
(** ** keyManager.py *)

Module KeyManagerFacts.
Import keyManager crypto_utils.

#[local] Opaque aes_decrypt aes_encrypt PBKDF2.F SHA256.sha256 AES.encrypt_block.

Section Facts.

Context {lib : EthAccount}.

Definition locked_error : exn := mkExn PermissionError "Wallet is locked.".

(** The exception that [unlock] raises for an exception of [aes_decrypt]. *)
Definition unlock_error (e : exn) : exn :=
  if issubclass (exn_cls e) WrongPassword
  then mkExn WrongPassword "Incorrect password."
  else if issubclass (exn_cls e) HMACVerificationFailed
  then mkExn HMACVerificationFailed "Keystore integrity check failed — file tampered."
  else mkExn CryptoError ("Unlock failed: " +:+ exn_msg e).

(** The world after a successful [unlock] that read the key [k]. *)
Definition unlocked_with (k : list byte) (w : world) : world :=
  set_self (set_unlocked true)
    (set_self (set_address (Some (address_of k)))
       (set_self (set_private_key (Some k)) w)).

Lemma from_key_ok (k : list byte) (acct : LocalAccount) :
  from_key k = Ok acct ->
  length k = 32 /\ acct = {| acct_key := k; acct_address := address_of k |}.
Proof.
  unfold from_key. destruct (Nat.eqb_spec (length k) 32) as [E|E]; [|discriminate].
  cbn [negb]. destruct (scalar_ok k); [|discriminate]. cbn [negb].
  intros H. apply CipherFacts.Ok_inj in H. auto.
Qed.

(** [unlock], path by path. *)
Lemma unlock_eq (password : string) (w : world) :
  unlock password w =
  match files w !! storage_path (self w) with
  | None => (Raise (mkExn FileNotFoundError "Keystore not found."), w)
  | Some data =>
      match aes_decrypt data password with
      | Raise e => (Raise (unlock_error e), w)
      | Ok k =>
          match from_key k with
          | Raise e => (Raise e, set_self (set_private_key (Some k)) w)
          | Ok acct => (Ok (acct_address acct), unlocked_with k w)
          end
      end
  end.
Proof.
  unfold unlock, mbind, M_bind, get_state, os_path_exists, try_exceptM, read_file,
    modify, mret, M_ret, reraise, throw, lift, unlock_error, unlocked_with.
  cbv beta iota.
  destruct (files w !! storage_path (self w)) as [data|] eqn:Hf; [|reflexivity].
  replace (bool_decide (is_Some (Some data))) with true by reflexivity.
  cbn [negb]. cbv beta iota. rewrite Hf. cbv beta iota.
  destruct (aes_decrypt data password) as [k|e]; cbv beta iota.
  - destruct (from_key k) as [acct|e] eqn:E; [|reflexivity].
    apply from_key_ok in E as [_ ->]. reflexivity.
  - destruct (issubclass (exn_cls e) WrongPassword); [reflexivity|].
    destruct (issubclass (exn_cls e) HMACVerificationFailed); reflexivity.
Qed.

Lemma lock_eq (w : world) :
  lock w = (Ok tt, set_self (set_unlocked false) (set_self (set_private_key None) w)).
Proof. reflexivity. Qed.

Lemma sign_message_locked (message : list byte) (w : world) :
  unlocked (self w) = false -> sign_message message w = (Raise locked_error, w).
Proof.
  intros H. unfold sign_message, mbind, M_bind, get_state. now rewrite H.
Qed.

Lemma sign_transaction_locked (tx : tx_dict) (w : world) :
  unlocked (self w) = false -> sign_transaction tx w = (Raise locked_error, w).
Proof.
  intros H. unfold sign_transaction, mbind, M_bind, get_state. now rewrite H.
Qed.

Lemma sign_userop_locked (h : list byte) (w : world) :
  unlocked (self w) = false -> sign_userop h w = (Raise locked_error, w).
Proof.
  intros H. unfold sign_userop, mbind, M_bind, get_state. now rewrite H.
Qed.

(** The sign operations with a key in place: what the library answers, with
    its exceptions wrapped. *)
Definition wrapped {A} (prefix : string) (r : result A) : result A :=
  try_except r (fun e => raise CryptoError (prefix +:+ exn_msg e)).

Lemma sign_message_unlocked (message k : list byte) (w : world) :
  unlocked (self w) = true -> _private_key (self w) = Some k ->
  sign_message message w =
  (wrapped "Sign message failed: "
     (acct ← from_key k; acct_sign_message acct message), w).
Proof.
  intros H Hk.
  unfold sign_message, mbind at 1, M_bind, get_state, try_exceptM, lift,
    from_resident_key, wrapped, throw.
  rewrite H, Hk. cbn [negb].
  unfold mbind, M_bind.
  destruct (from_key k) as [acct|e]; [|reflexivity].
  cbn [result_bind]. destruct (acct_sign_message acct message); reflexivity.
Qed.

Lemma sign_transaction_unlocked (tx : tx_dict) (k : list byte) (w : world) :
  unlocked (self w) = true -> _private_key (self w) = Some k ->
  sign_transaction tx w =
  (wrapped "Sign transaction failed: "
     (acct ← from_key k; sign_transaction_dict (acct_key acct) tx), w).
Proof.
  intros H Hk.
  unfold sign_transaction, mbind at 1, M_bind, get_state, try_exceptM, lift,
    from_resident_key, wrapped, throw.
  rewrite H, Hk. cbn [negb].
  unfold mbind, M_bind.
  destruct (from_key k) as [acct|e]; [|reflexivity].
  cbn [result_bind]. destruct (sign_transaction_dict (acct_key acct) tx); reflexivity.
Qed.

Lemma sign_userop_unlocked (h k : list byte) (w : world) :
  unlocked (self w) = true -> _private_key (self w) = Some k ->
  sign_userop h w =
  (wrapped "Sign UserOperation failed: "
     (acct ← from_key k; signed ← sign_hash acct h; Ok (sig_signature signed)), w).
Proof.
  intros H Hk.
  unfold sign_userop, mbind at 1, M_bind, get_state, try_exceptM, lift,
    from_resident_key, wrapped, throw.
  rewrite H, Hk. cbn [negb].
  unfold mbind, M_bind, mret, M_ret.
  destruct (from_key k) as [acct|e]; [|reflexivity].
  cbn [result_bind]. destruct (sign_hash acct h); reflexivity.
Qed.

(** *** Calls that leave the lock state alone *)

(** [w'] has the lock state of [w]: the flag, the resident key, the path of
    the keystore and what can be written. *)
Definition frame (w w' : world) : Prop :=
  unlocked (self w') = unlocked (self w) /\
  _private_key (self w') = _private_key (self w) /\
  storage_path (self w') = storage_path (self w) /\
  writable w' = writable w.

Definition keeps_lock_state {A} (m : M world A) : Prop :=
  forall w, frame w (snd (m w)).

Lemma frame_refl (w : world) : frame w w.
Proof. repeat split. Qed.

Lemma frame_trans (w1 w2 w3 : world) : frame w1 w2 -> frame w2 w3 -> frame w1 w3.
Proof.
  intros (A1 & A2 & A3 & A4) (B1 & B2 & B3 & B4).
  repeat split; congruence.
Qed.

Lemma keeps_bind {A B} (m : M world A) (k : A -> M world B) :
  keeps_lock_state m -> (forall a, keeps_lock_state (k a)) ->
  keeps_lock_state (m ≫= k).
Proof.
  intros Hm Hk w. specialize (Hm w). unfold mbind, M_bind.
  destruct (m w) as [[a|e] w1]; cbn [snd] in *; [|exact Hm].
  eapply frame_trans; [exact Hm | apply Hk].
Qed.

Lemma keeps_try {A} (m : M world A) (h : exn -> M world A) :
  keeps_lock_state m -> (forall e, keeps_lock_state (h e)) ->
  keeps_lock_state (try_exceptM m h).
Proof.
  intros Hm Hh w. specialize (Hm w). unfold try_exceptM.
  destruct (m w) as [[a|e] w1]; cbn [snd] in *; [exact Hm|].
  eapply frame_trans; [exact Hm | apply Hh].
Qed.

Lemma keeps_if {A} (c : bool) (m1 m2 : M world A) :
  keeps_lock_state m1 -> keeps_lock_state m2 ->
  keeps_lock_state (if c then m1 else m2).
Proof. now destruct c. Qed.

Lemma keeps_lift {A} (r : result A) : keeps_lock_state (lift r).
Proof. intros w. apply frame_refl. Qed.

Lemma keeps_throw {A} (c : exn_class) (msg : string) :
  keeps_lock_state (@throw world A c msg).
Proof. intros w. apply frame_refl. Qed.

Lemma keeps_ret {A} (a : A) : keeps_lock_state (mret a).
Proof. intros w. apply frame_refl. Qed.

Lemma keeps_get_state : keeps_lock_state get_state.
Proof. intros w. apply frame_refl. Qed.

Lemma keeps_set_address (a : option string) :
  keeps_lock_state (modify (set_self (set_address a))).
Proof. intros w. repeat split. Qed.

Lemma keeps_with_rng {A} (m : M entropy A) : keeps_lock_state (with_rng m).
Proof. intros w. unfold with_rng. destruct (m (rng w)). repeat split. Qed.

Lemma keeps_os_path_exists (path : string) : keeps_lock_state (os_path_exists path).
Proof. intros w. apply frame_refl. Qed.

Lemma keeps_read_file (path : string) : keeps_lock_state (read_file path).
Proof. intros w. unfold read_file. destruct (files w !! path); apply frame_refl. Qed.

Lemma keeps_write_file (path : string) (data : list byte) :
  keeps_lock_state (write_file path data).
Proof.
  intros w. unfold write_file. destruct (writable w path); repeat split.
Qed.

Lemma keeps_reraise {A} (s1 s2 s3 : string) (e : exn) :
  keeps_lock_state (@reraise A s1 s2 s3 e).
Proof. unfold reraise. repeat apply keeps_if; apply keeps_throw. Qed.

Create HintDb keeps discriminated.
#[local] Hint Resolve keeps_lift keeps_throw keeps_ret keeps_get_state
  keeps_set_address keeps_with_rng keeps_os_path_exists keeps_read_file
  keeps_write_file keeps_reraise : keeps.

(** Splits a method into its statements and closes each with the lemmas
    above; nothing is unfolded on the way. *)
Ltac keeps_tac :=
  repeat first
    [ simple apply keeps_bind; [|intros ?]
    | simple apply keeps_try; [|intros ?]
    | simple apply keeps_if
    | solve [auto 1 with keeps nocore] ].

Lemma keeps_create_new_key (password : string) :
  keeps_lock_state (create_new_key password).
Proof. unfold create_new_key, Account_create. keeps_tac. Qed.









(** *** Failed unlock *)





(** *** The resident key *)







(** *** Creating and importing a key *)

Definition with_entropy (e : entropy) (w : world) : world :=
  {| self := self w; files := files w; writable := writable w; rng := e |}.

(** The world after a keystore blob has been written and the address set. *)
Definition stored (blob : list byte) (addr : string) (e : entropy) (w : world) : world :=
  {| self := set_address (Some addr) (self w);
     files := <[storage_path (self w) := blob]> (files w);
     writable := writable w;
     rng := e |}.

Definition create_error (msg : string) : exn :=
  mkExn CryptoError ("Create key failed: " +:+ msg).


(** [create_new_key], path by path. *)
Lemma create_new_key_eq (password : string) (w : world) :
  create_new_key password w =
  let k := keccak (map (rng w) (seq 0 32)) in
  let e1 : entropy := fun i => rng w (32 + i) in
  match from_key k with
  | Raise x => (Raise (create_error (exn_msg x)), with_entropy e1 w)
  | Ok _ =>
      match aes_encrypt k password e1 with
      | (Raise x, e2) => (Raise (create_error (exn_msg x)), with_entropy e2 w)
      | (Ok blob, e2) =>
          if writable w (storage_path (self w))
          then (Ok (address_of k), stored blob (address_of k) e2 w)
          else (Raise (create_error "cannot open file for writing"),
                with_entropy e2 w)
      end
  end.
Proof.
  unfold create_new_key, Account_create, mbind, M_bind, try_exceptM, with_rng,
    os_urandom, get_state, write_file, modify, mret, M_ret, throw, lift,
    create_error, with_entropy, stored.
  cbv beta iota zeta.
  destruct (from_key (keccak (map (rng w) (seq 0 32)))) as [acct|x] eqn:Hk;
    [|reflexivity].
  apply from_key_ok in Hk as [_ ->]. cbn [acct_key acct_address rng self].
  destruct (aes_encrypt _ password _) as [[blob|x] e2]; [|reflexivity].
  cbn [self writable files rng].
  destruct (writable w (storage_path (self w))); reflexivity.
Qed.




(** A new signer. *)
Definition fresh (path : string) (fs : gmap string (list byte))
           (wr : string -> bool) (e : entropy) : world :=
  {| self := init path; files := fs; writable := wr; rng := e |}.


(** *** Signing *)

Lemma unlock_ok (password : string) (w w' : world) (addr : string) :
  unlock password w = (Ok addr, w') ->
  exists k,
    from_key k = Ok {| acct_key := k; acct_address := addr |} /\
    w' = unlocked_with k w.
Proof.
  rewrite unlock_eq.
  destruct (files w !! storage_path (self w)) as [data|]; [|discriminate].
  destruct (aes_decrypt data password) as [k|x]; [|discriminate].
  destruct (from_key k) as [acct|x] eqn:Hk; [|discriminate].
  intros H. apply CipherFacts.pair_Ok_inj in H as [<- <-].
  exists k. split; [|reflexivity].
  destruct (from_key_ok k acct Hk) as [_ ->]. exact Hk.
Qed.

Lemma length_int_to_big_endian (v : Z) :
  (0 <= v < 2 ^ 256)%Z -> 1 <= length (int_to_big_endian v) <= 32.
Proof.
  intros Hv. unfold int_to_big_endian. rewrite AccountFacts.length_to_be.
  assert (H : (0 <= Z.log2 v < 256)%Z).
  { split; [apply Z.log2_nonneg|].
    destruct (Z.eq_dec v 0%Z) as [->|Hz]; [reflexivity|].
    apply Z.log2_lt_pow2; lia. }
  assert (((Z.log2 v + 8) / 8 < 33)%Z) by (apply Z.div_lt_upper_bound; lia).
  lia.
Qed.

Lemma length_to_bytes32 (v : Z) :
  (0 <= v < 2 ^ 256)%Z -> length (to_bytes32 v) = 32.
Proof.
  intros Hv. unfold to_bytes32. rewrite length_app, repeat_length.
  pose proof (length_int_to_big_endian v Hv). lia.
Qed.

(** *** A keystore that has just been written *)

(** [unlock] on a world whose keystore file decrypts to [k]. *)
Lemma unlock_stored (password : string) (w : world) (blob k : list byte) :
  files w !! storage_path (self w) = Some blob ->
  aes_decrypt blob password = Ok k ->
  unlock password w =
  match from_key k with
  | Raise x => (Raise x, set_self (set_private_key (Some k)) w)
  | Ok acct => (Ok (acct_address acct), unlocked_with k w)
  end.
Proof. intros Hf Hd. rewrite unlock_eq, Hf, Hd. reflexivity. Qed.

(** [create_new_key] returns when the file can be written and the library
    accepts the key it has drawn; [unlock] with the same password then
    returns the same address. *)
Lemma create_then_unlock (password : string) (w : world) :
  writable w (storage_path (self w)) = true ->
  is_ok (from_key (keccak (map (rng w) (seq 0 32)))) = true ->
  exists addr w1 k,
    create_new_key password w = (Ok addr, w1) /\
    unlock password w1 = (Ok addr, unlocked_with k w1) /\
    is_ok (from_key k) = true.
Proof.
  intros Hw Hk. rewrite create_new_key_eq. cbv zeta.
  set (k := keccak (map (rng w) (seq 0 32))) in *.
  destruct (from_key k) as [acct|x] eqn:Ha; [|discriminate Hk].
  destruct (CipherFacts.encrypt_then_decrypt k password (fun i => rng w (32 + i)))
    as (blob & e2 & Henc & Hdec).
  rewrite Henc, Hw.
  exists (address_of k), (stored blob (address_of k) e2 w), k.
  split; [reflexivity|]. split; [|now rewrite Ha].
  rewrite (unlock_stored password _ blob k); [| |exact Hdec].
  - rewrite Ha. destruct (from_key_ok k acct Ha) as [_ ->]. reflexivity.
  - cbn [stored files self storage_path set_address]. apply lookup_insert_eq.
Qed.












Section Laws.

Context {laws : EthAccountLaws lib}.

(** [Account._sign_hash] on a hash of 32 bytes returns a signature of
    65 bytes: r, s and the recovery byte. *)
Lemma sign_hash_ok (acct : LocalAccount) (h : list byte) :
  length h = 32 ->
  exists signed, sign_hash acct h = Ok signed /\ length (sig_signature signed) = 65.
Proof.
  intros Hh. unfold sign_hash. rewrite Hh. cbn [Nat.eqb negb].
  pose proof (ecdsa_sign_range (acct_key acct) h) as R.
  destruct (ecdsa_sign (acct_key acct) h) as [[parity r] s0].
  destruct R as [Hr Hs].
  eexists. split; [reflexivity|]. cbn [sig_signature].
  rewrite !length_app, !length_to_bytes32 by assumption.
  destruct parity; reflexivity.
Qed.

Lemma sign_hash_bad_length (acct : LocalAccount) (h : list byte) :
  length h <> 32 -> raises (sign_hash acct h) ValueError.
Proof.
  intros Hh. unfold sign_hash.
  destruct (Nat.eqb_spec (length h) 32); [contradiction | reflexivity].
Qed.

(** What the sign operations answer on a signer that is unlocked with a key
    that [Account.from_key] accepts. *)
Lemma signing_with_key (k : list byte) (acct : LocalAccount) (w : world) :
  unlocked (self w) = true -> _private_key (self w) = Some k ->
  from_key k = Ok acct ->
  (forall message, exists signed, sign_message message w = (Ok signed, w)) /\
  (forall tx, sign_transaction tx w =
              (wrapped "Sign transaction failed: " (sign_transaction_dict k tx), w)) /\
  (forall h, length h = 32 ->
             exists sg, sign_userop h w = (Ok sg, w) /\ length sg = 65) /\
  (forall h, length h <> 32 ->
             raises (fst (sign_userop h w)) CryptoError /\ snd (sign_userop h w) = w).
Proof.
  intros Hu Hk Ha.
  destruct (from_key_ok k acct Ha) as [_ Hacct].
  split; [|split; [|split]].
  - intros message. rewrite (sign_message_unlocked message k w Hu Hk), Ha.
    cbn [mbind result_bind]. unfold acct_sign_message.
    destruct (sign_hash_ok acct (defunct_hash message)) as (signed & E & _);
      [apply keccak_length|].
    rewrite E. now exists signed.
  - intros tx. rewrite (sign_transaction_unlocked tx k w Hu Hk), Ha.
    cbn [mbind result_bind]. now rewrite Hacct.
  - intros h Hh. rewrite (sign_userop_unlocked h k w Hu Hk), Ha.
    cbn [mbind result_bind].
    destruct (sign_hash_ok acct h Hh) as (signed & E & L).
    rewrite E. cbn [mbind result_bind wrapped try_except]. eauto.
  - intros h Hh. rewrite (sign_userop_unlocked h k w Hu Hk), Ha.
    cbn [mbind result_bind fst snd]. split; [|reflexivity].
    pose proof (sign_hash_bad_length acct h Hh) as R.
    destruct (sign_hash acct h); [contradiction | reflexivity].
Qed.

Definition locked_out {A} (r : result A * world) (w : world) : Prop :=
  r = (Raise locked_error, w).

(** C4.  Lock gating.  On a new signer and after any [lock], each sign
    operation raises [PermissionError] ("Wallet is locked.").  After an
    [unlock] that returned, [sign_message] returns for every message,
    [sign_userop] returns for every hash of 32 bytes, and
    [sign_transaction] returns what the library's transaction signer
    answers for the dictionary under the resident key (its exception, if
    any, wrapped as [CryptoError]); none of them raises [PermissionError].
    After a [lock] that follows, each of them raises [PermissionError]
    again. *)
Theorem lock_gating :
  (forall path fs wr e message tx h,
      let w := fresh path fs wr e in
      locked_out (sign_message message w) w /\
      locked_out (sign_transaction tx w) w /\
      locked_out (sign_userop h w) w) /\
  (forall w0 message tx h,
      let w := snd (lock w0) in
      locked_out (sign_message message w) w /\
      locked_out (sign_transaction tx w) w /\
      locked_out (sign_userop h w) w) /\
  (forall w0 password addr w,
      unlock password w0 = (Ok addr, w) ->
      (forall message, exists signed, sign_message message w = (Ok signed, w)) /\
      (exists k, _private_key (self w) = Some k /\
         forall tx, sign_transaction tx w =
           (wrapped "Sign transaction failed: " (sign_transaction_dict k tx), w)) /\
      (forall tx, ~ raises (fst (sign_transaction tx w)) PermissionError) /\
      (forall h, length h = 32 ->
                 exists sg, sign_userop h w = (Ok sg, w) /\ length sg = 65) /\
      (forall message tx h,
          let w' := snd (lock w) in
          locked_out (sign_message message w') w' /\
          locked_out (sign_transaction tx w') w' /\
          locked_out (sign_userop h w') w')).
Proof.
  assert (Hlocked : forall w message tx h,
             unlocked (self w) = false ->
             locked_out (sign_message message w) w /\
             locked_out (sign_transaction tx w) w /\
             locked_out (sign_userop h w) w).
  { intros w message tx h Hw. unfold locked_out.
    now rewrite sign_message_locked, sign_transaction_locked, sign_userop_locked. }
  split; [|split].
  - intros path fs wr e message tx h w. now apply Hlocked.
  - intros w0 message tx h w. now apply Hlocked.
  - intros w0 password addr w Hun.
    destruct (unlock_ok password w0 w addr Hun) as (k & Hk & ->).
    destruct (signing_with_key k _ (unlocked_with k w0) eq_refl eq_refl Hk)
      as (S1 & S2 & S3 & _).
    split; [exact S1|]. split; [exists k; split; [reflexivity | exact S2]|].
    split; [|split; [exact S3|]].
    + intros tx. rewrite S2. cbn [fst]. unfold wrapped.
      destruct (sign_transaction_dict k tx); cbn; [tauto | discriminate].
    + intros message tx h w'. now apply Hlocked.
Qed.


End Laws.

End Facts.

(** *** Concrete runs *)

(** A stand-in for the signing library that keeps its laws: constant digest,
    every 32-byte scalar accepted, constant signature. *)
Definition stub : EthAccount := {|
  keccak := fun _ => repeat x00 32;
  scalar_ok := fun _ => true;
  address_of := fun _ => "0x0000000000000000000000000000000000000000";
  ecdsa_sign := fun _ _ => (false, 1%Z, 1%Z);
  tx_dict := unit;
  signed_tx := unit;
  sign_transaction_dict := fun _ _ => Ok tt
|}.

Lemma stub_laws : EthAccountLaws stub.
Proof.
  split.
  - intros msg. apply repeat_length.
  - intros key hash. cbn. lia.
Qed.

Definition new_signer : world :=
  fresh "keystore.json" ∅ (fun _ => true) CipherFacts.zero_entropy.

Definition zero_hash : list byte := repeat x00 32.


Lemma stub_create_unlock :
  exists addr w1 k,
    @create_new_key stub "abc" new_signer = (Ok addr, w1) /\
    @unlock stub "abc" w1 = (Ok addr, @unlocked_with stub k w1) /\
    is_ok (@from_key stub k) = true.
Proof. apply (@create_then_unlock stub "abc" new_signer); reflexivity. Qed.

(** Create a key, unlock, sign the all-zero hash, lock, sign again. *)
Lemma lock_gating_witness :
  exists addr w1 w2,
    @create_new_key stub "abc" new_signer = (Ok addr, w1) /\
    @unlock stub "abc" w1 = (Ok addr, w2) /\
    locked_out (@sign_userop stub zero_hash w1) w1 /\
    (exists sg, @sign_userop stub zero_hash w2 = (Ok sg, w2) /\ length sg = 65) /\
    locked_out (@sign_userop stub zero_hash (snd (lock w2))) (snd (lock w2)).
Proof.
  destruct stub_create_unlock as (addr & w1 & k & Hc & Hu & _).
  destruct (@lock_gating stub stub_laws) as (_ & _ & G3).
  destruct (G3 w1 "abc" addr _ Hu) as (_ & _ & _ & S & L).
  exists addr, w1, (@unlocked_with stub k w1).
  split; [exact Hc|]. split; [exact Hu|]. split.
  - apply sign_userop_locked.
    destruct (@keeps_create_new_key stub "abc" new_signer) as [E _].
    rewrite Hc in E. exact E.
  - split; [apply S; reflexivity|]. apply (L [] tt zero_hash).
Defined.



End KeyManagerFacts.

(* ------------------------------------------------------------------------- *)
(** ** crypto_utils.py: the text form of a keystore *)

Module KeystoreText.
Import crypto_utils.

#[local] Opaque PBKDF2.F SHA256.sha256 AES.encrypt_block.

(** The characters that [binascii.a2b_base64] looks at: the alphabet and the
    pad.  Every other character is passed over. *)
Definition significant (c : byte) : bool :=
  byte_eqb c Base64.BASE64_PAD || bool_decide (is_Some (Base64.table_a2b_base64 c)).

Lemma a2b_loop_filter (s : list byte) :
  forall (q : nat) (lc : N) (p : nat),
    Base64.a2b_loop (List.filter significant s) q lc p = Base64.a2b_loop s q lc p.
Proof.
  induction s as [|c s IH]; intros q lc p; [reflexivity|].
  cbn [List.filter]. unfold significant at 1.
  destruct (byte_eqb c Base64.BASE64_PAD) eqn:Hp.
  - cbn [orb]. cbn [Base64.a2b_loop]. rewrite Hp.
    destruct ((2 <=? q) && (4 <=? q + S p)); [reflexivity | apply IH].
  - cbn [orb]. destruct (Base64.table_a2b_base64 c) as [v|] eqn:Ht.
    + rewrite bool_decide_eq_true_2 by (now exists v).
      cbn [Base64.a2b_loop]. rewrite Hp, Ht.
      destruct q as [|[|[|q]]]; now rewrite IH.
    + rewrite bool_decide_eq_false_2 by (intros [v Hv]; discriminate).
      rewrite IH. cbn [Base64.a2b_loop]. now rewrite Hp, Ht.
Qed.

Lemma b64decode_filter (s : list byte) :
  Base64.b64decode (List.filter significant s) = Base64.b64decode s.
Proof. apply a2b_loop_filter. Qed.

Lemma b2a_significant (v : N) : (v < 64)%N -> significant (Base64.b2a v) = true.
Proof.
  intros Hv. destruct (Base64Facts.table_inverse v Hv) as [E _].
  unfold significant. rewrite E. apply orb_true_r.
Qed.

Lemma b64encode_significant (s : list byte) :
  Forall (fun c => significant c = true) (Base64.b64encode s).
Proof.
  induction s as [|a|a b|a b c s IH] using Base64Facts.list_ind3.
  - constructor.
  - rewrite Base64Facts.b64encode_one.
    destruct (Base64Facts.sextets_first a x00) as (B0 & B1 & _).
    repeat (apply Forall_cons; split); auto using b2a_significant.
  - rewrite Base64Facts.b64encode_two.
    destruct (Base64Facts.sextets_first a b) as (B0 & B1 & _).
    destruct (Base64Facts.sextets_second b x00) as (B2 & _).
    repeat (apply Forall_cons; split); auto using b2a_significant.
  - rewrite Base64Facts.b64encode_group.
    destruct (Base64Facts.sextets_first a b) as (B0 & B1 & _).
    destruct (Base64Facts.sextets_second b c) as (B2 & _).
    destruct (Base64Facts.sextets_third c) as (B3 & _).
    repeat (apply Forall_cons; split); auto using b2a_significant.
Qed.

Lemma filter_all {A} (f : A -> bool) (l : list A) :
  Forall (fun c => f c = true) l -> List.filter f l = l.
Proof.
  induction 1 as [|c l Hc _ IH]; [reflexivity|].
  cbn [List.filter]. rewrite Hc. now rewrite IH.
Qed.

Lemma filter_none {A} (f : A -> bool) (l : list A) :
  Forall (fun c => f c = false) l -> List.filter f l = [].
Proof.
  induction 1 as [|c l Hc _ IH]; [reflexivity|].
  cbn [List.filter]. rewrite Hc. exact IH.
Qed.


Lemma decrypt_blocks_length (key : list byte) (n : nat) :
  forall data prev, length data <= n ->
    length (CFB.decrypt_blocks key prev (chunks 16 data)) = length data.
Proof.
  induction n as [|n IH]; intros data prev Hn.
  - destruct data; [reflexivity | simpl in Hn; lia].
  - destruct data as [|x data]; [reflexivity|].
    rewrite chunks_step by (lia || easy).
    cbn [CFB.decrypt_blocks]. rewrite length_app, length_xor_bytes.
    rewrite IH by (rewrite length_skipn; simpl in *; lia).
    rewrite encrypt_block_length, length_firstn, length_skipn. lia.
Qed.

(** [aes_decrypt] looks at its text through [base64.b64decode] only. *)
Lemma aes_decrypt_decoding (t1 t2 : list byte) (password : string) :
  Base64.b64decode t1 = Base64.b64decode t2 ->
  aes_decrypt t1 password = aes_decrypt t2 password.
Proof. intros H. unfold aes_decrypt. rewrite H. reflexivity. Qed.

(** What [aes_decrypt] can answer for a text, by what the text decodes to. *)
Lemma aes_decrypt_cases (text : list byte) (password : string) :
  match Base64.b64decode text with
  | Raise _ =>
      aes_decrypt text password =
      raise CryptoError "Base64 decode failed (corrupted keystore)."
  | Ok raw =>
      if length raw <? 64
      then aes_decrypt text password =
           raise CryptoError "Encrypted data too short or invalid."
      else (exists m, aes_decrypt text password = Ok m /\
                      length m = length raw - 64) \/
           aes_decrypt text password = Raise CipherFacts.integrity_error
  end.
Proof.
  destruct (Base64.b64decode text) as [raw|x] eqn:Hd.
  - destruct (Nat.ltb_spec (length raw) 64) as [Hlt|Hge].
    + unfold aes_decrypt. rewrite Hd. cbn [try_except mbind result_bind].
      destruct (Nat.ltb_spec (length raw) (16 + 16 + 32)) as [_|H]; [reflexivity | lia].
    + destruct (CipherFacts.blob_fields raw Hge) as (salt & iv & ct & mac & E & Ls & Li & Lm).
      rewrite E in Hd.
      rewrite (CipherFacts.aes_decrypt_decoded text password salt iv ct mac Ls Li Lm Hd).
      cbv zeta.
      destruct (HMAC.compare_digest mac _); [left | right; reflexivity].
      eexists. split; [reflexivity|].
      unfold CFB.decryptor_run.
      rewrite E, !length_app, Ls, Li, Lm.
      replace (16 + (16 + (length ct + 32)) - 64) with (length ct) by lia.
      cbn [fst snd].
      apply (decrypt_blocks_length _ (length ct)). reflexivity.
  - unfold aes_decrypt. rewrite Hd. reflexivity.
Qed.


(** [aes_decrypt] raises the plain [CryptoError] exactly when the text does
    not decode to 64 bytes or more, raises nothing else but
    [HMACVerificationFailed], and so never raises [WrongPassword]; when it
    returns, the plaintext is 64 bytes shorter than the decoded text. *)
Theorem decrypt_error_classes (text : list byte) (password : string) :
  (raises (aes_decrypt text password) CryptoError <->
   forall raw, Base64.b64decode text = Ok raw -> length raw < 64) /\
  (forall x, aes_decrypt text password = Raise x ->
             exn_cls x = CryptoError \/ exn_cls x = HMACVerificationFailed) /\
  ~ raises (aes_decrypt text password) WrongPassword /\
  (forall m, aes_decrypt text password = Ok m ->
             exists raw, Base64.b64decode text = Ok raw /\
                         length raw = 64 + length m).
Proof.
  pose proof (aes_decrypt_cases text password) as H.
  destruct (Base64.b64decode text) as [raw|x0] eqn:Hd.
  - destruct (Nat.ltb_spec (length raw) 64) as [Hlt|Hge].
    + rewrite H. split; [|split; [|split]].
      * split; [|reflexivity]. intros _ raw' E. apply CipherFacts.Ok_inj in E.
        now subst raw'.
      * intros x E. left. unfold raise in E. injection E as <-. reflexivity.
      * discriminate.
      * discriminate.
    + destruct H as [(m & H & Hm)|H]; rewrite H; (split; [|split; [|split]]).
      * split; [contradiction|]. intros Hs. specialize (Hs raw eq_refl). lia.
      * discriminate.
      * exact (fun F => F).
      * intros m' E. apply CipherFacts.Ok_inj in E. subst m'.
        exists raw. split; [reflexivity | lia].
      * split; [discriminate|]. intros Hs. specialize (Hs raw eq_refl). lia.
      * intros x E. right. injection E as <-. reflexivity.
      * discriminate.
      * discriminate.
  - rewrite H. split; [|split; [|split]].
    + split; [discriminate | reflexivity].
    + intros x E. left. unfold raise in E. injection E as <-. reflexivity.
    + discriminate.
    + discriminate.
Qed.

(** White space, line breaks and any other character outside the base64
    alphabet are passed over: every text whose alphabet and pad characters
    are those of the keystore blob, in order, decrypts to the plaintext; so
    does the blob between two runs of such characters. *)
Theorem keystore_text_lenient (m : list byte) (password : string) (e : entropy) :
  exists blob e',
    aes_encrypt m password e = (Ok blob, e') /\
    (forall text, List.filter significant text = blob ->
                  aes_decrypt text password = Ok m) /\
    (forall before after,
        Forall (fun c => significant c = false) before ->
        Forall (fun c => significant c = false) after ->
        aes_decrypt (before ++ blob ++ after) password = Ok m).
Proof.
  destruct (CipherFacts.aes_encrypt_body_ok m password e) as (l & e' & Hbody & _).
  destruct (CipherFacts.encrypt_then_decrypt m password e) as (blob & e0 & Henc & Hdec).
  pose proof (CipherFacts.aes_encrypt_ok m password e l e' Hbody) as Henc'.
  rewrite Henc in Henc'. apply CipherFacts.pair_Ok_inj in Henc' as [Hb _].
  exists blob, e0. split; [exact Henc|].
  assert (Hall : forall text, List.filter significant text = blob ->
                              aes_decrypt text password = Ok m).
  { intros text Ht. rewrite <- Hdec. apply aes_decrypt_decoding.
    rewrite <- Ht. symmetry. apply b64decode_filter. }
  split; [exact Hall|].
  intros before after Hb1 Hb2. apply Hall.
  rewrite !List.filter_app, (filter_none _ before Hb1), (filter_none _ after Hb2).
  rewrite app_nil_r. cbn [app]. apply filter_all.
  rewrite Hb. apply b64encode_significant.
Qed.

End KeystoreText.

(* ------------------------------------------------------------------------- *)
(** ** keyManager.py: the keystore file *)

Module KeystoreFacts.
Import keyManager crypto_utils KeyManagerFacts.

#[local] Opaque aes_decrypt aes_encrypt PBKDF2.F SHA256.sha256 AES.encrypt_block.

(** *** Hexadecimal keys *)









Section Facts.

Context {lib : EthAccount}.

(** *** Path by path *)

(** The exception that [import_keystore] raises for an exception of its
    body. *)
Definition keystore_error (e : exn) : exn :=
  if issubclass (exn_cls e) WrongPassword
  then mkExn WrongPassword "Incorrect password."
  else if issubclass (exn_cls e) HMACVerificationFailed
  then mkExn HMACVerificationFailed "Keystore has been tampered."
  else mkExn CryptoError ("Import keystore failed: " +:+ exn_msg e).

Definition export_error (msg : string) : exn :=
  mkExn CryptoError ("Export keystore failed: " +:+ msg).

Lemma export_keystore_eq (dest_path : string) (w : world) :
  export_keystore dest_path w =
  match files w !! storage_path (self w) with
  | None => (Raise (mkExn FileNotFoundError "Keystore not found."), w)
  | Some data =>
      if writable w dest_path
      then (Ok tt, set_files (insert dest_path data) w)
      else (Raise (export_error "cannot open file for writing"), w)
  end.
Proof.
  unfold export_keystore, mbind, M_bind, get_state, os_path_exists, try_exceptM,
    read_file, write_file, throw, lift, export_error.
  cbv beta iota.
  destruct (files w !! storage_path (self w)) as [data|] eqn:Hf; [|reflexivity].
  replace (bool_decide (is_Some (Some data))) with true by reflexivity.
  cbn [negb]. cbv beta iota. rewrite Hf. cbv beta iota.
  destruct (writable w dest_path); reflexivity.
Qed.

Lemma import_keystore_eq (src_path password : string) (w : world) :
  import_keystore src_path password w =
  match files w !! src_path with
  | None =>
      (Raise (keystore_error (mkExn FileNotFoundError "No such file or directory")), w)
  | Some data =>
      match aes_decrypt data password with
      | Raise e => (Raise (keystore_error e), w)
      | Ok k =>
          match from_key k with
          | Raise e => (Raise (keystore_error e), w)
          | Ok _ =>
              if writable w (storage_path (self w))
              then (Ok (address_of k), stored data (address_of k) (rng w) w)
              else (Raise (keystore_error (mkExn OSError "cannot open file for writing")),
                    w)
          end
      end
  end.
Proof.
  unfold import_keystore, mbind, M_bind, get_state, try_exceptM, read_file,
    write_file, modify, mret, M_ret, reraise, throw, lift, keystore_error, stored.
  cbv beta iota.
  destruct (files w !! src_path) as [data|]; [|reflexivity].
  cbv beta iota.
  destruct (aes_decrypt data password) as [k|e]; cbv beta iota.
  - destruct (from_key k) as [acct|e] eqn:E; cbv beta iota.
    + apply from_key_ok in E as [_ ->]. cbn [acct_address].
      destruct (writable w (storage_path (self w))); [|reflexivity].
      destruct w as [s f wr r]. reflexivity.
    + destruct (issubclass (exn_cls e) WrongPassword); [reflexivity|].
      destruct (issubclass (exn_cls e) HMACVerificationFailed); reflexivity.
  - destruct (issubclass (exn_cls e) WrongPassword); [reflexivity|].
    destruct (issubclass (exn_cls e) HMACVerificationFailed); reflexivity.
Qed.


Lemma keystore_error_class (e : exn) :
  exn_cls e <> WrongPassword ->
  (exn_cls e = HMACVerificationFailed /\
   exn_cls (keystore_error e) = HMACVerificationFailed) \/
  (exn_cls e <> HMACVerificationFailed /\
   exn_cls (keystore_error e) = CryptoError).
Proof.
  unfold keystore_error. destruct (exn_cls e); intros H; cbn;
    try contradiction; (left; split; [reflexivity | reflexivity]) ||
                        (right; split; [discriminate | reflexivity]).
Qed.


(** [create_new_key] where the file can be written and the library accepts
    the key that was drawn: the blob that is stored decrypts to that key. *)
Lemma create_new_key_stored (password : string) (w : world) :
  writable w (storage_path (self w)) = true ->
  is_ok (from_key (keccak (map (rng w) (seq 0 32)))) = true ->
  exists blob e2,
    create_new_key password w =
      (Ok (address_of (keccak (map (rng w) (seq 0 32)))),
       stored blob (address_of (keccak (map (rng w) (seq 0 32)))) e2 w) /\
    aes_decrypt blob password = Ok (keccak (map (rng w) (seq 0 32))).
Proof.
  intros Hw Hk. rewrite create_new_key_eq. cbv zeta.
  set (k := keccak (map (rng w) (seq 0 32))) in *.
  destruct (from_key k) as [acct|x] eqn:Ha; [|discriminate Hk].
  destruct (CipherFacts.encrypt_then_decrypt k password (fun i => rng w (32 + i)))
    as (blob & e2 & Henc & Hdec).
  rewrite Henc, Hw. exists blob, e2. split; [reflexivity | exact Hdec].
Qed.


(** [unlock] where the keystore holds a blob of a key that the library
    accepts. *)
Lemma unlock_valid (password : string) (w : world) (blob k : list byte) :
  files w !! storage_path (self w) = Some blob ->
  aes_decrypt blob password = Ok k ->
  is_ok (from_key k) = true ->
  unlock password w = (Ok (address_of k), unlocked_with k w).
Proof.
  intros Hf Hd Hk. rewrite (unlock_stored password w blob k Hf Hd).
  destruct (from_key k) as [acct|x] eqn:Ha; [|discriminate Hk].
  destruct (from_key_ok k acct Ha) as [_ ->]. reflexivity.
Qed.

Lemma stored_lookup (blob : list byte) (addr : string) (e : entropy) (w : world) :
  files (stored blob addr e w) !! storage_path (self (stored blob addr e w)) = Some blob.
Proof. cbn [stored files self storage_path set_address]. apply lookup_insert_eq. Qed.

(** *** Creating, importing, unlocking *)





(** *** Exporting and importing the keystore *)

(** [export_keystore] raises [FileNotFoundError] exactly when there is no
    keystore file, and [CryptoError] exactly when there is one and the
    destination cannot be written; in both cases nothing has changed.
    Otherwise the destination holds the bytes of the keystore, and no other
    file, the keystore included, and nothing of the signer has changed. *)
Theorem export_keystore_copies (dest_path : string) (w : world) :
  let r := export_keystore dest_path w in
  (raises (fst r) FileNotFoundError <-> files w !! storage_path (self w) = None) /\
  (raises (fst r) CryptoError <->
   is_Some (files w !! storage_path (self w)) /\ writable w dest_path = false) /\
  (is_ok (fst r) = false -> snd r = w) /\
  (is_ok (fst r) = true ->
   files (snd r) !! dest_path = files w !! storage_path (self w) /\
   files (snd r) !! storage_path (self w) = files w !! storage_path (self w) /\
   (forall path, path <> dest_path -> files (snd r) !! path = files w !! path) /\
   self (snd r) = self w).
Proof.
  cbv zeta. rewrite export_keystore_eq.
  destruct (files w !! storage_path (self w)) as [data|] eqn:Hf.
  - destruct (writable w dest_path) eqn:Hw; cbn [fst snd is_ok raises].
    + split; [split; [contradiction | discriminate]|].
      split; [split; [contradiction | intros [_ H]; discriminate H]|].
      split; [discriminate|]. intros _.
      cbn [set_files files self]. split; [apply lookup_insert_eq|]. split.
      * destruct (decide (dest_path = storage_path (self w))) as [->|Hne].
        -- apply lookup_insert_eq.
        -- rewrite lookup_insert_ne by exact Hne. exact Hf.
      * split; [|reflexivity]. intros path Hne.
        apply lookup_insert_ne. congruence.
    + split; [split; [discriminate | discriminate]|].
      split; [split; [intros _; split; [now exists data | reflexivity] | reflexivity]|].
      split; [reflexivity | discriminate].
  - cbn [fst snd is_ok raises].
    split; [split; reflexivity|].
    split; [split; [discriminate | intros [[d Hd] _]; discriminate Hd]|].
    split; [reflexivity | discriminate].
Qed.


(** A keystore made by [create_new_key], exported, and imported by a second
    key manager with its own keystore path under the same password: the
    second manager returns the address of the first, its keystore file holds
    the same bytes, and its [unlock] returns that address again. *)
Theorem exported_keystore_imports (password dest_path path2 : string) (w : world) :
  writable w (storage_path (self w)) = true ->
  writable w dest_path = true ->
  writable w path2 = true ->
  is_ok (from_key (keccak (map (rng w) (seq 0 32)))) = true ->
  exists addr w1 w2 w3 w4,
    create_new_key password w = (Ok addr, w1) /\
    export_keystore dest_path w1 = (Ok tt, w2) /\
    import_keystore dest_path password (set_self (fun _ => init path2) w2)
      = (Ok addr, w3) /\
    files w3 !! path2 = files w1 !! storage_path (self w1) /\
    unlocked (self w3) = false /\
    unlock password w3 = (Ok addr, w4) /\
    _private_key (self w4) = Some (keccak (map (rng w) (seq 0 32))).
Proof.
  intros Hw Hd Hp Hk.
  destruct (create_new_key_stored password w Hw Hk) as (blob & e2 & Hc & Hdec).
  set (k := keccak (map (rng w) (seq 0 32))) in *.
  set (w1 := stored blob (address_of k) e2 w).
  set (w2 := set_files (insert dest_path blob) w1).
  set (w2' := set_self (fun _ => init path2) w2).
  set (w3 := stored blob (address_of k) (rng w2') w2').
  assert (H1 : files w1 !! storage_path (self w1) = Some blob) by apply stored_lookup.
  assert (H2 : export_keystore dest_path w1 = (Ok tt, w2)).
  { rewrite export_keystore_eq, H1. unfold w1 at 1. cbn [stored writable].
    rewrite Hd. reflexivity. }
  assert (H3 : import_keystore dest_path password w2' = (Ok (address_of k), w3)).
  { rewrite import_keystore_eq.
    replace (files w2' !! dest_path) with (Some blob)
      by (symmetry; apply lookup_insert_eq).
    rewrite Hdec.
    destruct (from_key k) as [acct|x] eqn:Ha; [|discriminate Hk].
    replace (writable w2' (storage_path (self w2'))) with true by (symmetry; exact Hp).
    reflexivity. }
  assert (H4 : files w3 !! path2 = Some blob) by apply (stored_lookup blob _ _ w2').
  exists (address_of k), w1, w2, w3, (unlocked_with k w3).
  split; [exact Hc|]. split; [exact H2|]. split; [exact H3|].
  split; [now rewrite H4, H1|]. split; [reflexivity|]. split; [|reflexivity].
  apply (unlock_valid password w3 blob k); [exact H4 | exact Hdec | exact Hk].
Qed.

(** *** What signing and unlocking can raise *)

(** The outcome of a sign operation on the world [w]: the world is as it
    was, [PermissionError] is raised exactly when the signer is locked, and
    nothing else is raised but [CryptoError]. *)
Definition sign_outcome {A} (w : world) (r : result A * world) : Prop :=
  snd r = w /\
  (raises (fst r) PermissionError <-> unlocked (self w) = false) /\
  (forall x, fst r = Raise x ->
             exn_cls x = PermissionError \/ exn_cls x = CryptoError).

Lemma sign_outcome_locked {A} (w : world) :
  unlocked (self w) = false -> @sign_outcome A w (Raise locked_error, w).
Proof.
  intros H. split; [reflexivity|]. split; [split; [intros _; exact H | reflexivity]|].
  intros x E. injection E as <-. now left.
Qed.

Lemma sign_outcome_wrapped {A} (w : world) (prefix : string) (r : result A) :
  unlocked (self w) = true -> sign_outcome w (wrapped prefix r, w).
Proof.
  intros H. split; [reflexivity|]. destruct r as [a|e]; cbn [wrapped try_except fst].
  - split; [split; [contradiction | congruence]|]. discriminate.
  - split; [split; [discriminate | congruence]|].
    intros x E. injection E as <-. now right.
Qed.

(** Signing, whether it returns or raises, changes neither the signer nor a
    file; it raises [PermissionError] exactly when the signer is locked and
    nothing else but [CryptoError]. *)
Theorem signing_leaves_state (w : world) :
  (forall message, sign_outcome w (sign_message message w)) /\
  (forall tx, sign_outcome w (sign_transaction tx w)) /\
  (forall h, sign_outcome w (sign_userop h w)).
Proof.
  destruct (unlocked (self w)) eqn:Hu.
  - destruct (_private_key (self w)) as [k|] eqn:Hk.
    + split; [|split].
      * intros message. rewrite (sign_message_unlocked message k w Hu Hk).
        now apply sign_outcome_wrapped.
      * intros tx. rewrite (sign_transaction_unlocked tx k w Hu Hk).
        now apply sign_outcome_wrapped.
      * intros h. rewrite (sign_userop_unlocked h k w Hu Hk).
        now apply sign_outcome_wrapped.
    + split; [|split].
      * intros message.
        unfold sign_message, mbind, M_bind, get_state, try_exceptM, lift,
          from_resident_key, throw.
        rewrite Hu, Hk.
        apply (sign_outcome_wrapped w "Sign message failed: "
                 (raise ValueError "Unsupported private key type") Hu).
      * intros tx.
        unfold sign_transaction, mbind, M_bind, get_state, try_exceptM, lift,
          from_resident_key, throw.
        rewrite Hu, Hk.
        apply (sign_outcome_wrapped w "Sign transaction failed: "
                 (raise ValueError "Unsupported private key type") Hu).
      * intros h.
        unfold sign_userop, mbind, M_bind, get_state, try_exceptM, lift,
          from_resident_key, throw.
        rewrite Hu, Hk.
        apply (sign_outcome_wrapped w "Sign UserOperation failed: "
                 (raise ValueError "Unsupported private key type") Hu).
  - split; [|split].
    + intros message. rewrite (sign_message_locked message w Hu).
      now apply sign_outcome_locked.
    + intros tx. rewrite (sign_transaction_locked tx w Hu).
      now apply sign_outcome_locked.
    + intros h. rewrite (sign_userop_locked h w Hu).
      now apply sign_outcome_locked.
Qed.


End Facts.

(** *** Concrete runs *)





Lemma exported_keystore_imports_witness :
  exists addr w1 w2 w3 w4,
    @create_new_key stub "abc" new_signer = (Ok addr, w1) /\
    @export_keystore "backup.json" w1 = (Ok tt, w2) /\
    @import_keystore stub "backup.json" "abc"
       (set_self (fun _ => init "second.json") w2) = (Ok addr, w3) /\
    files w3 !! "second.json" = files w1 !! storage_path (self w1) /\
    unlocked (self w3) = false /\
    @unlock stub "abc" w3 = (Ok addr, w4) /\
    _private_key (self w4) = Some (@keccak stub (map (rng new_signer) (seq 0 32))).
Proof.
  exact (@exported_keystore_imports stub "abc" "backup.json" "second.json" new_signer
           eq_refl eq_refl eq_refl eq_refl).
Defined.

End KeystoreFacts.

(* ------------------------------------------------------------------------- *)
(** ** account.py: construction, connection, gas prices, the hash *)

Module AccountMethodsFacts.
Import account_methods.
Local Open Scope Z_scope.

(** *** Big-endian bytes, read and written back *)

Lemma from_be_bounds (l : list byte) : 0 <= from_be l < 256 ^ Z.of_nat (length l).
Proof.
  induction l as [|b l IH] using rev_ind; [cbn; lia|].
  rewrite AccountFacts.from_be_snoc, length_app. cbn [length].
  rewrite Nat.add_1_r, Nat2Z.inj_succ, Z.pow_succ_r by lia.
  assert (0 <= Z_of_byte b < 256).
  { unfold Z_of_byte. pose proof (Byte.to_N_bounded b). lia. }
  lia.
Qed.

Lemma to_be_from_be (l : list byte) : account.to_be (length l) (from_be l) = l.
Proof.
  induction l as [|b l IH] using rev_ind; [reflexivity|].
  rewrite AccountFacts.from_be_snoc, length_app. cbn [length].
  rewrite Nat.add_1_r. cbn [account.to_be].
  assert (Hb : 0 <= Z_of_byte b < 256).
  { unfold Z_of_byte. pose proof (Byte.to_N_bounded b). lia. }
  replace ((from_be l * 256 + Z_of_byte b) / 256) with (from_be l)
    by (rewrite Z.div_add_l by lia; rewrite Z.div_small by lia; lia).
  rewrite IH. f_equal. f_equal.
  unfold byte_of_Z.
  replace ((from_be l * 256 + Z_of_byte b) mod 256) with (Z_of_byte b)
    by (rewrite Z.add_comm, Z.mod_add by lia; rewrite Z.mod_small by lia; lia).
  unfold Z_of_byte. rewrite N2Z.id. apply byte_of_to_N.
Qed.

Lemma to_bytes_from_be (l : list byte) :
  length l = 32%nat -> account.to_bytes (from_be l) 32 = Ok l.
Proof.
  intros Hl. pose proof (from_be_bounds l) as B. rewrite Hl in B.
  rewrite AccountFacts.to_bytes_ok.
  - rewrite <- Hl at 1. now rewrite to_be_from_be.
  - change (2 ^ (8 * Z.of_nat 32)) with (256 ^ Z.of_nat 32). exact B.
Qed.

(** *** List comprehensions that can raise *)

Lemma map_result_ok {A B} (f : A -> result B) (l : list A) (l' : list B) :
  map_result f l = Ok l' <-> Forall2 (fun a c => f a = Ok c) l l'.
Proof.
  revert l'. induction l as [|a l IH]; intros l'.
  - cbn. split.
    + intros E. apply CipherFacts.Ok_inj in E. subst l'. constructor.
    + intros E. inversion E. reflexivity.
  - cbn [map_result]. split.
    + destruct (f a) as [c|e] eqn:Ha; [|discriminate].
      cbn [mbind result_bind].
      destruct (map_result f l) as [cs|e] eqn:Hl; [|discriminate].
      cbn [mbind result_bind]. intros E. apply CipherFacts.Ok_inj in E. subst l'.
      constructor; [exact Ha | now apply IH].
    + intros E. inversion E as [|a0 c l0 cs Ha Hcs]; subst.
      rewrite Ha. cbn [mbind result_bind].
      apply IH in Hcs. rewrite Hcs. reflexivity.
Qed.

Lemma map_result_is_ok {A B} (f : A -> result B) (l : list A) :
  is_ok (map_result f l) = true <-> Forall (fun a => is_ok (f a) = true) l.
Proof.
  induction l as [|a l IH]; [cbn; split; [constructor | reflexivity]|].
  cbn [map_result]. destruct (f a) as [c|e] eqn:Ha; cbn [mbind result_bind].
  - destruct (map_result f l) as [cs|e]; cbn [mbind result_bind is_ok] in *.
    + split; [|reflexivity]. intros _. constructor; [now rewrite Ha | now apply IH].
    + split; [discriminate|]. intros H. inversion H; subst. now apply IH.
  - cbn [is_ok]. split; [discriminate|]. intros H. inversion H as [|? ? H1 _]; subst.
    rewrite Ha in H1. discriminate H1.
Qed.

Lemma map_result_length {A B} (f : A -> result B) (l : list A) (l' : list B) :
  map_result f l = Ok l' -> length l' = length l.
Proof. intros H. apply map_result_ok in H. symmetry. now apply Forall2_length in H. Qed.

Section Facts.

Context {node : Node}.

(** *** Construction *)

(** What [_validate_config] lets through. *)
Definition valid_config (n_owners : nat) (threshold : Z) (n_guardians : nat)
           (guardian_threshold : Z) : Prop :=
  0 < threshold <= Z.of_nat n_owners /\
  (n_guardians = 0%nat -> guardian_threshold <= 0) /\
  (n_guardians <> 0%nat -> 0 < guardian_threshold <= Z.of_nat n_guardians).

Lemma _validate_config_spec (self : Account Web3) :
  (_validate_config self = Ok tt /\
   valid_config (length (owners self)) (threshold self)
                (length (guardians self)) (guardian_threshold self)) \/
  (raises (_validate_config self) ValueError /\
   ~ valid_config (length (owners self)) (threshold self)
                  (length (guardians self)) (guardian_threshold self)).
Proof.
  unfold _validate_config, valid_config.
  destruct (Z.leb_spec (threshold self) 0) as [H1|H1]; cbn [orb].
  { right. split; [reflexivity | lia]. }
  destruct (Z.ltb_spec (Z.of_nat (length (owners self))) (threshold self)) as [H2|H2].
  { right. split; [reflexivity | lia]. }
  destruct (guardians self) as [|g gs] eqn:Hg.
  - rewrite bool_decide_eq_true_2 by reflexivity. cbn [negb andb length].
    destruct (Z.ltb_spec 0 (guardian_threshold self)) as [H3|H3].
    + right. split; [reflexivity|]. intros (_ & H & _). specialize (H eq_refl). lia.
    + left. split; [reflexivity|]. split; [lia|]. split; [intros _; lia | congruence].
  - rewrite bool_decide_eq_false_2 by discriminate. cbn [negb andb].
    destruct (Z.leb_spec (guardian_threshold self) 0) as [H3|H3]; cbn [orb].
    { right. split; [reflexivity|]. intros (_ & _ & H).
      assert (length (g :: gs) <> 0%nat) as Hn by discriminate.
      specialize (H Hn). lia. }
    destruct (Z.ltb_spec (Z.of_nat (length (g :: gs))) (guardian_threshold self))
      as [H4|H4].
    + right. split; [reflexivity|]. intros (_ & _ & H).
      assert (length (g :: gs) <> 0%nat) as Hn by discriminate.
      specialize (H Hn). lia.
    + left. split; [reflexivity|]. split; [lia|].
      split; [discriminate | intros _; lia].
Qed.

(** The guardians as the constructor takes them: [None] is no guardian. *)
Definition guardian_list (guardians : option (list string)) : list string :=
  default [] guardians.

Lemma init_guardians (guardians : option (list string)) :
  match guardians with
  | Some (g :: gs) => map_result to_checksum_address (g :: gs)
  | _ => Ok []
  end = map_result to_checksum_address (guardian_list guardians).
Proof. destruct guardians as [[|g gs]|]; reflexivity. Qed.

(** [__init__], path by path. *)
Lemma init_eq (name address : string) (os : list string) (t : Z)
      (gs : option (list string)) (gt : Z) (b p r : option string) :
  __init__ name address os t gs gt b p r =
  a ← to_checksum_address address;
  os' ← map_result to_checksum_address os;
  gs' ← map_result to_checksum_address (guardian_list gs);
  let self := {| network_name := name; contract_address := a; owners := os';
                 threshold := t; guardians := gs'; guardian_threshold := gt;
                 bundler_url := b; paymaster_url := p; _custom_rpc_url := r;
                 _w3 := None |} in
  _ ← _validate_config self; Ok self.
Proof. unfold __init__. now rewrite init_guardians. Qed.

(** The constructor returns exactly when every address is one that
    [to_checksum_address] takes, the threshold is at least 1 and at most the
    number of owners, and the guardian threshold is at least 1 and at most
    the number of guardians, or at most 0 (a negative number passes) when
    there is no guardian. *)
Theorem account_init_accepts (name address : string) (os : list string) (t : Z)
        (gs : option (list string)) (gt : Z) (b p r : option string) :
  is_ok (__init__ name address os t gs gt b p r) = true <->
  is_ok (to_checksum_address address) = true /\
  Forall (fun a => is_ok (to_checksum_address a) = true) os /\
  Forall (fun a => is_ok (to_checksum_address a) = true) (guardian_list gs) /\
  valid_config (length os) t (length (guardian_list gs)) gt.
Proof.
  rewrite init_eq.
  destruct (to_checksum_address address) as [a|e]; cbn [mbind result_bind is_ok];
    [|split; [discriminate | intros [H _]; discriminate H]].
  pose proof (map_result_is_ok to_checksum_address os) as Ho.
  destruct (map_result to_checksum_address os) as [os'|e] eqn:Eo;
    cbn [mbind result_bind is_ok] in *;
    [|split; [discriminate | intros (_ & H & _); apply Ho in H; discriminate H]].
  pose proof (map_result_is_ok to_checksum_address (guardian_list gs)) as Hg.
  destruct (map_result to_checksum_address (guardian_list gs)) as [gs'|e] eqn:Eg;
    cbn [mbind result_bind is_ok] in *;
    [|split; [discriminate | intros (_ & _ & H & _); apply Hg in H; discriminate H]].
  cbv zeta.
  match goal with |- context [_validate_config ?s] =>
    destruct (_validate_config_spec s) as [[E V]|[E V]] end;
    cbn [owners threshold guardians guardian_threshold] in V;
    rewrite (map_result_length _ _ _ Eo), (map_result_length _ _ _ Eg) in V.
  - rewrite E. cbn [mbind result_bind is_ok].
    split; [|reflexivity]. intros _.
    split; [reflexivity|]. split; [now apply Ho|]. split; [now apply Hg | exact V].
  - destruct (_validate_config _); [contradiction|]. cbn [mbind result_bind is_ok].
    split; [discriminate|]. intros (_ & _ & _ & H). contradiction.
Qed.

(** What the constructor has done when it returns. *)
Lemma init_returns (name address : string) (os : list string) (t : Z)
      (gs : option (list string)) (gt : Z) (b p r : option string)
      (self : Account Web3) :
  __init__ name address os t gs gt b p r = Ok self ->
  exists a os' gs',
    to_checksum_address address = Ok a /\
    map_result to_checksum_address os = Ok os' /\
    map_result to_checksum_address (guardian_list gs) = Ok gs' /\
    self = {| network_name := name; contract_address := a; owners := os';
              threshold := t; guardians := gs'; guardian_threshold := gt;
              bundler_url := b; paymaster_url := p; _custom_rpc_url := r;
              _w3 := None |} /\
    valid_config (length os') t (length gs') gt.
Proof.
  rewrite init_eq.
  destruct (to_checksum_address address) as [a|e]; [|discriminate].
  cbn [mbind result_bind].
  destruct (map_result to_checksum_address os) as [os'|e] eqn:Eo; [|discriminate].
  cbn [mbind result_bind].
  destruct (map_result to_checksum_address (guardian_list gs)) as [gs'|e] eqn:Eg;
    [|discriminate].
  cbn [mbind result_bind]. cbv zeta.
  match goal with |- context [_validate_config ?s] =>
    destruct (_validate_config_spec s) as [[E V]|[E V]] end;
    cbn [owners threshold guardians guardian_threshold] in V.
  - rewrite E. cbn [mbind result_bind]. intros H. apply CipherFacts.Ok_inj in H.
    exists a, os', gs'. auto.
  - destruct (_validate_config _); [contradiction | discriminate].
Qed.

(** The object that the constructor returns: the addresses are the
    checksummed ones, in order; there is at least one owner; the thresholds
    are within the bounds; no connection has been made. *)
Theorem account_init_object (name address : string) (os : list string) (t : Z)
        (gs : option (list string)) (gt : Z) (b p r : option string)
        (self : Account Web3) :
  __init__ name address os t gs gt b p r = Ok self ->
  network_name self = name /\
  to_checksum_address address = Ok (contract_address self) /\
  Forall2 (fun a c => to_checksum_address a = Ok c) os (owners self) /\
  Forall2 (fun a c => to_checksum_address a = Ok c) (guardian_list gs) (guardians self) /\
  threshold self = t /\ guardian_threshold self = gt /\
  bundler_url self = b /\ paymaster_url self = p /\
  _custom_rpc_url self = r /\ _w3 self = None /\
  owners self <> [] /\
  length (owners self) = length os /\
  valid_config (length (owners self)) t (length (guardians self)) gt.
Proof.
  intros H.
  destruct (init_returns name address os t gs gt b p r self H)
    as (a & os' & gs' & Ha & Ho & Hg & -> & V).
  cbn [network_name contract_address owners guardians threshold guardian_threshold
       bundler_url paymaster_url _custom_rpc_url _w3].
  split; [reflexivity|]. split; [exact Ha|].
  split; [now apply map_result_ok|]. split; [now apply map_result_ok|].
  do 6 (split; [reflexivity|]). split; [|split; [|exact V]].
  - intros ->. destruct V as [V _]. cbn in V. lia.
  - now apply map_result_length in Ho.
Qed.

(** When the addresses are taken and the constructor raises, it raises
    [ValueError]. *)
Lemma init_raises_ValueError (name address : string) (os : list string) (t : Z)
      (gs : option (list string)) (gt : Z) (b p r : option string) :
  is_ok (to_checksum_address address) = true ->
  Forall (fun a => is_ok (to_checksum_address a) = true) os ->
  Forall (fun a => is_ok (to_checksum_address a) = true) (guardian_list gs) ->
  is_ok (__init__ name address os t gs gt b p r) = false ->
  raises (__init__ name address os t gs gt b p r) ValueError.
Proof.
  intros Ha Ho Hg. rewrite init_eq.
  destruct (to_checksum_address address) as [a|e]; [|discriminate Ha].
  apply map_result_is_ok in Ho, Hg.
  destruct (map_result to_checksum_address os) as [os'|e]; [|discriminate Ho].
  destruct (map_result to_checksum_address (guardian_list gs)) as [gs'|e];
    [|discriminate Hg].
  cbn [mbind result_bind]. cbv zeta.
  match goal with |- context [_validate_config ?s] =>
    destruct (_validate_config_spec s) as [[E V]|[E V]] end.
  - rewrite E. discriminate.
  - destruct (_validate_config _) as [|x]; [contradiction|]. intros _. exact E.
Qed.

(** *** [to_dict] and [from_dict] *)

Definition forget_rpc_url (self : Account Web3) : Account Web3 :=
  {| network_name := network_name self;
     contract_address := contract_address self;
     owners := owners self;
     threshold := threshold self;
     guardians := guardians self;
     guardian_threshold := guardian_threshold self;
     bundler_url := bundler_url self;
     paymaster_url := paymaster_url self;
     _custom_rpc_url := None;
     _w3 := None |}.

Lemma map_result_fixed (l : list string) :
  Forall (fun c => to_checksum_address c = Ok c) l ->
  map_result to_checksum_address l = Ok l.
Proof.
  intros H. apply map_result_ok. induction H; constructor; assumption.
Qed.

Lemma Forall2_image {A B} (P : A -> B -> Prop) (Q : B -> Prop) (l : list A) (l' : list B) :
  (forall a c, P a c -> Q c) -> Forall2 P l l' -> Forall Q l'.
Proof. intros H F. induction F; constructor; eauto. Qed.

(** Where a checksummed address is its own checksummed form, an object made
    by the constructor comes back from [from_dict (to_dict ...)] with all
    its attributes but the custom RPC URL, which [to_dict] leaves out. *)
Theorem to_dict_from_dict (name address : string) (os : list string) (t : Z)
        (gs : option (list string)) (gt : Z) (b p r : option string)
        (self : Account Web3) :
  (forall a c, to_checksum_address a = Ok c -> to_checksum_address c = Ok c) ->
  __init__ name address os t gs gt b p r = Ok self ->
  from_dict (to_dict self) = Ok (forget_rpc_url self).
Proof.
  intros Law Hinit.
  destruct (init_returns name address os t gs gt b p r self Hinit)
    as (a & os' & gs' & Ha & Ho & Hg & -> & V).
  apply map_result_ok in Ho, Hg.
  unfold from_dict, forget_rpc_url. rewrite init_eq.
  cbn [to_dict d_network_name d_contract_address d_owners d_threshold d_guardians
       d_guardian_threshold d_bundler_url d_paymaster_url
       network_name contract_address owners guardians threshold guardian_threshold
       bundler_url paymaster_url _custom_rpc_url _w3].
  rewrite (Law _ _ Ha). cbn [mbind result_bind].
  rewrite (map_result_fixed os')
    by (eapply Forall2_image; [|exact Ho]; intros x c; apply Law).
  cbn [mbind result_bind].
  change (guardian_list (Some gs')) with gs'.
  rewrite (map_result_fixed gs')
    by (eapply Forall2_image; [|exact Hg]; intros x c; apply Law).
  cbn [mbind result_bind]. cbv zeta.
  match goal with |- context [_validate_config ?s] =>
    destruct (_validate_config_spec s) as [[E _]|[_ N]] end.
  - rewrite E. reflexivity.
  - exfalso. apply N. exact V.
Qed.

(** *** The connection *)

(** The URL that [w3] connects to. *)
Definition resolve_url (self : Account Web3) : result string :=
  config ← Config_new;
  if truthy (_custom_rpc_url self)
  then Ok (default "" (_custom_rpc_url self))
  else get_rpc_url config (network_name self).

Definition connection_error (url : string) : exn :=
  mkExn ConnectionError ("Cannot connect to RPC: " +:+ url).

(** [w3], path by path. *)
Lemma w3_eq (self : Account Web3) :
  w3 self =
  match _w3 self with
  | Some w => (Ok w, self)
  | None =>
      match resolve_url self with
      | Raise e => (Raise e, self)
      | Ok url =>
          if is_connected (HTTPProvider url)
          then (Ok (HTTPProvider url), set_w3 (Some (HTTPProvider url)) self)
          else (Raise (connection_error url), set_w3 (Some (HTTPProvider url)) self)
      end
  end.
Proof.
  unfold w3, resolve_url, mbind at 1, M_bind at 1, get_state.
  destruct (_w3 self) as [w|]; [reflexivity|].
  unfold mbind, M_bind, result_bind, lift, modify, mret, M_ret, throw, connection_error.
  destruct Config_new as [config|e]; [|reflexivity].
  destruct (truthy (_custom_rpc_url self)).
  - destruct (is_connected _); reflexivity.
  - destruct (get_rpc_url config (network_name self)) as [url|e]; [|reflexivity].
    destruct (is_connected _); reflexivity.
Qed.

Lemma w3_cached (self : Account Web3) (w : Web3) :
  _w3 self = Some w -> w3 self = (Ok w, self).
Proof. intros H. now rewrite w3_eq, H. Qed.

Lemma resolve_url_set_w3 (w : option Web3) (self : Account Web3) :
  resolve_url (set_w3 w self) = resolve_url self.
Proof. reflexivity. Qed.

(** Where the URL resolves and the node does not answer, [w3] raises
    [ConnectionError] at its first use only: the connection object has been
    stored before it was tested, and every later use returns it. *)
Theorem w3_connection_error_once (self : Account Web3) (url : string) :
  _w3 self = None ->
  resolve_url self = Ok url ->
  is_connected (HTTPProvider url) = false ->
  exists self',
    w3 self = (Raise (connection_error url), self') /\
    _w3 self' = Some (HTTPProvider url) /\
    w3 self' = (Ok (HTTPProvider url), self') /\
    forall self'', _w3 self'' = _w3 self' -> fst (w3 self'') = Ok (HTTPProvider url).
Proof.
  intros Hn Hu Hc.
  exists (set_w3 (Some (HTTPProvider url)) self).
  split; [rewrite w3_eq, Hn, Hu, Hc; reflexivity|].
  split; [reflexivity|]. split; [now apply w3_cached|].
  intros self'' E. rewrite (w3_cached self'' (HTTPProvider url)); [reflexivity | exact E].
Qed.

(** *** Gas prices *)

(** The prices that [_get_gas_prices] reads from a node. *)
Definition prices_on (w : Web3) : Z * Z :=
  match get_block_latest w with
  | Raise _ => (to_wei_2_gwei, to_wei_2_gwei)
  | Ok latest_block =>
      let base_fee := default 0 latest_block in
      if 0 <? base_fee
      then
        let p := match max_priority_fee w with
                 | Ok p => p
                 | Raise _ => to_wei_1_5_gwei
                 end in
        (base_fee * 2 + p, p)
      else
        match gas_price w with
        | Ok g => (g, g)
        | Raise _ => (to_wei_2_gwei, to_wei_2_gwei)
        end
  end.

Lemma gas_prices_cached (self : Account Web3) (w : Web3) :
  _w3 self = Some w -> _get_gas_prices self = (Ok (prices_on w), self).
Proof.
  intros H. pose proof (w3_cached self w H) as Hw.
  unfold _get_gas_prices, prices_on, try_exceptM, mbind, M_bind, lift, mret, M_ret.
  rewrite Hw.
  destruct (get_block_latest w) as [blk|e]; [|rewrite Hw; reflexivity].
  cbv zeta. destruct (0 <? default 0 blk).
  - rewrite Hw. destruct (max_priority_fee w) as [p|e]; [reflexivity|].
    rewrite Hw. reflexivity.
  - rewrite Hw. destruct (gas_price w) as [g|e]; [reflexivity|].
    rewrite Hw. reflexivity.
Qed.

Lemma gas_prices_fresh (self : Account Web3) :
  _w3 self = None ->
  _get_gas_prices self =
  match resolve_url self with
  | Raise e => (Raise e, self)
  | Ok url =>
      (Ok (if is_connected (HTTPProvider url) then prices_on (HTTPProvider url)
           else (to_wei_2_gwei, to_wei_2_gwei)),
       set_w3 (Some (HTTPProvider url)) self)
  end.
Proof.
  intros H.
  destruct (resolve_url self) as [url|e] eqn:Hu.
  - destruct (is_connected (HTTPProvider url)) eqn:Hc.
    + assert (H1 : w3 self = (Ok (HTTPProvider url), set_w3 (Some (HTTPProvider url)) self))
        by (rewrite w3_eq, H, Hu, Hc; reflexivity).
      pose proof (w3_cached (set_w3 (Some (HTTPProvider url)) self)
                    (HTTPProvider url) eq_refl) as Hw.
      unfold _get_gas_prices, prices_on, try_exceptM, mbind, M_bind, lift, mret, M_ret.
      rewrite H1.
      destruct (get_block_latest (HTTPProvider url)) as [blk|e];
        [|rewrite Hw; reflexivity].
      cbv zeta. destruct (0 <? default 0 blk).
      * rewrite Hw. destruct (max_priority_fee (HTTPProvider url)) as [p|e];
          [reflexivity|].
        rewrite Hw. reflexivity.
      * rewrite Hw. destruct (gas_price (HTTPProvider url)) as [g|e]; [reflexivity|].
        rewrite Hw. reflexivity.
    + assert (H1 : w3 self = (Raise (connection_error url),
                              set_w3 (Some (HTTPProvider url)) self))
        by (rewrite w3_eq, H, Hu, Hc; reflexivity).
      unfold _get_gas_prices, try_exceptM, mbind, M_bind, mret, M_ret.
      rewrite H1.
      rewrite (w3_cached _ _ (eq_refl : _w3 (set_w3 (Some (HTTPProvider url)) self) = _)).
      reflexivity.
  - assert (H1 : w3 self = (Raise e, self)) by (rewrite w3_eq, H, Hu; reflexivity).
    unfold _get_gas_prices, try_exceptM, mbind, M_bind, mret, M_ret.
    rewrite H1, H1. reflexivity.
Qed.

Lemma prices_on_shape (w : Web3) :
  fst (prices_on w) = snd (prices_on w) \/
  exists base_fee, 0 < base_fee /\ fst (prices_on w) = base_fee * 2 + snd (prices_on w).
Proof.
  unfold prices_on. destruct (get_block_latest w) as [blk|e]; [|now left].
  cbv zeta. destruct (Z.ltb_spec 0 (default 0 blk)) as [Hb|Hb].
  - right. exists (default 0 blk). split; [exact Hb | reflexivity].
  - destruct (gas_price w); now left.
Qed.

(** [_get_gas_prices] raises only what resolving the URL raises at the
    first connection, and then the object is as it was.  Otherwise it
    returns a pair: the two prices are equal, or the first is twice a
    positive base fee above the second.  A node that does not answer gives
    twice 2 gwei, and so does a node that does not connect. *)
Theorem gas_prices_fallback (self : Account Web3) :
  (forall e, fst (_get_gas_prices self) = Raise e ->
             _w3 self = None /\ resolve_url self = Raise e /\
             snd (_get_gas_prices self) = self) /\
  (forall f p, fst (_get_gas_prices self) = Ok (f, p) ->
               f = p \/ exists base_fee, 0 < base_fee /\ f = base_fee * 2 + p) /\
  (forall w, _w3 self = Some w -> is_ok (get_block_latest w) = false ->
             _get_gas_prices self = (Ok (to_wei_2_gwei, to_wei_2_gwei), self)) /\
  (forall url, _w3 self = None -> resolve_url self = Ok url ->
               is_connected (HTTPProvider url) = false ->
               _get_gas_prices self =
               (Ok (to_wei_2_gwei, to_wei_2_gwei),
                set_w3 (Some (HTTPProvider url)) self)).
Proof.
  assert (Shape : forall f p w, Ok (prices_on w) = Ok (f, p) ->
            f = p \/ exists base_fee, 0 < base_fee /\ f = base_fee * 2 + p).
  { intros f p w E. apply CipherFacts.Ok_inj in E.
    pose proof (prices_on_shape w) as S. rewrite E in S. exact S. }
  destruct (_w3 self) as [w|] eqn:Hw.
  - rewrite (gas_prices_cached self w Hw). cbn [fst snd].
    split; [discriminate|]. split; [intros f p; apply Shape|].
    split; [|discriminate].
    intros w' E Hb. apply (inj Some) in E. subst w'.
    unfold prices_on. destruct (get_block_latest w); [discriminate Hb | reflexivity].
  - rewrite (gas_prices_fresh self Hw).
    destruct (resolve_url self) as [url|e] eqn:Hu; cbn [fst snd].
    + split; [discriminate|]. split; [|split; [discriminate|]].
      * intros f p. destruct (is_connected (HTTPProvider url)); [apply Shape|].
        intros E. apply CipherFacts.Ok_inj in E. injection E as <- <-. now left.
      * intros url' _ E Hc. apply CipherFacts.Ok_inj in E. subst url'.
        now rewrite Hc.
    + split; [|split; [discriminate | split; discriminate]].
      intros x E. injection E as <-. auto.
Qed.

(** *** The hash of a user operation *)

(** The operation whose variable-length fields end one byte later. *)
Definition shift_fields (op : account.UserOperation) : account.UserOperation :=
  let g := account.to_be 32 (account.preVerificationGas op) in
  {| account.sender := account.sender op;
     account.nonce := account.nonce op;
     account.initCode := account.initCode op;
     account.callData :=
       account.callData op ++ [hd x00 (account.accountGasLimits op)];
     account.accountGasLimits := tl (account.accountGasLimits op) ++ [hd x00 g];
     account.preVerificationGas := from_be (tl g ++ [hd x00 (account.gasFees op)]);
     account.gasFees :=
       tl (account.gasFees op) ++ [hd x00 (account.paymasterAndData op)];
     account.paymasterAndData := tl (account.paymasterAndData op);
     account.signature := account.signature op |}.

Lemma hd_tl (l : list byte) : l <> [] -> l = hd x00 l :: tl l.
Proof. destruct l; [contradiction | reflexivity]. Qed.

Lemma length_tl_snoc (l : list byte) (b : byte) (n : nat) :
  length l = S n -> length (tl l ++ [b]) = S n.
Proof. destruct l; [discriminate|]. cbn. rewrite length_app. cbn. lia. Qed.

Lemma shift_all (cd a g f p : list byte) :
  a <> [] -> g <> [] -> f <> [] -> p <> [] ->
  (cd ++ [hd x00 a]) ++ (tl a ++ [hd x00 g]) ++ (tl g ++ [hd x00 f])
     ++ (tl f ++ [hd x00 p]) ++ tl p
  = cd ++ a ++ g ++ f ++ p.
Proof.
  destruct a, g, f, p; try contradiction. intros _ _ _ _.
  cbn [hd tl]. rewrite <- !app_assoc. reflexivity.
Qed.

Lemma to_bytes_inv (x : Z) (n : nat) (l : list byte) :
  account.to_bytes x n = Ok l -> l = account.to_be n x.
Proof.
  unfold account.to_bytes. destruct (x <? 0); [discriminate|].
  destruct (_ <=? x); [discriminate|]. intros E. now apply CipherFacts.Ok_inj in E.
Qed.

Lemma shift_fields_projections (op : account.UserOperation) :
  account.nonce (shift_fields op) = account.nonce op /\
  account.callData (shift_fields op) =
    account.callData op ++ [hd x00 (account.accountGasLimits op)] /\
  account.accountGasLimits (shift_fields op) =
    tl (account.accountGasLimits op)
      ++ [hd x00 (account.to_be 32 (account.preVerificationGas op))] /\
  account.preVerificationGas (shift_fields op) =
    from_be (tl (account.to_be 32 (account.preVerificationGas op))
               ++ [hd x00 (account.gasFees op)]) /\
  account.gasFees (shift_fields op) =
    tl (account.gasFees op) ++ [hd x00 (account.paymasterAndData op)] /\
  account.paymasterAndData (shift_fields op) = tl (account.paymasterAndData op).
Proof. repeat split. Qed.

Lemma bind_Ok {A B} (a : A) (k : A -> result B) : (x ← Ok a; k x) = k a.
Proof. reflexivity. Qed.

Lemma packed_data_shift (self : Account Web3) (op : account.UserOperation)
      (d : list byte) :
  packed_data self op = Ok d ->
  length (account.accountGasLimits op) = 32%nat ->
  length (account.gasFees op) = 32%nat ->
  account.paymasterAndData op <> [] ->
  packed_data self (shift_fields op) = Ok d.
Proof.
  intros Hd La Lg Hp.
  destruct (shift_fields_projections op) as (E1 & E2 & E3 & E4 & E5 & E6).
  unfold packed_data in *. rewrite E1, E2, E3, E4, E5, E6.
  set (g := account.to_be 32 (account.preVerificationGas op)) in *.
  assert (Lgas : length g = 32%nat) by apply AccountFacts.length_to_be.
  rewrite (to_bytes_from_be (tl g ++ [hd x00 (account.gasFees op)]))
    by (apply (length_tl_snoc g _ 31 Lgas)).
  destruct (Hex.fromhex (drop2 (contract_address self))) as [a|e]; [|discriminate Hd].
  rewrite bind_Ok in Hd |- *.
  destruct (account.to_bytes (account.nonce op) 32) as [n|e]; [|discriminate Hd].
  rewrite bind_Ok in Hd |- *.
  destruct (account.to_bytes (account.preVerificationGas op) 32) as [g'|e] eqn:Hg;
    [|discriminate Hd].
  rewrite bind_Ok in Hd |- *.
  apply to_bytes_inv in Hg. fold g in Hg. subst g'.
  rewrite <- Hd. do 3 f_equal.
  apply shift_all.
  - intros E. now rewrite E in La.
  - intros E. now rewrite E in Lgas.
  - intros E. now rewrite E in Lg.
  - exact Hp.
Qed.

(** The bytes that are hashed do not tell their fields apart: an operation
    with paymaster data and packed fields of 32 bytes has the same bytes,
    and so the same hash, as the operation whose call data is one byte
    longer and whose other fields begin one byte later. *)
Theorem user_op_hash_collision (self : Account Web3) (op : account.UserOperation)
        (d : list byte) :
  packed_data self op = Ok d ->
  length (account.accountGasLimits op) = 32%nat ->
  length (account.gasFees op) = 32%nat ->
  account.paymasterAndData op <> [] ->
  exists op',
    account.callData op' <> account.callData op /\
    length (account.accountGasLimits op') = 32%nat /\
    length (account.gasFees op') = 32%nat /\
    packed_data self op' = Ok d /\
    get_user_op_hash self op' = get_user_op_hash self op.
Proof.
  intros Hd La Lg Hp. exists (shift_fields op).
  pose proof (packed_data_shift self op d Hd La Lg Hp) as Hs.
  split; [|split; [|split; [|split]]].
  - cbn [shift_fields account.callData]. intros E.
    apply (f_equal (@length byte)) in E. rewrite length_app in E. cbn in E. lia.
  - cbn [shift_fields account.accountGasLimits]. now apply length_tl_snoc.
  - cbn [shift_fields account.gasFees]. now apply length_tl_snoc.
  - exact Hs.
  - unfold get_user_op_hash. now rewrite Hs, Hd.
Qed.

(** The hash is made of the address of the account, the nonce, the call
    data, the two packed fields, the pre-verification gas and the paymaster
    data, 148 bytes and the two variable fields for an address of 20 bytes;
    the signature, the init code and the sender of the operation do not enter.
    With the network configured, it fails exactly when the address is not
    hexadecimal or the nonce or the pre-verification gas is outside
    [0, 2^256). *)
Theorem user_op_hash_input (self : Account Web3) (op : account.UserOperation)
        (config : Config) (entry_point : option string) (a : list byte) :
  Config_new = Ok config ->
  get_entry_point config (network_name self) = Ok entry_point ->
  Hex.fromhex (drop2 (contract_address self)) = Ok a ->
  let in_range x := 0 <= x < 2 ^ 256 in
  (in_range (account.nonce op) /\ in_range (account.preVerificationGas op) ->
   exists d,
     get_user_op_hash self op = Ok (keccak d) /\
     d = a ++ account.to_be 32 (account.nonce op) ++ account.callData op
           ++ account.accountGasLimits op
           ++ account.to_be 32 (account.preVerificationGas op)
           ++ account.gasFees op ++ account.paymasterAndData op /\
     length d = (length a + 64 + length (account.callData op)
                 + length (account.accountGasLimits op)
                 + length (account.gasFees op)
                 + length (account.paymasterAndData op))%nat) /\
  (~ (in_range (account.nonce op) /\ in_range (account.preVerificationGas op)) ->
   raises (get_user_op_hash self op) OverflowError) /\
  (forall sender init sg,
     get_user_op_hash self
       {| account.sender := sender; account.nonce := account.nonce op;
          account.initCode := init; account.callData := account.callData op;
          account.accountGasLimits := account.accountGasLimits op;
          account.preVerificationGas := account.preVerificationGas op;
          account.gasFees := account.gasFees op;
          account.paymasterAndData := account.paymasterAndData op;
          account.signature := sg |} = get_user_op_hash self op).
Proof.
  intros Hc He Ha in_range. unfold get_user_op_hash, packed_data.
  rewrite Hc. cbn [mbind result_bind]. rewrite He. cbn [mbind result_bind].
  rewrite Ha. cbn [mbind result_bind].
  cbn [account.nonce account.callData account.accountGasLimits
       account.preVerificationGas account.gasFees account.paymasterAndData].
  split; [|split; [|reflexivity]].
  - intros [Hn Hg].
    rewrite (AccountFacts.to_bytes_ok (account.nonce op) 32) by exact Hn.
    cbn [mbind result_bind].
    rewrite (AccountFacts.to_bytes_ok (account.preVerificationGas op) 32) by exact Hg.
    cbn [mbind result_bind].
    eexists. split; [reflexivity|]. split; [reflexivity|].
    rewrite !length_app, !AccountFacts.length_to_be. lia.
  - intros Hno.
    destruct (Z_lt_dec (account.nonce op) 0) as [H0|H0];
      [|destruct (Z_lt_dec (account.nonce op) (2 ^ 256)) as [H1|H1]].
    + pose proof (AccountFacts.to_bytes_overflow (account.nonce op) 32 ltac:(lia)) as R.
      destruct (account.to_bytes (account.nonce op) 32); [contradiction | exact R].
    + rewrite (AccountFacts.to_bytes_ok (account.nonce op) 32)
        by (change (2 ^ (8 * Z.of_nat 32)) with (2 ^ 256); lia).
      cbn [mbind result_bind].
      assert (Hg : ~ 0 <= account.preVerificationGas op < 2 ^ (8 * Z.of_nat 32)).
      { change (2 ^ (8 * Z.of_nat 32)) with (2 ^ 256). unfold in_range in Hno. lia. }
      pose proof (AccountFacts.to_bytes_overflow _ 32 Hg) as R.
      destruct (account.to_bytes (account.preVerificationGas op) 32);
        [contradiction | exact R].
    + pose proof (AccountFacts.to_bytes_overflow (account.nonce op) 32
                    ltac:(change (2 ^ (8 * Z.of_nat 32)) with (2 ^ 256); lia)) as R.
      destruct (account.to_bytes (account.nonce op) 32); [contradiction | exact R].
Qed.

End Facts.

(** *** The fees of [build_user_operation] *)

(** A fee given as 0 counts as not given when the other fee is missing: it
    is replaced by what the node reports.  Given together with the other
    fee it is used as it is, and the node is not asked. *)
Theorem zero_fee_is_no_fee (self : account.Account) (rpc : account.rpc)
        (call_data : list byte) (nonce : option Z) (c v pre : Z)
        (pm sg : list byte) :
  let build := fun f p =>
    account.build_user_operation self rpc call_data nonce f p c v pre pm sg in
  build (Some 0) None = build None None /\
  build None (Some 0) = build None None /\
  (forall p, build (Some 0) (Some p) =
             account.build_user_operation self
               {| account.rpc_get_nonce := account.rpc_get_nonce rpc;
                  account.rpc_get_gas_prices := raise ConnectionError "not asked" |}
               call_data nonce (Some 0) (Some p) c v pre pm sg) /\
  (forall f prices,
      f <> 0 -> account.rpc_get_gas_prices rpc = Ok prices ->
      build (Some f) None = build (Some f) (Some (snd prices))).
Proof.
  cbv zeta. unfold account.build_user_operation.
  split; [reflexivity|]. split; [reflexivity|]. split.
  - intros p. destruct nonce; reflexivity.
  - intros f prices Hf Hp. rewrite Hp. cbn [mbind result_bind mret result_ret].
    unfold account.py_or. destruct (Z.eqb_spec f 0); [contradiction | reflexivity].
Qed.

(** *** Concrete runs *)

(** A node that resolves every network to one URL and does not answer. *)
Definition silent_node : Node := {|
  to_checksum_address := fun s => Ok s;
  Config := unit;
  Config_new := Ok tt;
  get_rpc_url := fun _ _ => Ok "http://127.0.0.1:8545";
  get_entry_point := fun _ _ => Ok None;
  Web3 := string;
  HTTPProvider := fun url => url;
  is_connected := fun _ => false;
  get_block_latest := fun _ => raise ConnectionError "no answer";
  max_priority_fee := fun _ => raise ConnectionError "no answer";
  gas_price := fun _ => raise ConnectionError "no answer";
  keccak := fun _ => repeat x00 32
|}.

Definition one_owner : Account (@Web3 silent_node) :=
  {| network_name := "sepolia"; contract_address := "0x00"; owners := ["0x01"];
     threshold := 1; guardians := []; guardian_threshold := -1;
     bundler_url := None; paymaster_url := None;
     _custom_rpc_url := Some "http://10.0.0.1"; _w3 := None |}.

Lemma account_init_object_witness :
  network_name one_owner = "sepolia" /\
  @to_checksum_address silent_node "0x00" = Ok (contract_address one_owner) /\
  Forall2 (fun a c => @to_checksum_address silent_node a = Ok c) ["0x01"]
          (owners one_owner) /\
  Forall2 (fun a c => @to_checksum_address silent_node a = Ok c)
          (guardian_list None) (guardians one_owner) /\
  threshold one_owner = 1 /\ guardian_threshold one_owner = -1 /\
  bundler_url one_owner = None /\ paymaster_url one_owner = None /\
  _custom_rpc_url one_owner = Some "http://10.0.0.1" /\ _w3 one_owner = None /\
  owners one_owner <> [] /\
  length (owners one_owner) = length ["0x01"] /\
  valid_config (length (owners one_owner)) 1 (length (guardians one_owner)) (-1).
Proof.
  exact (@account_init_object silent_node "sepolia" "0x00" ["0x01"] 1 None (-1)
           None None (Some "http://10.0.0.1") one_owner eq_refl).
Defined.

Lemma to_dict_from_dict_witness :
  @from_dict silent_node (to_dict one_owner) = Ok (forget_rpc_url one_owner).
Proof.
  apply (@to_dict_from_dict silent_node "sepolia" "0x00" ["0x01"] 1 None (-1)
           None None (Some "http://10.0.0.1") one_owner).
  - intros a c H. apply CipherFacts.Ok_inj in H. now subst c.
  - reflexivity.
Defined.

Lemma w3_connection_error_once_witness :
  exists self',
    @w3 silent_node one_owner = (Raise (connection_error "http://10.0.0.1"), self') /\
    _w3 self' = Some (@HTTPProvider silent_node "http://10.0.0.1") /\
    @w3 silent_node self' = (Ok (@HTTPProvider silent_node "http://10.0.0.1"), self') /\
    forall self'', _w3 self'' = _w3 self' ->
                   fst (@w3 silent_node self'') = Ok (@HTTPProvider silent_node "http://10.0.0.1").
Proof.
  exact (@w3_connection_error_once silent_node one_owner "http://10.0.0.1"
           eq_refl eq_refl eq_refl).
Defined.

Definition sponsored_op : account.UserOperation :=
  {| account.sender := "0x00"; account.nonce := 0; account.initCode := [];
     account.callData := []; account.accountGasLimits := repeat x00 32;
     account.preVerificationGas := 21000; account.gasFees := repeat x00 32;
     account.paymasterAndData := [x01]; account.signature := [] |}.

Lemma user_op_hash_collision_witness :
  exists d op',
    @packed_data silent_node one_owner sponsored_op = Ok d /\
    account.callData op' <> account.callData sponsored_op /\
    length (account.accountGasLimits op') = 32%nat /\
    length (account.gasFees op') = 32%nat /\
    @packed_data silent_node one_owner op' = Ok d /\
    @get_user_op_hash silent_node one_owner op'
      = @get_user_op_hash silent_node one_owner sponsored_op.
Proof.
  eexists.
  destruct (@user_op_hash_collision silent_node one_owner sponsored_op _
              eq_refl eq_refl eq_refl ltac:(discriminate)) as (op' & H).
  exists op'. split; [reflexivity | exact H].
Defined.

Lemma user_op_hash_input_witness :
  exists d,
    @get_user_op_hash silent_node one_owner sponsored_op = Ok (@keccak silent_node d) /\
    length d = 130%nat.
Proof.
  destruct (@user_op_hash_input silent_node one_owner sponsored_op tt None [x00]
              eq_refl eq_refl eq_refl) as (H & _).
  destruct H as (d & E & _ & L); [cbn; lia|].
  exists d. split; [exact E | exact L].
Defined.

End AccountMethodsFacts.

(* ------------------------------------------------------------------------- *)
(** ** Dicts in insertion order *)

Module DictFacts.
Import pyvalues.

Section Dict.

Context {V : Type}.
Implicit Types (d : dict V) (k : string) (v : V).

Lemma eqb_neq (k k' : string) : k <> k' -> String.eqb k k' = false.
Proof. intros H. now apply String.eqb_neq. Qed.

Lemma dict_get_set_eq k v d : dict_get k (dict_set k v d) = Some v.
Proof.
  induction d as [|[k' v'] d IH]; cbn.
  - now rewrite String.eqb_refl.
  - destruct (String.eqb k k') eqn:E; cbn; [now rewrite String.eqb_refl|].
    now rewrite E.
Qed.

Lemma dict_get_set_ne k k' v d :
  k' <> k -> dict_get k' (dict_set k v d) = dict_get k' d.
Proof.
  intros H. induction d as [|[k0 v0] d IH]; cbn.
  - now rewrite eqb_neq.
  - destruct (String.eqb_spec k k0) as [->|Hk]; cbn.
    + now rewrite (eqb_neq k' k0).
    + now rewrite IH.
Qed.

Lemma dict_has_keys k d : dict_has k d = true <-> In k (dict_keys d).
Proof.
  unfold dict_has. induction d as [|[k' v'] d IH]; cbn; [split; [discriminate | tauto]|].
  destruct (String.eqb_spec k k') as [->|Hk]; [tauto|].
  rewrite IH. split; [tauto | intros [E|E]; [congruence | exact E]].
Qed.

Lemma dict_get_None k d : dict_get k d = None <-> ~ In k (dict_keys d).
Proof.
  rewrite <- dict_has_keys. unfold dict_has.
  destruct (dict_get k d); split.
  - discriminate.
  - intros H. now contradiction H.
  - discriminate.
  - reflexivity.
Qed.

Lemma dict_keys_set_new k v d :
  ~ In k (dict_keys d) -> dict_set k v d = d ++ [(k, v)].
Proof.
  induction d as [|[k' v'] d IH]; cbn; [reflexivity|]. intros H.
  destruct (String.eqb_spec k k') as [->|Hk]; [tauto|].
  rewrite IH by tauto. reflexivity.
Qed.

Lemma dict_keys_set_old k v d :
  In k (dict_keys d) -> dict_keys (dict_set k v d) = dict_keys d.
Proof.
  unfold dict_keys.
  induction d as [|[k' v'] d IH]; cbn; [tauto|]. intros H.
  destruct (String.eqb_spec k k') as [->|Hk]; cbn; [reflexivity|].
  rewrite IH; [reflexivity|]. destruct H; [congruence | assumption].
Qed.

Lemma dict_get_del_ne k k' d :
  k' <> k -> dict_get k' (dict_del k d) = dict_get k' d.
Proof.
  intros H. induction d as [|[k0 v0] d IH]; cbn; [reflexivity|].
  destruct (String.eqb_spec k k0) as [->|Hk]; cbn.
  - now rewrite (eqb_neq k' k0).
  - now rewrite IH.
Qed.

Lemma filter_other (k : string) (l : list string) :
  ~ In k l -> List.filter (fun k' => negb (String.eqb k k')) l = l.
Proof.
  induction l as [|k0 l IH]; cbn; [reflexivity|]. intros H.
  rewrite (eqb_neq k k0) by (intros ->; apply H; now left). cbn.
  rewrite IH by (intros E; apply H; now right). reflexivity.
Qed.

Lemma dict_keys_del k d :
  List.NoDup (dict_keys d) ->
  dict_keys (dict_del k d) = List.filter (fun k' => negb (String.eqb k k')) (dict_keys d).
Proof.
  unfold dict_keys.
  induction d as [|[k' v'] d IH]; cbn; [reflexivity|]. intros H.
  apply NoDup_cons_iff in H as [Hn Hd].
  destruct (String.eqb_spec k k') as [->|Hk]; cbn.
  - now rewrite filter_other.
  - now rewrite IH.
Qed.

Lemma dict_get_del_eq k d : List.NoDup (dict_keys d) -> dict_get k (dict_del k d) = None.
Proof.
  intros H. apply dict_get_None. rewrite dict_keys_del by exact H.
  rewrite filter_In. intros [_ E]. now rewrite String.eqb_refl in E.
Qed.

Lemma dict_get_In k v d : dict_get k d = Some v -> In (k, v) d.
Proof.
  induction d as [|[k' v'] d IH]; cbn; [discriminate|].
  destruct (String.eqb_spec k k') as [->|Hk].
  - intros [= ->]. now left.
  - intros H. right. now apply IH.
Qed.

Lemma dict_In_get k v d : List.NoDup (dict_keys d) -> In (k, v) d -> dict_get k d = Some v.
Proof.
  induction d as [|[k' v'] d IH]; cbn; [tauto|]. intros H.
  apply NoDup_cons_iff in H as [Hn Hd]. intros [E|E].
  - injection E as -> ->. now rewrite String.eqb_refl.
  - destruct (String.eqb_spec k k') as [->|Hk]; [|now apply IH].
    exfalso. apply Hn. apply in_map_iff. now exists (k', v).
Qed.

End Dict.

End DictFacts.

(* ------------------------------------------------------------------------- *)
(** ** config.py *)

Module ConfigFacts.
Import pyvalues config DictFacts.

(** *** Path by path *)

Lemma this_eq (w : world) (c : Config) :
  _instance w = Some c -> this w = (Returned c, w).
Proof. intros H. unfold this. now rewrite H. Qed.

Definition with_config (c : Config) (w : world) : world :=
  set_instance (fun _ => Some c) w.

Lemma update_self_eq (f : Config -> Config) (w : world) (c : Config) :
  _instance w = Some c -> update_self f w = (Returned tt, with_config (f c) w).
Proof.
  intros H. unfold update_self, py_modify, with_config, set_instance.
  now rewrite H.
Qed.

Lemma get_network_eq (name : string) (w : world) (c : Config) :
  _instance w = Some c ->
  get_network name w =
  match dict_get name (_networks c) with
  | Some l => (Returned l, w)
  | None => (Raised (mkError KeyError ("Network '" +:+ name +:+ "' not configured")), w)
  end.
Proof.
  intros H. unfold get_network, mbind, Py_bind. rewrite (this_eq w c H).
  destruct (dict_get name (_networks c)); reflexivity.
Qed.

(** What a getter answers: the field of the object behind the name. *)
Definition field_of (f : NetworkConfig -> json) (name : string) (w : world)
  : outcome json :=
  match _instance w with
  | None => Raised (mkError AttributeError "'NoneType' object has no attribute")
  | Some c =>
      match dict_get name (_networks c) with
      | None => Raised (mkError KeyError ("Network '" +:+ name +:+ "' not configured"))
      | Some l =>
          match heap w !! l with
          | Some nc => Returned (f nc)
          | None => Raised (mkError AttributeError "no such object")
          end
      end
  end.

Lemma getter_eq (f : NetworkConfig -> json) (name : string) (w : world) :
  (l ← get_network name; nc ← deref l; mret (f nc)) w = (field_of f name w, w).
Proof.
  unfold field_of, get_network, mbind, Py_bind, this, deref, mret, Py_ret, py_raise.
  destruct (_instance w) as [c|]; [|reflexivity].
  destruct (dict_get name (_networks c)) as [l|]; [|reflexivity].
  destruct (heap w !! l); reflexivity.
Qed.

Lemma get_rpc_url_eq name w : get_rpc_url name w = (field_of rpc_url name w, w).
Proof. apply getter_eq. Qed.
Lemma get_chain_id_eq name w : get_chain_id name w = (field_of chain_id name w, w).
Proof. apply getter_eq. Qed.
Lemma get_entry_point_eq name w :
  get_entry_point name w = (field_of entrypoint_address name w, w).
Proof. apply getter_eq. Qed.
Lemma get_factory_eq name w :
  get_factory name w = (field_of factory_address name w, w).
Proof. apply getter_eq. Qed.

Definition os_error : error := mkError (Builtin OSError) "cannot open file for writing".

Lemma save_to_json_eq (path : option string) (w : world) (c : Config) :
  _instance w = Some c ->
  save_to_json path w =
  match networks_dict (heap w) (_networks c) with
  | Raised e => (Raised e, w)
  | Returned networks =>
      if writable w (str_or path (config_path c))
      then (Returned tt,
            set_files (insert (str_or path (config_path c))
                         (Json (JObj [("networks", JObj networks)]))) w)
      else (Raised os_error, w)
  end.
Proof.
  intros H. unfold save_to_json, mbind, Py_bind. rewrite (this_eq w c H).
  unfold py_get, py_lift, dump_file.
  destruct (networks_dict (heap w) (_networks c)); reflexivity.
Qed.

(** Saving changes files only. *)
Lemma save_to_json_frame (path : option string) (w : world) :
  _instance (snd (save_to_json path w)) = _instance w /\
  heap (snd (save_to_json path w)) = heap w /\
  writable (snd (save_to_json path w)) = writable w /\
  (returned (fst (save_to_json path w)) = false ->
   snd (save_to_json path w) = w).
Proof.
  destruct (_instance w) as [c|] eqn:H.
  - rewrite (save_to_json_eq path w c H).
    destruct (networks_dict (heap w) (_networks c)); [destruct (writable w _)|];
      cbn [fst snd returned set_files _instance heap writable];
      repeat split; try exact H; try reflexivity; discriminate.
  - unfold save_to_json, mbind, Py_bind, this. rewrite H.
    cbn [fst snd returned]. repeat split; try exact H; reflexivity.
Qed.

(** *** Registering a network *)

(** [add_network] registers the reference under the name before it saves:
    whether the call returns or raises, the name then stands for that
    object and every other name for what it stood for; no object has
    changed; and if the call raised, saving was asked for and no file has
    changed. *)
Theorem add_network_registers (name : string) (l : nat) (save : bool)
        (w : world) (c : Config) :
  _instance w = Some c ->
  let r := add_network name l save w in
  fst (get_network name (snd r)) = Returned l /\
  (forall name', name' <> name ->
     fst (get_network name' (snd r)) = fst (get_network name' w)) /\
  heap (snd r) = heap w /\
  (save = false -> fst r = Returned tt) /\
  (returned (fst r) = false -> save = true /\ files (snd r) = files w).
Proof.
  intros H. cbv zeta.
  set (c' := set_networks (dict_set name l) c).
  set (w1 := with_config c' w).
  assert (H1 : _instance w1 = Some c') by reflexivity.
  assert (E : add_network name l save w =
              if save then save_to_json None w1 else (Returned tt, w1)).
  { unfold add_network, mbind, Py_bind. rewrite (this_eq w c H).
    rewrite (update_self_eq _ w c H). destruct save; reflexivity. }
  rewrite E.
  assert (G : forall w2, _instance w2 = Some c' ->
             fst (get_network name w2) = Returned l /\
             forall name', name' <> name ->
               fst (get_network name' w2) = fst (get_network name' w)).
  { intros w2 H2. split.
    - rewrite (get_network_eq name w2 c' H2). cbn [set_networks _networks c'].
      unfold c'. cbn [set_networks _networks]. now rewrite dict_get_set_eq.
    - intros name' Hne.
      rewrite (get_network_eq name' w2 c' H2), (get_network_eq name' w c H).
      unfold c'. cbn [set_networks _networks].
      rewrite dict_get_set_ne by exact Hne.
      destruct (dict_get name' (_networks c)); reflexivity. }
  destruct save.
  - destruct (save_to_json_frame None w1) as (F1 & F2 & F3 & F4).
    destruct (G (snd (save_to_json None w1))) as [G1 G2]; [now rewrite F1|].
    split; [exact G1|]. split; [exact G2|]. split; [now rewrite F2|].
    split; [discriminate|]. intros Hr. split; [reflexivity|]. now rewrite (F4 Hr).
  - cbn [fst snd returned]. destruct (G w1 H1) as [G1 G2].
    split; [exact G1|]. split; [exact G2|]. split; [reflexivity|].
    split; [reflexivity | discriminate].
Qed.

(** *** Objects that stand under two names *)

Lemma assign_eq (l : nat) (f : NetworkConfig -> NetworkConfig) (w : world)
      (nc : NetworkConfig) :
  heap w !! l = Some nc ->
  assign l f w = (Returned tt, set_heap (fun h => <[l := f nc]> h) w).
Proof. intros H. unfold assign, mbind, Py_bind, deref, py_modify. now rewrite H. Qed.

(** [set_entry_point] assigns to the object, not to the name: the entry
    point changes under every name that stands for the same object and
    under no other; the other fields change under no name.  For a name that
    is not configured it raises [KeyError], and nothing has changed. *)
Theorem set_entry_point_aliases (name : string) (a : json) (w : world) (c : Config) :
  _instance w = Some c ->
  (forall l nc,
      dict_get name (_networks c) = Some l -> heap w !! l = Some nc ->
      exists w',
        set_entry_point name a false w = (Returned tt, w') /\
        (forall name' l', dict_get name' (_networks c) = Some l' ->
           fst (get_entry_point name' w') =
           if Nat.eqb l' l then Returned a else fst (get_entry_point name' w)) /\
        (forall name',
           fst (get_rpc_url name' w') = fst (get_rpc_url name' w) /\
           fst (get_chain_id name' w') = fst (get_chain_id name' w) /\
           fst (get_factory name' w') = fst (get_factory name' w)) /\
        fst (list_networks w') = fst (list_networks w) /\
        files w' = files w) /\
  (dict_get name (_networks c) = None ->
   forall save,
     throws (fst (set_entry_point name a save w)) KeyError /\
     snd (set_entry_point name a save w) = w).
Proof.
  intros H. split.
  - intros l nc Hl Hnc.
    set (w' := set_heap (fun h => <[l := with_entrypoint a nc]> h) w).
    exists w'. split.
    { unfold set_entry_point, mbind, Py_bind.
      rewrite (get_network_eq name w c H), Hl.
      rewrite (assign_eq l _ w nc Hnc). reflexivity. }
    assert (Hlen : l < length (heap w)) by (apply lookup_lt_is_Some; eauto).
    assert (Hsame : forall (f : NetworkConfig -> json) name',
               (forall x, f (with_entrypoint a x) = f x) ->
               field_of f name' w' = field_of f name' w).
    { intros f name' Hf. unfold field_of, w'. cbn [set_heap _instance heap]. rewrite H.
      destruct (dict_get name' (_networks c)) as [l'|]; [|reflexivity].
      destruct (Nat.eq_dec l' l) as [->|Hne].
      - rewrite list_lookup_insert_eq by exact Hlen. rewrite Hnc. now rewrite Hf.
      - rewrite list_lookup_insert_ne by congruence. reflexivity. }
    split; [|split; [|split]].
    + intros name' l' Hl'. rewrite !get_entry_point_eq. cbn [fst].
      unfold field_of, w'. cbn [set_heap _instance heap]. rewrite H, Hl'.
      destruct (Nat.eqb_spec l' l) as [->|Hne].
      * rewrite list_lookup_insert_eq by exact Hlen. reflexivity.
      * rewrite list_lookup_insert_ne by congruence. reflexivity.
    + intros name'. rewrite !get_rpc_url_eq, !get_chain_id_eq, !get_factory_eq.
      cbn [fst]. repeat split; apply Hsame; reflexivity.
    + unfold list_networks, mbind, Py_bind, this, w'. cbn [set_heap _instance].
      now rewrite H.
    + reflexivity.
  - intros Hn save. unfold set_entry_point, mbind, Py_bind.
    rewrite (get_network_eq name w c H), Hn. split; reflexivity.
Qed.

(** *** Removing a network *)

(** [remove_network] of a name that is not configured returns without
    saving, and nothing has changed.  For a configured name, without
    saving, the name is gone ([get_network] raises [KeyError]), every other
    name stands for what it stood for, in the same order, and no object and
    no file has changed. *)
Theorem remove_network_removes (name : string) (w : world) (c : Config) :
  _instance w = Some c ->
  List.NoDup (dict_keys (_networks c)) ->
  (dict_has name (_networks c) = false ->
   forall save, remove_network name save w = (Returned tt, w)) /\
  (dict_has name (_networks c) = true ->
   exists w',
     remove_network name false w = (Returned tt, w') /\
     throws (fst (get_network name w')) KeyError /\
     (forall name', name' <> name ->
        fst (get_network name' w') = fst (get_network name' w)) /\
     fst (list_networks w') =
       Returned (List.filter (fun k => negb (String.eqb name k))
                             (dict_keys (_networks c))) /\
     heap w' = heap w /\ files w' = files w).
Proof.
  intros H Hnd. split.
  - intros Hn save. unfold remove_network, mbind, Py_bind.
    rewrite (this_eq w c H), Hn. reflexivity.
  - intros Hy.
    set (c' := set_networks (dict_del name) c).
    exists (with_config c' w).
    assert (H1 : _instance (with_config c' w) = Some c') by reflexivity.
    split; [|split; [|split; [|split]]].
    + unfold remove_network, mbind, Py_bind. rewrite (this_eq w c H), Hy.
      rewrite (update_self_eq _ w c H). reflexivity.
    + rewrite (get_network_eq name _ c' H1). unfold c'. cbn [set_networks _networks].
      now rewrite dict_get_del_eq.
    + intros name' Hne.
      rewrite (get_network_eq name' _ c' H1), (get_network_eq name' w c H).
      unfold c'. cbn [set_networks _networks]. rewrite dict_get_del_ne by exact Hne.
      destruct (dict_get name' (_networks c)); reflexivity.
    + unfold list_networks, mbind, Py_bind. rewrite (this_eq _ c' H1).
      cbn [fst mret Py_ret]. unfold c'. cbn [set_networks _networks].
      now rewrite dict_keys_del.
    + split; reflexivity.
Qed.

(** *** Loading *)

Definition clear_networks (c : Config) : Config := set_networks (fun _ => []) c.

(** One turn of the loop of [load_from_json]. *)
Definition load_item (item : string * json) : Py world unit :=
  let '(network_name, network_data) := item in
  network_config ← py_lift (from_dict network_data);
  l ← alloc network_config;
  update_self (set_networks (dict_set network_name l)).

Definition not_found (path : string) : error :=
  mkError (Builtin FileNotFoundError) ("Config file not found: " +:+ path).

(** [load_from_json], path by path. *)
Lemma load_from_json_eq (path : option string) (w : world) (c : Config) :
  _instance w = Some c ->
  load_from_json path w =
  match files w !! str_or path (config_path c) with
  | None => (Raised (not_found (str_or path (config_path c))), w)
  | Some NotJson => (Raised (mkError (Builtin ValueError) "Expecting value"), w)
  | Some (Json config_data) =>
      match config_data with
      | JObj items =>
          match default (JObj []) (dict_get "networks" items) with
          | JObj networks => py_for networks load_item (with_config (clear_networks c) w)
          | _ => (Raised (mkError AttributeError "object has no attribute 'items'"),
                  with_config (clear_networks c) w)
          end
      | _ => (Raised (mkError AttributeError "object has no attribute 'get'"),
              with_config (clear_networks c) w)
      end
  end.
Proof.
  intros H. unfold load_from_json, mbind at 1, Py_bind at 1. rewrite (this_eq w c H).
  unfold mbind at 1, Py_bind at 1, py_get.
  destruct (files w !! str_or path (config_path c)) as [[v|]|]; try reflexivity.
  unfold mbind at 1, Py_bind at 1. rewrite (update_self_eq _ w c H).
  fold (clear_networks c).
  destruct v; try reflexivity.
  unfold mbind at 1, Py_bind at 1, mret at 1, Py_ret at 1.
  destruct (default (JObj []) (dict_get "networks" items)); reflexivity.
Qed.

(** The loop keeps the instance, its path, the files, and the objects that
    were there. *)
Lemma load_item_frame (item : string * json) (w : world) (c : Config) :
  _instance w = Some c ->
  exists c',
    _instance (snd (load_item item w)) = Some c' /\
    config_path c' = config_path c /\
    files (snd (load_item item w)) = files w /\
    writable (snd (load_item item w)) = writable w.
Proof.
  intros H. destruct item as [n data]. unfold load_item, mbind, Py_bind, py_lift.
  destruct (from_dict data) as [nc|e]; [|exists c; auto].
  unfold alloc. cbv beta iota.
  rewrite (update_self_eq _ _ c) by exact H.
  eexists. cbn [snd with_config set_instance set_heap _instance files writable].
  split; [reflexivity|]. auto.
Qed.

Lemma load_loop_frame (items : list (string * json)) :
  forall (w : world) (c : Config),
    _instance w = Some c ->
    exists c',
      _instance (snd (py_for items load_item w)) = Some c' /\
      config_path c' = config_path c /\
      files (snd (py_for items load_item w)) = files w /\
      writable (snd (py_for items load_item w)) = writable w.
Proof.
  induction items as [|item items IH]; intros w c H; [exists c; auto|].
  cbn [py_for]. unfold mbind, Py_bind.
  destruct (load_item_frame item w c H) as (c1 & H1 & P1 & F1 & W1).
  destruct (load_item item w) as [[[]|e] w1]; cbn [snd] in *.
  - destruct (IH w1 c1 H1) as (c2 & H2 & P2 & F2 & W2).
    exists c2. rewrite H2, P2, F2, W2. auto.
  - exists c1. auto.
Qed.

Lemma load_from_json_frame (path : option string) (w : world) (c : Config) :
  _instance w = Some c ->
  exists c',
    _instance (snd (load_from_json path w)) = Some c' /\
    config_path c' = config_path c /\
    files (snd (load_from_json path w)) = files w /\
    writable (snd (load_from_json path w)) = writable w.
Proof.
  intros H. rewrite (load_from_json_eq path w c H).
  destruct (files w !! _) as [[v|]|]; try (exists c; auto; fail).
  destruct v; try (exists (clear_networks c); auto; fail).
  destruct (default (JObj []) (dict_get "networks" items));
    try (exists (clear_networks c); auto; fail).
  apply (load_loop_frame items0 (with_config (clear_networks c) w) (clear_networks c)).
  reflexivity.
Qed.

(** [load_from_json] raises [FileNotFoundError] when the file is missing and
    [ValueError] when it is not JSON, and then nothing has changed.  Once
    the file has been read the networks are cleared first: a file that holds
    no object, or whose first network cannot be made, leaves the
    configuration with no network at all. *)
Theorem load_from_json_errors (path : option string) (w : world) (c : Config) :
  _instance w = Some c ->
  let p := str_or path (config_path c) in
  let r := load_from_json path w in
  (files w !! p = None ->
   throws (fst r) (Builtin FileNotFoundError) /\ snd r = w) /\
  (files w !! p = Some NotJson ->
   throws (fst r) (Builtin ValueError) /\ snd r = w) /\
  (forall v, files w !! p = Some (Json v) -> (forall items, v <> JObj items) ->
     throws (fst r) AttributeError /\ snd r = with_config (clear_networks c) w) /\
  (forall name data rest,
     files w !! p = Some (Json (JObj [("networks", JObj ((name, data) :: rest))])) ->
     returned (from_dict data) = false ->
     returned (fst r) = false /\ snd r = with_config (clear_networks c) w /\
     fst (list_networks (snd r)) = Returned []).
Proof.
  intros H. cbv zeta. rewrite (load_from_json_eq path w c H).
  split; [|split; [|split]].
  - intros E. rewrite E. split; reflexivity.
  - intros E. rewrite E. split; reflexivity.
  - intros v E Hv. rewrite E. destruct v; try (split; reflexivity).
    now contradiction (Hv items).
  - intros name data rest E Hd. rewrite E.
    cbn [dict_get String.eqb Ascii.eqb Bool.eqb default from_option id].
    change (dict_get "networks" [("networks", JObj ((name, data) :: rest))])
      with (Some (JObj ((name, data) :: rest))).
    cbn [default from_option id py_for load_item]. unfold mbind, Py_bind, py_lift.
    destruct (from_dict data); [discriminate Hd|].
    cbn [fst snd returned]. split; [reflexivity|]. split; [reflexivity|].
    reflexivity.
Qed.

(** *** Saving and loading back *)

(** The names of the configuration with the objects they stand for. *)
Fixpoint saved (h : list NetworkConfig) (d : dict nat) : list (string * NetworkConfig) :=
  match d with
  | [] => []
  | (n, l) :: rest =>
      match h !! l with
      | Some nc => (n, nc) :: saved h rest
      | None => saved h rest
      end
  end.

(** The configuration as the methods keep it: the names are distinct, each
    stands for an object, and each object has an RPC URL. *)
Definition well_formed (h : list NetworkConfig) (d : dict nat) : Prop :=
  List.NoDup (dict_keys d) /\
  Forall (fun item => exists nc, h !! snd item = Some nc /\ truth (rpc_url nc) = true) d.

Definition item_json (item : string * NetworkConfig) : string * json :=
  (fst item, to_dict (snd item)).

Lemma networks_dict_saved (h : list NetworkConfig) (d : dict nat) :
  Forall (fun item => exists nc, h !! snd item = Some nc /\ truth (rpc_url nc) = true) d ->
  networks_dict h d = Returned (map item_json (saved h d)) /\
  map fst (saved h d) = dict_keys d /\
  Forall (fun item => truth (rpc_url (snd item)) = true) (saved h d) /\
  forall name, dict_get name (saved h d) =
               match dict_get name d with Some l => h !! l | None => None end.
Proof.
  induction 1 as [|[n l] d (nc & Hl & Ht) _ (IH1 & IH2 & IH3 & IH4)];
    [repeat split; constructor|].
  cbn [networks_dict saved snd] in *. rewrite Hl, IH1. cbn [mbind outcome_bind].
  split; [reflexivity|]. split; [cbn; now rewrite IH2|].
  split; [constructor; assumption|].
  intros name. cbn [dict_get]. destruct (String.eqb name n); [now rewrite Hl | apply IH4].
Qed.

Lemma from_dict_to_dict (nc : NetworkConfig) :
  truth (rpc_url nc) = true -> from_dict (to_dict nc) = Returned nc.
Proof.
  intros H. destruct nc as [c r e f n]. cbn [rpc_url] in H.
  unfold from_dict, to_dict.
  cbn [chain_id rpc_url entrypoint_address factory_address name].
  change (forallb _ (dict_keys _)) with true. cbn [negb].
  change (dict_get "chain_id" _) with (Some c).
  change (dict_get "rpc_url" _) with (Some r).
  change (dict_get "entrypoint_address" _) with (Some e).
  change (dict_get "factory_address" _) with (Some f).
  change (dict_get "name" _) with (Some n).
  unfold NetworkConfig_new. rewrite H. reflexivity.
Qed.

(** The world after the loop has made the objects of [kvs]. *)
Definition loaded (kvs : list (string * NetworkConfig)) (c : Config) (w : world)
  : world :=
  {| _instance :=
       Some {| _networks := _networks c ++
                 combine (map fst kvs) (seq (length (heap w)) (length kvs));
               config_path := config_path c |};
     heap := heap w ++ map snd kvs;
     files := files w;
     writable := writable w |}.

Lemma load_loop (kvs : list (string * NetworkConfig)) :
  forall (w : world) (c : Config),
    _instance w = Some c ->
    List.NoDup (dict_keys (_networks c) ++ map fst kvs) ->
    Forall (fun item => truth (rpc_url (snd item)) = true) kvs ->
    py_for (map item_json kvs) load_item w = (Returned tt, loaded kvs c w).
Proof.
  induction kvs as [|[n nc] kvs IH]; intros w c H Hnd Ht.
  - cbn [map py_for]. unfold loaded. cbn [map length combine seq].
    rewrite !app_nil_r. destruct w as [i h f wr], c as [nets p]. cbn in *.
    now rewrite H.
  - apply Forall_cons_iff in Ht as [Ht1 Ht].
    cbn [map py_for item_json fst snd load_item]. unfold mbind, Py_bind, py_lift.
    rewrite (from_dict_to_dict nc Ht1). unfold alloc at 1. cbv beta iota.
    set (w1 := set_heap (fun h => h ++ [nc]) w).
    assert (H1 : _instance w1 = Some c) by exact H.
    rewrite (update_self_eq _ w1 c H1).
    assert (Hn : ~ In n (dict_keys (_networks c))).
    { intros Hin. apply NoDup_remove_2 in Hnd. apply Hnd.
      apply in_or_app. now left. }
    set (c1 := set_networks (dict_set n (length (heap w))) c).
    assert (Hc1 : _networks c1 = _networks c ++ [(n, length (heap w))]).
    { unfold c1. cbn [set_networks _networks]. now apply dict_keys_set_new. }
    rewrite (IH (with_config c1 w1) c1 eq_refl).
    + f_equal. unfold loaded.
      cbn [with_config set_instance set_heap w1 heap files writable _instance
           map fst snd length combine seq].
      rewrite Hc1, length_app. cbn [length]. rewrite Nat.add_1_r.
      rewrite <- !app_assoc. reflexivity.
    + rewrite Hc1. unfold dict_keys in *. rewrite map_app, <- app_assoc. cbn [map fst app].
      cbn [map fst] in Hnd.
      apply NoDup_remove_1 in Hnd as Hnd1. pose proof (NoDup_remove_2 _ _ _ Hnd) as Hnd2.
      clear -Hnd1 Hnd2. revert Hnd1 Hnd2.
      generalize (map fst (_networks c)) as l1. generalize (map fst kvs) as l2.
      intros l2 l1. induction l1 as [|a l1 IHl]; cbn; intros N1 N2.
      * constructor; assumption.
      * apply NoDup_cons_iff in N1 as [Na N1]. constructor.
        -- intros Hin. apply in_app_or in Hin as [Hin|[->|Hin]].
           ++ apply Na. apply in_or_app. now left.
           ++ apply N2. now left.
           ++ apply Na. apply in_or_app. now right.
        -- apply IHl; [exact N1|]. intros Hin. apply N2. now right.
    + exact Ht.
Qed.

(** Looking a name up in what has been loaded. *)
Lemma loaded_lookup (kvs : list (string * NetworkConfig)) (name : string) :
  forall (h : list NetworkConfig),
    match dict_get name (combine (map fst kvs) (seq (length h) (length kvs))) with
    | Some l => (h ++ map snd kvs) !! l
    | None => None
    end = dict_get name kvs.
Proof.
  induction kvs as [|[n nc] kvs IH]; intros h; [reflexivity|].
  cbn [map fst snd length seq combine dict_get].
  destruct (String.eqb name n).
  - rewrite lookup_app_r by lia. now rewrite Nat.sub_diag.
  - specialize (IH (h ++ [nc])). rewrite length_app in IH. cbn [length] in IH.
    rewrite Nat.add_1_r, <- app_assoc in IH. exact IH.
Qed.

Lemma loaded_keys (kvs : list (string * NetworkConfig)) (b : nat) :
  dict_keys (combine (map fst kvs) (seq b (length kvs))) = map fst kvs.
Proof.
  unfold dict_keys. revert b. induction kvs as [|[n nc] kvs IH]; intros b; [reflexivity|].
  cbn. now rewrite IH.
Qed.

Lemma loaded_refs (kvs : list (string * NetworkConfig)) (b : nat) :
  map snd (combine (map fst kvs) (seq b (length kvs))) = seq b (length kvs).
Proof.
  revert b. induction kvs as [|[n nc] kvs IH]; intros b; [reflexivity|].
  cbn. now rewrite IH.
Qed.

Lemma field_of_object (f : NetworkConfig -> json) (name : string) (w : world)
      (c : Config) (o : option NetworkConfig) :
  _instance w = Some c ->
  match dict_get name (_networks c) with Some l => heap w !! l | None => None end = o ->
  (forall l, dict_get name (_networks c) = Some l -> is_Some (heap w !! l)) ->
  field_of f name w =
  match o with
  | Some nc => Returned (f nc)
  | None => Raised (mkError KeyError ("Network '" +:+ name +:+ "' not configured"))
  end.
Proof.
  intros H Ho Hv. unfold field_of. rewrite H.
  destruct (dict_get name (_networks c)) as [l|]; [|now subst o].
  destruct (Hv l eq_refl) as [nc Hnc]. rewrite Hnc in *. now subst o.
Qed.

(** A configuration that is saved and loaded back has the same names in the
    same order, and under each name the same chain id, RPC URL, entry point
    and factory.  The objects are new ones, one for each name, so that two
    names that stood for one object no longer do; the objects that were
    there are untouched. *)
Theorem save_load_roundtrip (path : option string) (w : world) (c : Config) :
  _instance w = Some c ->
  well_formed (heap w) (_networks c) ->
  writable w (str_or path (config_path c)) = true ->
  exists w1 w2 c2,
    save_to_json path w = (Returned tt, w1) /\
    load_from_json path w1 = (Returned tt, w2) /\
    fst (list_networks w2) = fst (list_networks w) /\
    (forall name,
       fst (get_chain_id name w2) = fst (get_chain_id name w) /\
       fst (get_rpc_url name w2) = fst (get_rpc_url name w) /\
       fst (get_entry_point name w2) = fst (get_entry_point name w) /\
       fst (get_factory name w2) = fst (get_factory name w)) /\
    _instance w2 = Some c2 /\
    config_path c2 = config_path c /\
    List.NoDup (map snd (_networks c2)) /\
    Forall (fun l => length (heap w) <= l) (map snd (_networks c2)) /\
    (forall l nc, heap w !! l = Some nc -> heap w2 !! l = Some nc).
Proof.
  intros H [Hnd Hwf] Hw.
  destruct (networks_dict_saved (heap w) (_networks c) Hwf) as (Hs & Hk & Ht & Hg).
  set (kvs := saved (heap w) (_networks c)) in *.
  set (p := str_or path (config_path c)) in *.
  set (data := Json (JObj [("networks", JObj (map item_json kvs))])).
  set (w1 := set_files (insert p data) w).
  set (c0 := clear_networks c).
  set (w2 := loaded kvs c0 (with_config c0 w1)).
  assert (E1 : save_to_json path w = (Returned tt, w1)).
  { rewrite (save_to_json_eq path w c H), Hs. fold p. now rewrite Hw. }
  assert (E2 : load_from_json path w1 = (Returned tt, w2)).
  { rewrite (load_from_json_eq path w1 c H). fold p.
    replace (files w1 !! p) with (Some data) by (symmetry; apply lookup_insert_eq).
    unfold data.
    change (dict_get "networks" [("networks", JObj (map item_json kvs))])
      with (Some (JObj (map item_json kvs))).
    cbn [default from_option id]. fold c0.
    apply (load_loop kvs (with_config c0 w1) c0 eq_refl); [|exact Ht].
    cbn [c0 clear_networks set_networks _networks dict_keys map app].
    rewrite Hk. exact Hnd. }
  set (c2 := {| _networks := combine (map fst kvs) (seq (length (heap w)) (length kvs));
                config_path := config_path c |}).
  assert (H2 : _instance w2 = Some c2) by reflexivity.
  assert (Hh2 : heap w2 = heap w ++ map snd kvs) by reflexivity.
  exists w1, w2, c2.
  split; [exact E1|]. split; [exact E2|].
  assert (Hfield : forall (f : NetworkConfig -> json) name,
            field_of f name w2 = field_of f name w).
  { intros f name.
    rewrite (field_of_object f name w2 c2 (dict_get name kvs) H2).
    - rewrite (field_of_object f name w c (dict_get name kvs) H); [reflexivity| |].
      + symmetry. apply Hg.
      + intros l Hl. apply dict_get_In in Hl.
        destruct (proj1 (List.Forall_forall _ _) Hwf _ Hl) as (nc & Hnc & _).
        cbn [snd] in Hnc. now exists nc.
    - rewrite Hh2. cbn [c2 _networks]. apply loaded_lookup.
    - intros l Hl. cbn [c2 _networks] in Hl. apply dict_get_In in Hl.
      apply (in_map snd) in Hl. rewrite loaded_refs in Hl. cbn [snd] in Hl.
      apply in_seq in Hl. apply lookup_lt_is_Some.
      rewrite Hh2, length_app, length_map. lia. }
  split.
  { unfold list_networks, mbind, Py_bind. rewrite (this_eq w2 c2 H2), (this_eq w c H).
    cbn [fst mret Py_ret c2 _networks]. now rewrite loaded_keys, Hk. }
  split.
  { intros name.
    rewrite !get_chain_id_eq, !get_rpc_url_eq, !get_entry_point_eq, !get_factory_eq.
    cbn [fst]. repeat split; apply Hfield. }
  split; [exact H2|]. split; [reflexivity|].
  cbn [c2 _networks]. rewrite loaded_refs.
  split; [apply seq_NoDup|]. split.
  - apply List.Forall_forall. intros l Hl. apply in_seq in Hl. lia.
  - intros l nc Hl. rewrite Hh2. apply lookup_app_l_Some. exact Hl.
Qed.

(** *** The singleton *)

(** [Config(path)] on an instance that exists returns it as it is: the path
    is not looked at and no file is read.  The first call installs the
    instance with the path given, or [config.json], before it loads the
    file; so the instance is there with that path even when loading raises,
    and every later call returns without doing anything.  Where there is no
    file, the first call returns a configuration with no network. *)
Theorem config_singleton (config_path_arg : option string) (w : world) :
  (is_Some (_instance w) -> Config_call config_path_arg w = (Returned tt, w)) /\
  (_instance w = None ->
   let r := Config_call config_path_arg w in
   let p := str_or config_path_arg DEFAULT_CONFIG_PATH in
   (exists c, _instance (snd r) = Some c /\ config_path c = p) /\
   files (snd r) = files w /\
   (files w !! p = None ->
    r = (Returned tt, with_config {| _networks := []; config_path := p |} w)) /\
   (forall other, Config_call other (snd r) = (Returned tt, snd r))).
Proof.
  split.
  - intros [c H]. unfold Config_call, mbind, Py_bind, py_get. now rewrite H.
  - intros H. cbv zeta.
    set (p := str_or config_path_arg DEFAULT_CONFIG_PATH).
    set (c0 := {| _networks := []; config_path := p |}).
    assert (E : Config_call config_path_arg w =
                if bool_decide (is_Some (files w !! p))
                then load_from_json None (with_config c0 w)
                else (Returned tt, with_config c0 w)).
    { unfold Config_call, mbind, Py_bind, py_get, py_modify. rewrite H.
      fold p. destruct (bool_decide _); reflexivity. }
    assert (Later : forall w' c, _instance w' = Some c ->
              forall other, Config_call other w' = (Returned tt, w')).
    { intros w' c Hc other. unfold Config_call, mbind, Py_bind, py_get.
      now rewrite Hc. }
    rewrite E. destruct (files w !! p) as [v|] eqn:Hf.
    + rewrite bool_decide_eq_true_2 by (now exists v).
      destruct (load_from_json_frame None (with_config c0 w) c0 eq_refl)
        as (c' & Hi & Hp & Hfi & _).
      split; [exists c'; split; [exact Hi | exact Hp]|].
      split; [exact Hfi|]. split; [discriminate|].
      apply (Later _ c' Hi).
    + rewrite bool_decide_eq_false_2 by (intros [v Hv]; discriminate).
      cbn [snd]. split; [exists c0; split; reflexivity|].
      split; [reflexivity|]. split; [reflexivity|].
      apply (Later (with_config c0 w) c0 eq_refl).
Qed.

(** *** Concrete runs *)

Definition sepolia : NetworkConfig :=
  {| chain_id := JInt 11155111; rpc_url := JStr "https://rpc.sepolia.org";
     entrypoint_address := JNull; factory_address := JNull;
     name := JStr "Sepolia Testnet" |}.

(** One object under two names, nothing on disk, every path writable. *)
Definition two_names : world :=
  {| _instance := Some {| _networks := [("sepolia", 0); ("testnet", 0)];
                          config_path := "config.json" |};
     heap := [sepolia];
     files := ∅;
     writable := fun _ => true |}.

Lemma add_network_registers_witness :
  let r := add_network "mainnet" 0 true
             {| _instance := _instance two_names; heap := heap two_names;
                files := files two_names; writable := fun _ => false |} in
  fst (get_network "mainnet" (snd r)) = Returned 0 /\
  returned (fst r) = false.
Proof.
  cbv zeta.
  destruct (add_network_registers "mainnet" 0 true
              {| _instance := _instance two_names; heap := heap two_names;
                 files := files two_names; writable := fun _ => false |}
              _ eq_refl) as (H & _).
  split; [exact H | reflexivity].
Defined.

Lemma set_entry_point_aliases_witness :
  exists w',
    set_entry_point "sepolia" (JStr "0xEP") false two_names = (Returned tt, w') /\
    fst (get_entry_point "testnet" w') = Returned (JStr "0xEP").
Proof.
  destruct (set_entry_point_aliases "sepolia" (JStr "0xEP") two_names _ eq_refl)
    as (H & _).
  destruct (H 0 sepolia eq_refl eq_refl) as (w' & E & A & _).
  exists w'. split; [exact E|]. exact (A "testnet" 0 eq_refl).
Defined.

Lemma remove_network_removes_witness :
  exists w',
    remove_network "sepolia" false two_names = (Returned tt, w') /\
    throws (fst (get_network "sepolia" w')) KeyError /\
    fst (list_networks w') = Returned ["testnet"].
Proof.
  assert (N : List.NoDup ["sepolia"; "testnet"]).
  { constructor; [intros [E|[]]; discriminate E|]. constructor; [intros []|constructor]. }
  destruct (remove_network_removes "sepolia" two_names _ eq_refl N) as (_ & H).
  destruct (H eq_refl) as (w' & E & K & _ & L & _).
  exists w'. split; [exact E|]. split; [exact K | exact L].
Defined.

Lemma load_from_json_errors_witness :
  throws (fst (load_from_json None two_names)) (Builtin FileNotFoundError) /\
  snd (load_from_json None two_names) = two_names.
Proof.
  destruct (load_from_json_errors None two_names _ eq_refl) as (H & _).
  exact (H eq_refl).
Defined.

Lemma save_load_roundtrip_witness :
  exists w1 w2,
    save_to_json None two_names = (Returned tt, w1) /\
    load_from_json None w1 = (Returned tt, w2) /\
    fst (list_networks w2) = Returned ["sepolia"; "testnet"] /\
    fst (get_network "sepolia" w2) <> fst (get_network "testnet" w2).
Proof.
  assert (W : well_formed (heap two_names) [("sepolia", 0); ("testnet", 0)]).
  { split.
    - constructor; [intros [E|[]]; discriminate E|].
      constructor; [intros []|constructor].
    - repeat constructor; exists sepolia; split; reflexivity. }
  destruct (save_load_roundtrip None two_names _ eq_refl W eq_refl)
    as (w1 & w2 & c2 & E1 & E2 & L & _ & I & _ & N & _).
  exists w1, w2. split; [exact E1|]. split; [exact E2|]. split; [exact L|].
  rewrite (get_network_eq "sepolia" w2 c2 I), (get_network_eq "testnet" w2 c2 I).
  assert (K : dict_keys (_networks c2) = ["sepolia"; "testnet"]).
  { unfold list_networks, mbind, Py_bind in L. rewrite (this_eq w2 c2 I) in L.
    cbn in L. now injection L. }
  destruct (_networks c2) as [|[n1 l1] [|[n2 l2] [|]]]; try discriminate K.
  injection K as -> ->. cbn in N |- *.
  apply NoDup_cons_iff in N as [N _]. intros E. injection E as ->.
  apply N. now left.
Defined.

End ConfigFacts.

(* ------------------------------------------------------------------------- *)
(** ** The accounts of a wallet *)

Module WalletFacts.
Import pyvalues DictFacts wallet.

Section Facts.

Context {node : account_methods.Node} {str : Str}.

#[warnings="-notation-for-abbreviation"] Local Notation Account := (account_methods.Account account_methods.Web3).

(** The accounts that the wallet holds on a network. *)
Definition accounts_of (name : string) (s : state) : list Account :=
  default [] (dict_get name (_accounts (self s))).

Lemma get_accounts_eq (name : string) (s : state) :
  get_accounts name s = (Returned (accounts_of name s), s).
Proof. reflexivity. Qed.

(** The wallet after [add_account] has made sure that the network has a
    list. *)
Definition new_entry (name : string) (s : state) : state :=
  if dict_has name (_accounts (self s)) then s
  else set_accounts (dict_set name []) s.

(** The wallet after [add_account] has appended the account. *)
Definition appended (name : string) (account : Account) (s : state) : state :=
  set_accounts (fun d => dict_set name (default [] (dict_get name d) ++ [account]) d) s.

Lemma accounts_of_new_entry (name name' : string) (s : state) :
  accounts_of name' (new_entry name s) = accounts_of name' s.
Proof.
  unfold new_entry, accounts_of, dict_has.
  destruct (dict_get name (_accounts (self s))) eqn:E; [reflexivity|].
  cbn [set_accounts self _accounts].
  destruct (String.eqb_spec name' name) as [->|Hn].
  - now rewrite dict_get_set_eq, E.
  - now rewrite dict_get_set_ne.
Qed.

Lemma new_entry_has (name : string) (s : state) :
  dict_has name (_accounts (self (new_entry name s))) = true.
Proof.
  unfold new_entry. destruct (dict_has name (_accounts (self s))) eqn:E; [exact E|].
  cbn [set_accounts self _accounts]. unfold dict_has. now rewrite dict_get_set_eq.
Qed.

Lemma new_entry_frame (name : string) (s : state) :
  env (new_entry name s) = env s /\
  key_manager (self (new_entry name s)) = key_manager (self s) /\
  wallet_name (self (new_entry name s)) = wallet_name (self s) /\
  storage_path (self (new_entry name s)) = storage_path (self s).
Proof. unfold new_entry. destruct (dict_has _ _); repeat split. Qed.

Lemma accounts_of_appended (name : string) (account : Account) (s : state) :
  accounts_of name (appended name account s) = accounts_of name s ++ [account].
Proof.
  unfold appended, accounts_of. cbn [set_accounts self _accounts].
  now rewrite dict_get_set_eq.
Qed.

Lemma accounts_of_appended_ne (name name' : string) (account : Account) (s : state) :
  name' <> name -> accounts_of name' (appended name account s) = accounts_of name' s.
Proof.
  intros H. unfold appended, accounts_of. cbn [set_accounts self _accounts].
  now rewrite dict_get_set_ne.
Qed.

(** Whether [add_account] finds the network usable. *)
Definition configured (name : string) (rpc_url : option string) (s : state)
  : outcome bool :=
  if account_methods.truthy rpc_url then Returned true
  else fst (config.has_network name (env s)).

Definition not_configured (name : string) : error :=
  mkError (Builtin ValueError)
    ("Network '" +:+ name +:+ "' not configured. "
     +:+ "Add it to Config or provide custom rpc_url").

Definition duplicate (address name : string) : error :=
  mkError (Builtin ValueError)
    ("Account " +:+ address +:+ " already exists on " +:+ name
     +:+ ". Cannot add duplicate account.").

Definition not_owner (address : option string) : error :=
  mkError (Builtin ValueError)
    ("KeyManager address " +:+ default "" address
     +:+ " is not in account owners. "
     +:+ "This wallet cannot sign for this account.").

(** The key of the key manager is one of the owners given, or there is no
    key. *)
Definition may_sign (s : state) (owners : list string) : bool :=
  negb (account_methods.truthy (keyManager.address (key_manager (self s))) &&
        negb (str_in (default "" (keyManager.address (key_manager (self s)))) owners)).

Lemma has_network_state (name : string) (w : config.world) :
  snd (config.has_network name w) = w.
Proof.
  unfold config.has_network, config.this, mbind, Py_bind.
  destruct (config._instance w); reflexivity.
Qed.

(** [add_account], path by path. *)
Lemma add_account_eq (name address : string) (owners : list string) (t : Z)
      (gs : option (list string)) (gt : Z) (b p rpc : option string) (save_flag : bool)
      (s : state) :
  add_account name address owners t gs gt b p rpc save_flag s =
  match configured name rpc s with
  | Raised e => (Raised e, {| self := self s; env := env s |})
  | Returned false => (Raised (not_configured name), {| self := self s; env := env s |})
  | Returned true =>
      let s0 := if account_methods.truthy rpc then s
                else {| self := self s; env := env s |} in
      let s1 := new_entry name s0 in
      if existsb (fun existing_account =>
                    same_address (account_methods.contract_address existing_account)
                                 address) (accounts_of name s1)
      then (Raised (duplicate address name), s1)
      else
        match account_methods.__init__ name address owners t gs gt b p rpc with
        | Raise e => (Raised (error_of e), s1)
        | Ok account =>
            if may_sign s1 owners
            then
              if save_flag
              then (match fst (save None (appended name account s1)) with
                    | Returned _ => Returned account
                    | Raised e => Raised e
                    end, snd (save None (appended name account s1)))
              else (Returned account, appended name account s1)
            else (Raised (not_owner (keyManager.address (key_manager (self s1)))), s1)
        end
  end.
Proof.
  unfold add_account, configured. unfold mbind at 1, Py_bind at 1.
  destruct (account_methods.truthy rpc) eqn:Hr.
  - unfold mret at 1, Py_ret at 1. cbn [negb].
    unfold mbind at 1, Py_bind at 1, py_modify. fold (new_entry name s).
    unfold mbind at 1, Py_bind at 1, py_get. fold (accounts_of name (new_entry name s)).
    destruct (existsb _ _); [reflexivity|].
    unfold mbind at 1, Py_bind at 1, py_lift.
    destruct (account_methods.__init__ _ _ _ _ _ _ _ _ _) as [account|e];
      [|reflexivity].
    cbn [of_result]. unfold may_sign.
    destruct (account_methods.truthy _ && negb _); [reflexivity|]. cbn [negb].
    unfold mbind at 1, Py_bind at 1, py_modify. fold (appended name account (new_entry name s)).
    destruct save_flag.
    + unfold mbind at 1, Py_bind at 1.
      destruct (save None _) as [[[]|e] s3]; reflexivity.
    + reflexivity.
  - unfold in_env at 1.
    pose proof (has_network_state name (env s)) as Hs.
    destruct (config.has_network name (env s)) as [[c|e] w]; cbn [fst snd] in *;
      subst w; [|reflexivity].
    destruct c; cbn [negb]; [|reflexivity].
    set (s0 := {| self := self s; env := env s |}).
    unfold mbind at 1, Py_bind at 1, py_modify. fold (new_entry name s0).
    unfold mbind at 1, Py_bind at 1, py_get. fold (accounts_of name (new_entry name s0)).
    destruct (existsb _ _); [reflexivity|].
    unfold mbind at 1, Py_bind at 1, py_lift.
    destruct (account_methods.__init__ _ _ _ _ _ _ _ _ _) as [account|e];
      [|reflexivity].
    cbn [of_result]. unfold may_sign.
    destruct (account_methods.truthy _ && negb _); [reflexivity|]. cbn [negb].
    unfold mbind at 1, Py_bind at 1, py_modify. fold (appended name account (new_entry name s0)).
    destruct save_flag.
    + unfold mbind at 1, Py_bind at 1.
      destruct (save None _) as [[[]|e] s3]; reflexivity.
    + reflexivity.
Qed.


Lemma truthy_Some (a : string) : account_methods.truthy (Some a) = true <-> a <> "".
Proof. destruct a; cbn; split; congruence. Qed.

Lemma str_in_In (x : string) (l : list string) : str_in x l = true <-> In x l.
Proof.
  unfold str_in. rewrite existsb_exists. split.
  - intros (y & Hy & E). apply String.eqb_eq in E. now subst y.
  - intros H. exists x. split; [exact H | apply String.eqb_refl].
Qed.

Lemma may_sign_spec (s : state) (owners : list string) :
  may_sign s owners = true <->
  (forall a, keyManager.address (key_manager (self s)) = Some a -> a <> "" -> In a owners).
Proof.
  unfold may_sign. destruct (keyManager.address (key_manager (self s))) as [a|].
  - cbn [default from_option id]. split.
    + intros H a' [= <-] Ha. apply str_in_In.
      apply truthy_Some in Ha. rewrite Ha in H. cbn [andb] in H.
      now destruct (str_in a owners).
    + intros H. destruct (account_methods.truthy (Some a)) eqn:Ht; [|reflexivity].
      apply truthy_Some in Ht. cbn [andb].
      now rewrite (proj2 (str_in_In a owners) (H a eq_refl Ht)).
  - split; [intros _ a E; discriminate E | reflexivity].
Qed.

Lemma configured_spec (name : string) (rpc : option string) (s : state) :
  configured name rpc s = Returned true <->
  account_methods.truthy rpc = true \/
  fst (config.has_network name (env s)) = Returned true.
Proof.
  unfold configured. destruct (account_methods.truthy rpc); split; auto.
  intros [H|H]; [discriminate H | exact H].
Qed.

Lemma no_duplicate_spec (address : string) (l : list Account) :
  existsb (fun existing_account =>
             same_address (account_methods.contract_address existing_account) address) l
  = false <->
  (forall existing, In existing l ->
     same_address (account_methods.contract_address existing) address = false).
Proof.
  induction l as [|a l IH]; cbn [existsb]; [split; [intros _ ? [] | reflexivity]|].
  rewrite orb_false_iff, IH. split.
  - intros [H1 H2] e [<-|He]; [exact H1 | now apply H2].
  - intros H. split; [apply H; now left | intros e He; apply H; now right].
Qed.

Definition os_error : error :=
  mkError (Builtin OSError) "cannot open file for writing".

(** [save] writes one file and leaves the wallet as it is. *)
Lemma save_eq (path : option string) (s : state) :
  let p := str_or path (storage_path (self s)) in
  self (snd (save path s)) = self s /\
  config._instance (env (snd (save path s))) = config._instance (env s) /\
  config.heap (env (snd (save path s))) = config.heap (env s) /\
  (config.writable (env s) p = false ->
   fst (save path s) = Raised os_error /\ env (snd (save path s)) = env s) /\
  (config.writable (env s) p = true ->
   fst (save path s) = Returned tt /\
   forall p', p' <> p ->
     config.files (env (snd (save path s))) !! p' = config.files (env s) !! p').
Proof.
  cbv zeta. unfold save, mbind, Py_bind, py_get, in_env, config.dump_file.
  destruct (config.writable (env s) _); cbn [fst snd self env].
  - split; [reflexivity|]. split; [reflexivity|]. split; [reflexivity|].
    split; [discriminate|]. intros _. split; [reflexivity|].
    intros p' Hp. cbn [config.set_files config.files]. now apply lookup_insert_ne.
  - split; [reflexivity|]. split; [reflexivity|]. split; [reflexivity|].
    split; [intros _; split; reflexivity | discriminate].
Qed.

(** The choice that [get_account] makes in the accounts of a network. *)
Definition lookup_account (name : string) (address : option string) (index : Z)
           (accounts : list Account) : outcome Account :=
  match accounts with
  | [] => Raised (mkError KeyError ("No accounts for network '" +:+ name +:+ "'. "))
  | _ =>
      if account_methods.truthy address
      then
        match find (fun account =>
                      same_address (account_methods.contract_address account)
                                   (default "" address)) accounts with
        | Some account => Returned account
        | None => Raised (mkError KeyError
                            ("Account " +:+ default "" address +:+ " not found on "
                             +:+ name))
        end
      else if (Z.of_nat (length accounts) <=? index)%Z
      then Raised (mkError IndexError
                     ("Account index " +:+ pretty index +:+ " out of range. " +:+ name
                      +:+ " has " +:+ pretty (length accounts) +:+ " account(s)"))
      else list_index accounts index
  end.

Lemma get_account_eq (name : string) (address : option string) (index : Z)
      (s : state) :
  get_account name address index s =
  (lookup_account name address index (accounts_of name s), s).
Proof.
  unfold get_account, accounts_of, lookup_account, mbind, Py_bind, py_get.
  destruct (dict_get name (_accounts (self s))) as [[|a l]|]; try reflexivity.
  cbn [default from_option id].
  destruct (account_methods.truthy address).
  - destruct (find _ _); reflexivity.
  - destruct (_ <=? _)%Z; reflexivity.
Qed.

Lemma has_account_eq (name : string) (s : state) :
  has_account name s =
  (Returned (match accounts_of name s with [] => false | _ => true end), s).
Proof.
  unfold has_account, accounts_of, mbind, Py_bind, py_get.
  destruct (dict_get name (_accounts (self s))) as [[|a l]|]; reflexivity.
Qed.

(** Python's indexing: an index from [-n] to [n - 1] on a list of [n]
    elements is taken modulo [n]; every other index is out of range. *)
Lemma list_index_spec {A} (l : list A) (index : Z) :
  let n := Z.of_nat (length l) in
  ((- n <= index < n)%Z ->
   exists a, l !! Z.to_nat (index mod n) = Some a /\ list_index l index = Returned a) /\
  ((index < - n \/ n <= index)%Z -> throws (list_index l index) IndexError).
Proof.
  cbv zeta. unfold list_index. split.
  - intros H.
    assert (Hi : (0 <= index mod Z.of_nat (length l) < Z.of_nat (length l))%Z)
      by (apply Z.mod_pos_bound; lia).
    destruct (l !! Z.to_nat (index mod Z.of_nat (length l))) as [a|] eqn:E.
    2:{ apply lookup_ge_None in E. lia. }
    exists a. split; [reflexivity|].
    destruct (Z.ltb_spec index 0) as [Hn|Hn].
    + replace (index mod Z.of_nat (length l))%Z with (Z.of_nat (length l) + index)%Z in E
        by (apply Zmod_unique with (q := (-1)%Z); lia).
      destruct (Z.ltb_spec (Z.of_nat (length l) + index) 0) as [Hm|Hm]; [lia|].
      now rewrite E.
    + rewrite Z.mod_small in E by lia.
      destruct (Z.ltb_spec index 0) as [Hm|Hm]; [lia|]. now rewrite E.
  - intros H. destruct (Z.ltb_spec index 0) as [Hn|Hn].
    + destruct (Z.ltb_spec (Z.of_nat (length l) + index) 0) as [Hm|Hm]; [reflexivity|].
      destruct H as [H|H]; lia.
    + destruct (Z.ltb_spec index 0) as [Hm|Hm]; [lia|].
      destruct (l !! Z.to_nat index) as [a|] eqn:E; [|reflexivity].
      apply lookup_lt_Some in E. lia.
Qed.

Lemma find_last {A} (f : A -> bool) (l : list A) (a : A) :
  (forall x, In x l -> f x = false) -> f a = true -> find f (l ++ [a]) = Some a.
Proof.
  intros Hl Ha. induction l as [|x l IH]; cbn [app find].
  - now rewrite Ha.
  - rewrite (Hl x) by now left. apply IH. intros y Hy. apply Hl. now right.
Qed.

Lemma find_filter_negb {A} (f : A -> bool) (l : list A) :
  find f (List.filter (fun x => negb (f x)) l) = None.
Proof.
  induction l as [|x l IH]; cbn [List.filter find]; [reflexivity|].
  destruct (f x) eqn:E; cbn [negb]; [exact IH|]. cbn [find]. now rewrite E.
Qed.

(** No two accounts of a network have the same address in lower case. *)
Definition unique (s : state) : Prop :=
  forall name,
    List.NoDup (map (fun a => lower (account_methods.contract_address a))
                    (accounts_of name s)).

(** An account that [add_account] takes is appended to the accounts of its
    network, a list that is made if the network had none; the other
    networks keep theirs and nothing is written.  The account is then the
    one that [get_account] returns for the index -1, and for its address
    if [to_checksum_address] has kept the address up to case; in that case
    the addresses of a network also stay distinct up to case. *)
Theorem add_account_appends (name address : string) (owners : list string) (t : Z)
      (gs : option (list string)) (gt : Z) (b p rpc : option string)
      (s : state) (account : Account) :
  account_methods.truthy rpc = true \/
  fst (config.has_network name (env s)) = Returned true ->
  (forall existing, In existing (accounts_of name s) ->
     same_address (account_methods.contract_address existing) address = false) ->
  account_methods.__init__ name address owners t gs gt b p rpc = Ok account ->
  (forall a, keyManager.address (key_manager (self s)) = Some a -> a <> "" ->
             In a owners) ->
  exists s',
    add_account name address owners t gs gt b p rpc false s = (Returned account, s') /\
    fst (get_accounts name s') = Returned (accounts_of name s ++ [account]) /\
    (forall name', name' <> name ->
       fst (get_accounts name' s') = fst (get_accounts name' s)) /\
    fst (get_account name None (-1) s') = Returned account /\
    fst (has_account name s') = Returned true /\
    env s' = env s /\
    key_manager (self s') = key_manager (self s) /\
    (lower (account_methods.contract_address account) = lower address ->
     (address <> "" ->
      forall index, fst (get_account name (Some address) index s') = Returned account) /\
     (unique s -> unique s')).
Proof.
  intros Hc Hd Hi Hk.
  apply configured_spec in Hc. apply may_sign_spec in Hk.
  pose proof (proj2 (no_duplicate_spec address (accounts_of name s)) Hd) as Hd'.
  set (s0 := if account_methods.truthy rpc then s
             else {| self := self s; env := env s |}).
  assert (Hs0 : self s0 = self s /\ env s0 = env s)
    by (unfold s0; destruct (account_methods.truthy rpc); split; reflexivity).
  destruct Hs0 as [Hself Henv].
  assert (Ha0 : forall n, accounts_of n s0 = accounts_of n s)
    by (intros n; unfold accounts_of; now rewrite Hself).
  set (s1 := new_entry name s0).
  assert (Ha1 : forall n, accounts_of n s1 = accounts_of n s)
    by (intros n; unfold s1; now rewrite accounts_of_new_entry, Ha0).
  destruct (new_entry_frame name s0) as (He1 & Hk1 & _).
  fold s1 in He1, Hk1.
  assert (Hm : may_sign s1 owners = true)
    by (unfold may_sign in *; now rewrite Hk1, Hself).
  exists (appended name account s1).
  assert (Hl : accounts_of name (appended name account s1) = accounts_of name s ++ [account])
    by (now rewrite accounts_of_appended, Ha1).
  split.
  { rewrite add_account_eq, Hc. cbv zeta. fold s0. fold s1.
    rewrite Ha1, Hd', Hi, Hm. reflexivity. }
  split; [now rewrite get_accounts_eq, Hl|].
  split.
  { intros name' Hn. rewrite !get_accounts_eq. cbn [fst].
    now rewrite accounts_of_appended_ne, Ha1. }
  split.
  { rewrite get_account_eq, Hl. cbn [fst]. unfold lookup_account.
    destruct (accounts_of name s ++ [account]) as [|a0 l0] eqn:El;
      [now destruct (accounts_of name s)|].
    rewrite <- El. cbn [account_methods.truthy].
    destruct (Z.leb_spec (Z.of_nat (length (accounts_of name s ++ [account]))) (-1))
      as [Hle|Hle]; [lia|].
    destruct (list_index_spec (accounts_of name s ++ [account]) (-1)) as [Hin _].
    destruct Hin as (a & Ha & ->).
    { rewrite length_app. cbn [length]. lia. }
    replace ((-1) mod Z.of_nat (length (accounts_of name s ++ [account])))%Z
      with (Z.of_nat (length (accounts_of name s))) in Ha.
    - rewrite Nat2Z.id, list_lookup_middle in Ha by reflexivity. now injection Ha as ->.
    - apply Zmod_unique with (q := (-1)%Z); rewrite length_app; cbn [length]; lia. }
  split.
  { rewrite has_account_eq, Hl. cbn [fst].
    now destruct (accounts_of name s). }
  split; [exact (eq_trans He1 Henv)|].
  split; [exact (eq_trans Hk1 (f_equal key_manager Hself))|].
  intros Hlow. split.
  - intros Hne index. rewrite get_account_eq, Hl. cbn [fst]. unfold lookup_account.
    destruct (accounts_of name s ++ [account]) as [|a0 l0] eqn:El;
      [now destruct (accounts_of name s)|].
    rewrite <- El. rewrite (proj2 (truthy_Some address) Hne).
    cbn [default from_option id].
    rewrite find_last; [reflexivity | exact Hd |].
    unfold same_address. rewrite Hlow. apply String.eqb_refl.
  - intros Hu name'. destruct (String.eqb_spec name' name) as [->|Hn].
    + rewrite Hl, map_app. cbn [map].
      apply List.NoDup_app; [apply Hu | constructor; [intros [] | constructor] |].
      intros x Hx [E|[]]. apply in_map_iff in Hx as (e & He & Hin).
      specialize (Hd e Hin). unfold same_address in Hd.
      apply String.eqb_neq in Hd. congruence.
    + rewrite accounts_of_appended_ne, Ha1 by exact Hn. apply Hu.
Qed.

(** [add_account] raises [ValueError] for a network that is not configured
    when no RPC URL is given, and for an address that the network has up to
    case; the wallet is then as it was.  When the account cannot be made, or
    the key of the key manager is not among the owners as they were given,
    the network has had its list made: the accounts are as before, but the
    network is now a key of the wallet.  When the file cannot be written the
    account has been appended all the same. *)
Theorem add_account_rejects (name address : string) (owners : list string) (t : Z)
      (gs : option (list string)) (gt : Z) (b p rpc : option string)
      (save_flag : bool) (s : state) :
  let r := add_account name address owners t gs gt b p rpc save_flag s in
  let usable := account_methods.truthy rpc = true \/
                fst (config.has_network name (env s)) = Returned true in
  let fresh := forall existing, In existing (accounts_of name s) ->
                 same_address (account_methods.contract_address existing) address
                 = false in
  (account_methods.truthy rpc = false ->
   fst (config.has_network name (env s)) = Returned false ->
   throws (fst r) (Builtin ValueError) /\
   self (snd r) = self s /\ env (snd r) = env s) /\
  (usable ->
   (exists existing, In existing (accounts_of name s) /\
      same_address (account_methods.contract_address existing) address = true) ->
   throws (fst r) (Builtin ValueError) /\
   self (snd r) = self s /\ env (snd r) = env s) /\
  (usable -> fresh ->
   returned (of_result (account_methods.__init__ name address owners t gs gt b p rpc))
   = false \/
   (exists a, keyManager.address (key_manager (self s)) = Some a /\ a <> "" /\
              ~ In a owners) ->
   returned (fst r) = false /\
   dict_has name (_accounts (self (snd r))) = true /\
   (forall name', fst (get_accounts name' (snd r)) = fst (get_accounts name' s)) /\
   env (snd r) = env s) /\
  (usable -> fresh ->
   forall account,
     account_methods.__init__ name address owners t gs gt b p rpc = Ok account ->
     (forall a, keyManager.address (key_manager (self s)) = Some a -> a <> "" ->
                In a owners) ->
     save_flag = true ->
     config.writable (env s) (storage_path (self s)) = false ->
     throws (fst r) (Builtin OSError) /\
     fst (get_accounts name (snd r)) = Returned (accounts_of name s ++ [account]) /\
     env (snd r) = env s).
Proof.
  cbv zeta. rewrite add_account_eq.
  set (s0 := if account_methods.truthy rpc then s
             else {| self := self s; env := env s |}).
  assert (Hs0 : self s0 = self s /\ env s0 = env s)
    by (unfold s0; destruct (account_methods.truthy rpc); split; reflexivity).
  destruct Hs0 as [Hself Henv].
  assert (Ha0 : forall n, accounts_of n s0 = accounts_of n s)
    by (intros n; unfold accounts_of; now rewrite Hself).
  set (s1 := new_entry name s0).
  assert (Ha1 : forall n, accounts_of n s1 = accounts_of n s)
    by (intros n; unfold s1; now rewrite accounts_of_new_entry, Ha0).
  destruct (new_entry_frame name s0) as (He1 & Hk1 & _ & Hp1).
  fold s1 in He1, Hk1, Hp1.
  assert (Hms : forall os, may_sign s1 os = may_sign s os)
    by (intros os; unfold may_sign; now rewrite Hk1, Hself).
  split; [|split; [|split]].
  - intros Hr Hn. unfold configured. rewrite Hr, Hn. repeat split.
  - intros Hc (existing & Hin & Hsame). apply configured_spec in Hc. rewrite Hc.
    cbv zeta. fold s0. fold s1. rewrite Ha1.
    replace (existsb _ (accounts_of name s)) with true.
    2:{ symmetry. apply existsb_exists. now exists existing. }
    cbn [fst snd]. split; [reflexivity|].
    assert (Hhas : dict_has name (_accounts (self s0)) = true).
    { unfold dict_has. rewrite Hself. unfold accounts_of in Hin.
      destruct (dict_get name (_accounts (self s))); [reflexivity | destruct Hin]. }
    unfold s1, new_entry. rewrite Hhas. now split.
  - intros Hc Hd Hfail. apply configured_spec in Hc. apply no_duplicate_spec in Hd.
    rewrite Hc. cbv zeta. fold s0. fold s1. rewrite Ha1, Hd.
    assert (Hgoal : forall (o : outcome Account),
              returned o = false ->
              returned (fst (o, s1)) = false /\
              dict_has name (_accounts (self (snd (o, s1)))) = true /\
              (forall name', fst (get_accounts name' (snd (o, s1)))
                             = fst (get_accounts name' s)) /\
              env (snd (o, s1)) = env s).
    { intros o Ho. cbn [fst snd]. split; [exact Ho|].
      split; [apply new_entry_has|].
      split; [intros name'; rewrite !get_accounts_eq; cbn [fst]; now rewrite Ha1|].
      exact (eq_trans He1 Henv). }
    destruct (account_methods.__init__ _ _ _ _ _ _ _ _ _) as [account|e];
      [|now apply Hgoal].
    destruct Hfail as [Hf|(a & Ha & Hne & Hnot)]; [discriminate Hf|].
    rewrite Hms.
    replace (may_sign s owners) with false; [now apply Hgoal|].
    symmetry. apply not_true_is_false. intros Hm.
    apply Hnot. exact (proj1 (may_sign_spec s owners) Hm a Ha Hne).
  - intros Hc Hd account Hi Hk -> Hw.
    apply configured_spec in Hc. apply no_duplicate_spec in Hd.
    apply may_sign_spec in Hk.
    rewrite Hc. cbv zeta. fold s0. fold s1. rewrite Ha1, Hd, Hi, Hms, Hk.
    cbn [fst snd].
    destruct (save_eq None (appended name account s1)) as (Sself & _ & _ & Sw & _).
    cbn [str_or] in Sw.
    destruct Sw as [Sr Se].
    { cbn [appended set_accounts self env storage_path]. now rewrite Hp1, He1, Hself, Henv. }
    rewrite Sr. split; [reflexivity|].
    split.
    + rewrite get_accounts_eq. cbn [fst]. unfold accounts_of at 1. rewrite Sself.
      fold (accounts_of name (appended name account s1)).
      now rewrite accounts_of_appended, Ha1.
    + rewrite Se. cbn [appended set_accounts env]. exact (eq_trans He1 Henv).
Qed.

(** Without an address, [get_account] on a network that has accounts takes
    the index as Python's lists do: from [-n] to [n - 1] it returns the
    account at the index modulo [n], so that -1 is the last account; every
    other index raises [IndexError].  The wallet is not changed. *)
Theorem get_account_by_index (name : string) (address : option string) (index : Z)
      (s : state) :
  accounts_of name s <> [] ->
  account_methods.truthy address = false ->
  let n := Z.of_nat (length (accounts_of name s)) in
  snd (get_account name address index s) = s /\
  ((- n <= index < n)%Z ->
   exists account,
     accounts_of name s !! Z.to_nat (index mod n) = Some account /\
     fst (get_account name address index s) = Returned account) /\
  ((index < - n \/ n <= index)%Z ->
   throws (fst (get_account name address index s)) IndexError).
Proof.
  intros Hne Ht. cbv zeta. rewrite get_account_eq. cbn [fst snd].
  split; [reflexivity|]. unfold lookup_account. rewrite Ht.
  destruct (accounts_of name s) as [|a0 l0] eqn:El; [contradiction|].
  rewrite <- El in *. clear El a0 l0.
  destruct (list_index_spec (accounts_of name s) index) as [Hin Hout].
  split.
  - intros H. destruct (Z.leb_spec (Z.of_nat (length (accounts_of name s))) index);
      [lia|]. now apply Hin.
  - intros H. destruct (Z.leb_spec (Z.of_nat (length (accounts_of name s))) index);
      [reflexivity|]. now apply Hout.
Qed.

(** The wallet after [remove_account] on a network that it has. *)
Definition removed (name : string) (address : option string)
           (accounts : list Account) (s : state) : state :=
  if account_methods.truthy address
  then
    let kept := List.filter (fun acc =>
                  negb (same_address (account_methods.contract_address acc)
                                     (default "" address))) accounts in
    match kept with
    | [] => set_accounts (dict_del name) (set_accounts (dict_set name kept) s)
    | _ => set_accounts (dict_set name kept) s
    end
  else set_accounts (dict_del name) s.

Lemma remove_account_eq (name : string) (address : option string) (s : state)
      (accounts : list Account) :
  dict_get name (_accounts (self s)) = Some accounts ->
  remove_account name address false s = (Returned tt, removed name address accounts s).
Proof.
  intros H. unfold remove_account, removed. unfold mbind at 1, Py_bind at 1, py_get.
  rewrite H. unfold mbind at 1, Py_bind at 1.
  destruct (account_methods.truthy address); [|reflexivity].
  cbv zeta. unfold mbind at 1, Py_bind at 1, py_modify.
  destruct (List.filter _ accounts); reflexivity.
Qed.

Lemma accounts_of_removed (name : string) (address : option string) (s : state)
      (accounts : list Account) :
  dict_get name (_accounts (self s)) = Some accounts ->
  List.NoDup (dict_keys (_accounts (self s))) ->
  accounts_of name (removed name address accounts s) =
    (if account_methods.truthy address
     then List.filter (fun acc =>
            negb (same_address (account_methods.contract_address acc)
                               (default "" address))) accounts
     else []) /\
  (forall name', name' <> name ->
     accounts_of name' (removed name address accounts s) = accounts_of name' s) /\
  env (removed name address accounts s) = env s /\
  key_manager (self (removed name address accounts s)) = key_manager (self s).
Proof.
  intros H Hnd.
  assert (Hin : In name (dict_keys (_accounts (self s)))).
  { apply dict_has_keys. unfold dict_has. now rewrite H. }
  unfold removed, accounts_of.
  destruct (account_methods.truthy address).
  - cbv zeta. destruct (List.filter _ accounts) as [|a l] eqn:Ek.
    + cbn [set_accounts self _accounts env key_manager].
      split; [|split; [|split; reflexivity]].
      * rewrite dict_get_del_eq; [reflexivity|].
        now rewrite dict_keys_set_old.
      * intros name' Hn. now rewrite dict_get_del_ne, dict_get_set_ne.
    + cbn [set_accounts self _accounts env key_manager].
      split; [|split; [|split; reflexivity]].
      * now rewrite dict_get_set_eq.
      * intros name' Hn. now rewrite dict_get_set_ne.
  - cbn [set_accounts self _accounts env key_manager].
    split; [|split; [|split; reflexivity]].
    + now rewrite dict_get_del_eq.
    + intros name' Hn. now rewrite dict_get_del_ne.
Qed.

(** [remove_account] with an address takes out of the network every account
    that has the address up to case, and keeps the others in their order;
    [get_account] for that address then raises [KeyError].  Without an
    address the network loses all its accounts.  The other networks are as
    they were, and on a network that the wallet does not have nothing is
    done, nor saved. *)
Theorem remove_account_removes (name : string) (s : state) :
  List.NoDup (dict_keys (_accounts (self s))) ->
  (dict_get name (_accounts (self s)) = None ->
   forall address save_flag, remove_account name address save_flag s = (Returned tt, s)) /\
  (forall accounts, dict_get name (_accounts (self s)) = Some accounts ->
   forall address,
   exists s',
     remove_account name address false s = (Returned tt, s') /\
     fst (get_accounts name s') =
       Returned (if account_methods.truthy address
                 then List.filter (fun acc =>
                        negb (same_address (account_methods.contract_address acc)
                                           (default "" address))) accounts
                 else []) /\
     (account_methods.truthy address = true ->
      forall index, throws (fst (get_account name address index s')) KeyError) /\
     (account_methods.truthy address = false ->
      fst (has_account name s') = Returned false) /\
     (forall name', name' <> name ->
        fst (get_accounts name' s') = fst (get_accounts name' s)) /\
     env s' = env s).
Proof.
  intros Hnd. split.
  - intros H address save_flag.
    unfold remove_account, mbind, Py_bind, py_get. now rewrite H.
  - intros accounts H address.
    destruct (accounts_of_removed name address s accounts H Hnd) as (Hk & Ho & He & _).
    exists (removed name address accounts s).
    split; [now apply remove_account_eq|].
    split; [now rewrite get_accounts_eq, Hk|].
    split; [|split; [|split]].
    + intros Ht index. rewrite get_account_eq, Hk, Ht. cbn [fst].
      unfold lookup_account. rewrite Ht.
      destruct (List.filter _ accounts) as [|a l] eqn:Ek; [reflexivity|].
      rewrite <- Ek.
      rewrite (find_filter_negb
                 (fun account =>
                    same_address (account_methods.contract_address account)
                                 (default "" address))).
      reflexivity.
    + intros Ht. now rewrite has_account_eq, Hk, Ht.
    + intros name' Hn. rewrite !get_accounts_eq. cbn [fst]. now rewrite Ho.
    + exact He.
Qed.

End Facts.

(** *** Concrete runs *)

(** [str.lower] on the letters of ASCII. *)
Definition lower_ascii (c : ascii) : ascii :=
  let n := nat_of_ascii c in
  if (65 <=? n)%nat && (n <=? 90)%nat then ascii_of_nat (n + 32) else c.

Fixpoint ascii_lower (s : string) : string :=
  match s with
  | EmptyString => EmptyString
  | String c rest => String (lower_ascii c) (ascii_lower rest)
  end.

Definition ascii_str : Str := {| lower := ascii_lower |}.

(** A node that takes every address as it is written and does not answer. *)
Definition plain_node : account_methods.Node := {|
  account_methods.to_checksum_address := fun s => Ok s;
  account_methods.Config := unit;
  account_methods.Config_new := Ok tt;
  account_methods.get_rpc_url := fun _ _ => Ok "http://127.0.0.1:8545";
  account_methods.get_entry_point := fun _ _ => Ok None;
  account_methods.Web3 := string;
  account_methods.HTTPProvider := fun url => url;
  account_methods.is_connected := fun _ => false;
  account_methods.get_block_latest := fun _ => raise ConnectionError "no answer";
  account_methods.max_priority_fee := fun _ => raise ConnectionError "no answer";
  account_methods.gas_price := fun _ => raise ConnectionError "no answer";
  account_methods.keccak := fun _ => repeat x00 32
|}.

Definition first_account : account_methods.Account (@account_methods.Web3 plain_node) :=
  {| account_methods.network_name := "sepolia";
     account_methods.contract_address := "0xAB";
     account_methods.owners := ["0x01"];
     account_methods.threshold := 1;
     account_methods.guardians := [];
     account_methods.guardian_threshold := 0;
     account_methods.bundler_url := None;
     account_methods.paymaster_url := None;
     account_methods._custom_rpc_url := Some "http://127.0.0.1:8545";
     account_methods._w3 := None |}.

Definition no_config : config.world :=
  {| config._instance := None; config.heap := []; config.files := ∅;
     config.writable := fun _ => true |}.

Definition wallet_with (accounts : dict (list (account_methods.Account
                                                 (@account_methods.Web3 plain_node))))
  : @state plain_node :=
  {| self := {| key_manager := keyManager.init "keystore.json";
                wallet_name := "default";
                storage_path := "wallet_default.json";
                _accounts := accounts |};
     env := no_config |}.

Lemma add_account_appends_witness :
  exists s',
    @add_account plain_node ascii_str "sepolia" "0xAB" ["0x01"] 1 None 0 None None
      (Some "http://127.0.0.1:8545") false (wallet_with []) = (Returned first_account, s') /\
    fst (@get_account plain_node ascii_str "sepolia" None (-1) s') = Returned first_account /\
    fst (@get_account plain_node ascii_str "sepolia" (Some "0xAB") 7 s')
      = Returned first_account.
Proof.
  destruct (@add_account_appends plain_node ascii_str "sepolia" "0xAB" ["0x01"] 1 None 0
              None None (Some "http://127.0.0.1:8545") (wallet_with []) first_account)
    as (s' & E & _ & _ & L & _ & _ & _ & A).
  - left. reflexivity.
  - intros existing [].
  - reflexivity.
  - intros a H. discriminate H.
  - exists s'. split; [exact E|]. split; [exact L|].
    destruct (A eq_refl) as [A' _]. apply A'. discriminate.
Defined.

Lemma get_account_by_index_witness :
  exists account,
    [first_account] !! Z.to_nat ((-1) mod 1) = Some account /\
    fst (@get_account plain_node ascii_str "sepolia" None (-1)
           (wallet_with [("sepolia", [first_account])])) = Returned account.
Proof.
  destruct (@get_account_by_index plain_node ascii_str "sepolia" None (-1)
              (wallet_with [("sepolia", [first_account])])) as (_ & H & _).
  - discriminate.
  - reflexivity.
  - apply H. cbn. lia.
Defined.

Lemma remove_account_removes_witness :
  exists s',
    @remove_account plain_node ascii_str "sepolia" (Some "0xab") false
      (wallet_with [("sepolia", [first_account])]) = (Returned tt, s') /\
    (forall index,
       throws (fst (@get_account plain_node ascii_str "sepolia" (Some "0xab") index s'))
              KeyError).
Proof.
  destruct (@remove_account_removes plain_node ascii_str "sepolia"
              (wallet_with [("sepolia", [first_account])])) as (_ & H).
  - constructor; [intros [] | constructor].
  - destruct (H [first_account] eq_refl (Some "0xab")) as (s' & E & _ & K & _).
    exists s'. split; [exact E | exact (K eq_refl)].
Defined.

End WalletFacts.
